(** * christmas-tree: placement, per-frame interpolation and control signals

    A shallow embedding of the scene logic of the application component
    (the file [main.tsx] imports as [./App.tsx]; it defines [createConfig],
    [getTreePosition], [OrnamentTree], [PhotoOrnaments], [FairyLights],
    [Experience], [GestureController] and [GrandTreeApp]) together with the
    properties its specification states.  Line numbers refer to that file.

    Conventions of the embedding.
    - A JavaScript [number] is read as a real number of [R]: rounding, NaN
      and the infinities of IEEE doubles (and the narrowing of a
      [Float32Array] store) are not modelled.  Integer loop counters and
      array indices are [nat].
    - [Math.random()] is an explicit stream of draws [nat -> R] read
      through a cursor; every function that draws threads the cursor.
    - React state ([useState], [useRef]) is an explicit record that each
      handler takes and returns.
    - Objects of three.js, drei and MediaPipe are records holding the fields
      the code reads and writes. *)

From Stdlib Require Import String Ascii Reals Lra Lia List Arith ZArith Bool.
Import ListNotations.
Open Scope R_scope.

(** ** three.js values used by the scene *)

Record Vector3 : Type := mkVector3 { vx : R; vy : R; vz : R }.

(** Euler angles of an [Object3D]; [rotation.x += e] edits one angle. *)
Record Euler : Type := mkEuler { ex : R; ey : R; ez : R }.

(** [THREE.Object3D]: the part of a transform that [Matrix4.decompose] gives
    back and [updateMatrix] composes again. *)
Record Object3D : Type := mkObject3D {
  position : Vector3;
  rotation : Euler;
  scale : Vector3
}.

Module ThreeMath.

(** [Vector3.prototype.lerp(v, alpha)]:
    [this.x += (v.x - this.x) * alpha], the same on y and z.  The factor
    is used as given. *)
Definition lerp (self v : Vector3) (alpha : R) : Vector3 :=
  mkVector3 (vx self + (vx v - vx self) * alpha)
            (vy self + (vy v - vy self) * alpha)
            (vz self + (vz v - vz self) * alpha).

(** [THREE.MathUtils.lerp(x, y, t)] is [(1 - t) * x + t * y]. *)
Definition lerpScalar (x y t : R) : R := (1 - t) * x + t * y.

(** [THREE.MathUtils.clamp(value, min, max)] is
    [Math.max(min, Math.min(max, value))]. *)
Definition clamp (value lo hi : R) : R := Rmax lo (Rmin hi value).

(** [Vector3.prototype.setScalar(s)]. *)
Definition setScalar (s : R) : Vector3 := mkVector3 s s s.

(** [Vector3.prototype.lengthSq()]. *)
Definition lengthSq (v : Vector3) : R :=
  vx v * vx v + vy v * vy v + vz v * vz v.

(** [Vector3.prototype.distanceTo(v)]. *)
Definition distanceTo (a b : Vector3) : R :=
  sqrt ((vx a - vx b) * (vx a - vx b) + (vy a - vy b) * (vy a - vy b)
        + (vz a - vz b) * (vz a - vz b)).

End ThreeMath.

(** A point [p] lies on the closed segment from [a] to [b]. *)
Definition onSegment (p a b : Vector3) : Prop :=
  exists t : R, 0 <= t <= 1 /\
    vx p = vx a + t * (vx b - vx a) /\
    vy p = vy a + t * (vy b - vy a) /\
    vz p = vz a + t * (vz b - vz a).

(** ** Scene mode and configuration *)

Inductive SceneMode : Type := CHAOS | FORMED.

Definition SceneMode_eqb (a b : SceneMode) : bool :=
  match a, b with
  | CHAOS, CHAOS | FORMED, FORMED => true
  | _, _ => false
  end.

Record Counts : Type := mkCounts { foliage : nat; ornaments : nat; lights : nat }.
Record Tree : Type := mkTree { height : R; radius : R }.

(** [ColorTheme] of [ColorThemes.ts]: six named colours, kept as strings. *)
Record ColorTheme : Type := mkColorTheme {
  gold : string; red : string; green : string;
  white : string; warmLight : string; polaroidBorder : string
}.

Record ConfigType : Type := mkConfig {
  colors : ColorTheme;
  counts : Counts;
  tree : Tree;
  photos_body : list string
}.

(** [createConfig] (lines 21-32); [GrandTreeApp] builds the same record
    inline (lines 765-773). *)
Definition createConfig (c : ColorTheme) : ConfigType :=
  mkConfig c (mkCounts 500 50 200) (mkTree 28 12) [].

(** ** Arrays written by index *)

(** [a[i] = v] on a pre-sized typed array or instance buffer: a store inside
    the array replaces the element; a store past the end of a typed array is
    ignored by JavaScript. *)
Fixpoint store {A : Type} (i : nat) (v : A) (a : list A) : list A :=
  match a, i with
  | [], _ => []
  | _ :: t, O => v :: t
  | h :: t, S j => h :: store j v t
  end.

(** [for (let i = lo; i < lo + n; i++) a = body i a]. *)
Fixpoint forLoop {St : Type} (n lo : nat) (body : nat -> St -> St) (s : St) : St :=
  match n with
  | O => s
  | S k => forLoop k (S lo) body (body lo s)
  end.

(** Comparisons of numbers as booleans. *)
Definition Rltb (a b : R) : bool := if Rlt_dec a b then true else false.
Definition Rgtb (a b : R) : bool := Rltb b a.
Definition Reqb (a b : R) : bool := if Req_dec_T a b then true else false.

(** [Math.floor] of a non-negative number, as an array index. *)
Definition Math_floor (a : R) : nat := Z.to_nat (Int_part a).

(** [Math.pow(x, y)] for the bases the scene uses, [0 <= x]; [Rpower] is the
    real power for [0 < x]. *)
Definition Math_pow (a b : R) : R := if Req_dec_T a 0 then 0 else Rpower a b.

(** ** The random source *)

(** The draws [Math.random()] will return, and how many were taken. *)
Record Rng : Type := mkRng { draws : nat -> R; cursor : nat }.

Definition Math_random (g : Rng) : R * Rng :=
  (draws g (cursor g), mkRng (draws g) (S (cursor g))).

(** Code that draws: a state monad over the random source. *)
Definition Rand (A : Type) : Type := Rng -> A * Rng.

Definition ret {A : Type} (a : A) : Rand A := fun g => (a, g).

Definition bind {A B : Type} (m : Rand A) (k : A -> Rand B) : Rand B :=
  fun g => let (a, g') := m g in k a g'.

Declare Scope rand_scope.
Delimit Scope rand_scope with rand.
Notation "x <- m ;; k" := (bind m (fun x => k))
  (at level 61, m at next level, right associativity) : rand_scope.

(** A point as a three-element array [[x, y, z]]. *)
Definition Point : Type := (R * R * R)%type.

Definition px (p : Point) : R := fst (fst p).
Definition py (p : Point) : R := snd (fst p).
Definition pz (p : Point) : R := snd p.

(** [getTreePosition] (lines 37-44): a point inside the cone, biased to its
    surface.  Three draws, in source order: height, azimuth, radial bias. *)
Definition getTreePosition (treeHeight treeRadius : R) : Rand Point :=
  (let h := treeHeight in
   let rBase := treeRadius in
   u1 <- Math_random ;;
   let y := u1 * h - h / 2 in
   let normalizedY := (y + h / 2) / h in
   let currentRadius := rBase * (1 - normalizedY) in
   u2 <- Math_random ;;
   let theta := u2 * PI * 2 in
   u3 <- Math_random ;;
   let r := currentRadius * sqrt (0.5 + 0.5 * u3) in
   ret (r * cos theta, y, r * sin theta))%rand.

(** ** OrnamentTree: the foliage spheres *)

Module OrnamentTree.

(** [MIN_DISTANCE] (line 65). *)
Definition MIN_DISTANCE : R := 2.0.

(** The locals [tx, ty, tz] are declared without a value (line 68); the
    placeholder stands for them until the first candidate is generated
    (the search never returns it: [search_spec] gives its result from
    the draws alone). *)
Definition unset : Point := (0, 0, 0).

(** Lines 74-83: [valid = true], then the scan of [placedPositions] that
    clears it and breaks at the first point closer than [MIN_DISTANCE]. *)
Fixpoint scanPlaced (t : Point) (placedPositions : list Point) : bool :=
  match placedPositions with
  | [] => true
  | p :: rest =>
      let dx := px t - px p in
      let dy := py t - py p in
      let dz := pz t - pz p in
      if Rltb (dx * dx + dy * dy + dz * dz) (MIN_DISTANCE * MIN_DISTANCE)
      then false
      else scanPlaced t rest
  end.

(** The locals of the search: the candidate, [valid] and [attempts]. *)
Record Search : Type := mkSearch {
  cand : Point; valid : bool; attempts : nat
}.

(** Lines 72-85: [while (!valid && attempts < 50)].  [fuel] bounds the
    number of iterations the model may unfold. *)
Fixpoint whileSearch (fuel : nat) (h r : R) (placedPositions : list Point)
    (s : Search) : Rand Search :=
  match fuel with
  | O => ret s
  | S k =>
      if negb (valid s) && (attempts s <? 50)%nat then
        (t <- getTreePosition h r ;;
         whileSearch k h r placedPositions
           (mkSearch t (scanPlaced t placedPositions) (S (attempts s))))%rand
      else ret s
  end.

(** Lines 68-85 for one sphere: fresh locals, then the loop.  Fifty
    unfoldings are enough for the loop to leave by its own condition
    ([search_spec]). *)
Definition search (h r : R) (placedPositions : list Point) : Rand Search :=
  whileSearch 50 h r placedPositions (mkSearch unset false 0).

(** A colour as [THREE.Color] holds it. *)
Record Color : Type := mkColor { cr : R; cg : R; cb : R }.

(** What the [useMemo] of lines 50-109 builds and mutates. *)
Record Memo : Type := mkMemo {
  targets : list R;
  randoms : list R;
  colorsArr : list R;
  placedPositions : list Point;
  rng : Rng
}.

Section Build.

(** [new THREE.Color(hex)], the parser of three.js. *)
Variable parseColor : string -> Color.

(** Lines 56-62. *)
Definition colorPalette (config : ConfigType) : list Color :=
  [ parseColor (gold (colors config));
    parseColor (gold (colors config));
    parseColor (red (colors config));
    parseColor (green (colors config));
    parseColor (green (colors config)) ].

(** The body of [for (let i = 0; i < count; i++)], lines 68-106.  Both
    branches of [if (valid)] push the last candidate (lines 90-97).  A
    read past the end of [spherePoints] or of the palette is given the
    value 0 or black here; neither happens when [spherePoints] has
    [count * 3] entries and the draws are below 1. *)
Definition placeOne (config : ConfigType) (spherePoints : list R)
    (i : nat) (m : Memo) : Memo :=
  let (s, g1) :=
    search (height (tree config)) (radius (tree config))
           (placedPositions m) (rng m) in
  let t := cand s in
  let placed' :=
    if valid s then placedPositions m ++ [t]
    else placedPositions m ++ [t] in
  let targets' :=
    store (i * 3 + 2) (pz t)
      (store (i * 3 + 1) (py t) (store (i * 3) (px t) (targets m))) in
  let randoms' :=
    store (i * 3 + 2) (nth (i * 3 + 2) spherePoints 0)
      (store (i * 3 + 1) (nth (i * 3 + 1) spherePoints 0)
         (store (i * 3) (nth (i * 3) spherePoints 0) (randoms m))) in
  let (u, g2) := Math_random g1 in
  let palette := colorPalette config in
  let col :=
    nth (Math_floor (u * INR (length palette))) palette (mkColor 0 0 0) in
  let colors' :=
    store (i * 3 + 2) (cb col)
      (store (i * 3 + 1) (cg col) (store (i * 3) (cr col) (colorsArr m))) in
  mkMemo targets' randoms' colors' placed' g2.

(** The state before the loop: three zero-filled [Float32Array(count * 3)]
    and an empty [placedPositions]. *)
Definition initMemo (count : nat) (g : Rng) : Memo :=
  mkMemo (repeat 0 (count * 3)) (repeat 0 (count * 3))
         (repeat 0 (count * 3)) [] g.

(** The [useMemo] callback, lines 50-109.  [spherePoints] is the array
    [random.inSphere] of maath returned (line 54) and [g] the random source
    as that call left it. *)
Definition useMemo (config : ConfigType) (spherePoints : list R)
    (g : Rng) : Memo :=
  let count := foliage (counts config) in
  forLoop count 0 (placeOne config spherePoints) (initMemo count g).

(** The loop after its first [k] iterations. *)
Definition afterIterations (config : ConfigType) (spherePoints : list R)
    (g : Rng) (k : nat) : Memo :=
  forLoop k 0 (placeOne config spherePoints)
    (initMemo (foliage (counts config)) g).

(** The locals of the search that iteration [i] of the loop runs: its
    [valid] tells whether sphere [i] passed the distance check. *)
Definition searchOf (config : ConfigType) (spherePoints : list R)
    (g : Rng) (i : nat) : Search :=
  let m := afterIterations config spherePoints g i in
  fst (search (height (tree config)) (radius (tree config))
              (placedPositions m) (rng m)).

End Build.

(** Sphere [i] of a flat coordinate array. *)
Definition pointAt (a : list R) (i : nat) : Point :=
  (nth (i * 3) a 0, nth (i * 3 + 1) a 0, nth (i * 3 + 2) a 0).

(** The same three coordinates as [new THREE.Vector3(tx, ty, tz)]. *)
Definition vectorAt (a : list R) (i : nat) : Vector3 :=
  mkVector3 (nth (i * 3) a 0) (nth (i * 3 + 1) a 0) (nth (i * 3 + 2) a 0).

(** The Euclidean distance of two points. *)
Definition distance (a b : Point) : R :=
  sqrt ((px a - px b) * (px a - px b) + (py a - py b) * (py a - py b)
        + (pz a - pz b) * (pz a - pz b)).

(** Lines 122-143: one instance of the per-frame loop.  [d] is the
    transform read back from the instance matrix into [dummy]. *)
Definition frameInstance (state : SceneMode) (targets randoms : list R)
    (time delta : R) (i : nat) (d : Object3D) : Object3D :=
  let isFormed := SceneMode_eqb state FORMED in
  let lerpFactor := delta * 2.0 in
  let tx := if isFormed then nth (i * 3) targets 0
            else nth (i * 3) randoms 0 in
  let ty := if isFormed then nth (i * 3 + 1) targets 0
            else nth (i * 3 + 1) randoms 0 in
  let tz := if isFormed then nth (i * 3 + 2) targets 0
            else nth (i * 3 + 2) randoms 0 in
  let position' := ThreeMath.lerp (position d) (mkVector3 tx ty tz) lerpFactor in
  let rotation' :=
    mkEuler (ex (rotation d) + sin (time * 0.5 + INR i) * 0.002)
            (ey (rotation d) + cos (time * 0.3 + INR i) * 0.002)
            (ez (rotation d)) in
  let scaleBase := 0.4 + INR (i mod 5) * 0.1 in
  mkObject3D position' rotation' (ThreeMath.setScalar scaleBase).

(** The transform given to a read of a slot the mesh does not have; the
    mesh is created with [count] instances (line 149), so the loop never
    makes such a read. *)
Definition identity : Object3D :=
  mkObject3D (mkVector3 0 0 0) (mkEuler 0 0 0) (mkVector3 1 1 1).

(** The [useFrame] callback, lines 113-146.  [mesh] is [meshRef.current]:
    [None] before the mesh is mounted, otherwise its instance transforms. *)
Definition useFrame (state : SceneMode) (count : nat)
    (targets randoms : list R) (time delta : R)
    (mesh : option (list Object3D)) : option (list Object3D) :=
  match mesh with
  | None => None
  | Some instances =>
      Some (forLoop count 0
              (fun i inst =>
                 store i (frameInstance state targets randoms time delta i
                            (nth i inst identity)) inst)
              instances)
  end.

End OrnamentTree.

(** ** Groups rendered from a data array *)

(** [children.forEach((child, i) => { const objData = data[i]; ... })]: the
    callback reads and mutates [data[i]] and the child.  Children are
    rendered one per entry of [data]; were [data] shorter, reading a field
    of the missing entry would throw and end the walk, leaving the rest as
    it was. *)
Fixpoint forEachChild {C D : Type} (body : nat -> D -> C -> D * C) (i : nat)
    (children : list C) (data : list D) : list C * list D :=
  match children, data with
  | c :: cs, d :: ds =>
      let (d', c') := body i d c in
      let (cs', ds') := forEachChild body (S i) cs ds in
      (c' :: cs', d' :: ds')
  | [], ds => ([], ds)
  | cs, [] => (cs, [])
  end.

(** ** PhotoOrnaments: the polaroids *)

Module PhotoOrnaments.

(** [useTexture(photos)] of drei loads one texture per URL, in order; a
    texture is named by its URL. *)
Definition useTexture (photos : list string) : list string := photos.

(** Line 171: every photo in CHAOS, at most [counts.ornaments] in FORMED. *)
Definition count (state : SceneMode) (config : ConfigType)
    (textures : list string) : nat :=
  if SceneMode_eqb state CHAOS then length textures
  else Nat.min (ornaments (counts config)) (length textures).

(** Line 181. *)
Definition minDistance : R := 2.5.

(** One entry of [generatedData] (lines 254-261). *)
Record Datum : Type := mkDatum {
  chaosPos : Vector3;
  targetPos : Vector3;
  textureIndex : nat;
  currentPos : Vector3;
  chaosRotation : Euler;
  rotationSpeed : Vector3;
  dataScale : R
}.

(** Lines 218-226: the distance from the candidate to the closest placed
    photo, starting from 1000. *)
Definition closest (candidatePos : Vector3) (positions : list Vector3) : R :=
  fold_left
    (fun minDist p =>
       let d := ThreeMath.distanceTo candidatePos p in
       if Rltb d minDist then d else minDist)
    positions 1000.

(** Lines 192-238: [n] remaining rounds of
    [for (let attempt = 0; attempt < 20; attempt++)], returning
    [targetPos] and [bestPos]. *)
Fixpoint attemptLoop (n : nat) (h rBase : R) (positions : list Vector3)
    (targetPos bestPos : Vector3) (maxDistToClosest : R)
    : Rand (Vector3 * Vector3) :=
  match n with
  | O => ret (targetPos, bestPos)
  | S k =>
      (let minY := (- h) / 2.2 in
       let maxY := h / 3 in
       u1 <- Math_random ;;
       let y := minY + (maxY - minY) * Math_pow u1 1.5 in
       let normalizedY := (y + h / 2) / h in
       let currentRadius := rBase * (1 - normalizedY) in
       let r := currentRadius + 0.5 in
       u2 <- Math_random ;;
       let theta := u2 * PI * 2 in
       let candidatePos := mkVector3 (r * cos theta) y (r * sin theta) in
       let minDist := closest candidatePos positions in
       if Rgtb minDist minDistance then ret (candidatePos, bestPos)
       else if Rgtb minDist maxDistToClosest
            then attemptLoop k h rBase positions targetPos candidatePos minDist
            else attemptLoop k h rBase positions targetPos bestPos
                   maxDistToClosest)%rand
  end.

(** What the loop of lines 183-262 carries. *)
Record Gen : Type := mkGen {
  generatedData : list Datum;
  positions : list Vector3;
  rng : Rng
}.

(** Lines 184-261: one photo. *)
Definition generateOne (config : ConfigType) (textures : list string)
    (i : nat) (s : Gen) : Gen :=
  let run :=
    (c1 <- Math_random ;; c2 <- Math_random ;; c3 <- Math_random ;;
     let chaosPos :=
       mkVector3 ((c1 - 0.5) * 50) ((c2 - 0.5) * 50) ((c3 - 0.5) * 50) in
     found <- attemptLoop 20 (height (tree config)) (radius (tree config))
                (positions s) (mkVector3 0 0 0) (mkVector3 0 0 0) (-1) ;;
     let targetPos :=
       if Reqb (ThreeMath.lengthSq (fst found)) 0 then snd found
       else fst found in
     s1 <- Math_random ;; s2 <- Math_random ;; s3 <- Math_random ;;
     let rotationSpeed :=
       mkVector3 ((s1 - 0.5) * 0.5) ((s2 - 0.5) * 0.5) ((s3 - 0.5) * 0.5) in
     e1 <- Math_random ;; e2 <- Math_random ;; e3 <- Math_random ;;
     let chaosRotation := mkEuler (e1 * PI) (e2 * PI) (e3 * PI) in
     ret (targetPos,
          mkDatum chaosPos targetPos (i mod length textures) chaosPos
                  chaosRotation rotationSpeed 2))%rand in
  let '((targetPos, datum), g) := run (rng s) in
  mkGen (generatedData s ++ [datum]) (positions s ++ [targetPos]) g.

(** The [useMemo] callback of lines 178-264. *)
Definition useMemo (state : SceneMode) (config : ConfigType)
    (textures : list string) (g : Rng) : list Datum :=
  generatedData
    (forLoop (count state config textures) 0 (generateOne config textures)
       (mkGen [] [] g)).

Section Frame.

(** [Object3D.lookAt] of three.js: the orientation that turns the group
    towards a point. *)
Variable lookAt : Object3D -> Vector3 -> Euler.

(** Lines 271-293: the callback of [forEach] for one polaroid. *)
Definition frameChild (state : SceneMode) (elapsedTime delta : R)
    (i : nat) (objData : Datum) (group : Object3D) : Datum * Object3D :=
  let isFormed := SceneMode_eqb state FORMED in
  let target := if isFormed then targetPos objData else chaosPos objData in
  let currentPos' := ThreeMath.lerp (currentPos objData) target (delta * 2.0) in
  let objData' :=
    mkDatum (chaosPos objData) (targetPos objData) (textureIndex objData)
            currentPos' (chaosRotation objData) (rotationSpeed objData)
            (dataScale objData) in
  let targetScale := if isFormed then 2 else 4 in
  let currentScale := vx (scale group) in
  let newScale := ThreeMath.lerpScalar currentScale targetScale (delta * 3) in
  let moved :=
    mkObject3D currentPos' (rotation group) (ThreeMath.setScalar newScale) in
  let rotation' :=
    if isFormed then
      let targetLookPos :=
        mkVector3 (vx currentPos' * 2) (vy currentPos') (vz currentPos' * 2) in
      let faced := lookAt moved targetLookPos in
      mkEuler (ex faced) (ey faced)
              (ez faced + sin (elapsedTime + INR i) * 0.001)
    else
      mkEuler (ex (rotation group) + delta * vx (rotationSpeed objData))
              (ey (rotation group) + delta * vy (rotationSpeed objData))
              (ez (rotation group) + delta * vz (rotationSpeed objData)) in
  (objData', mkObject3D currentPos' rotation' (ThreeMath.setScalar newScale)).

(** The [useFrame] callback, lines 266-295; [children] is
    [groupRef.current.children], [None] while the group is not mounted. *)
Definition useFrame (state : SceneMode) (elapsedTime delta : R)
    (children : option (list Object3D)) (data : list Datum)
    : option (list Object3D) * list Datum :=
  match children with
  | None => (None, data)
  | Some cs =>
      let (cs', data') :=
        forEachChild (frameChild state elapsedTime delta) 0 cs data in
      (Some cs', data')
  end.

End Frame.

End PhotoOrnaments.

(** ** FairyLights *)

Module FairyLights.

(** One entry of [data] (line 347). *)
Record Datum : Type := mkDatum {
  chaosPos : Vector3;
  targetPos : Vector3;
  speed : R;
  currentPos : Vector3;
  timeOffset : R
}.

(** A rendered light: its position and, when it has a material, the
    material's [emissiveIntensity]. *)
Record Mesh : Type := mkMesh {
  meshPosition : Vector3;
  material : option R
}.

(** Lines 337-347: the callback of [map] for one light. *)
Definition generateOne (config : ConfigType) : Rand Datum :=
  (c1 <- Math_random ;; c2 <- Math_random ;; c3 <- Math_random ;;
   let chaosPos :=
     mkVector3 ((c1 - 0.5) * 60) ((c2 - 0.5) * 60) ((c3 - 0.5) * 60) in
   let h := height (tree config) in
   u1 <- Math_random ;;
   let y := u1 * h - h / 2 in
   let rBase := radius (tree config) in
   let currentRadius := rBase * (1 - (y + h / 2) / h) in
   let r := currentRadius + 0.2 in
   u2 <- Math_random ;;
   let theta := u2 * PI * 2 in
   let targetPos := mkVector3 (r * cos theta) y (r * sin theta) in
   u3 <- Math_random ;;
   let speed := 1 + u3 * 2 in
   u4 <- Math_random ;;
   ret (mkDatum chaosPos targetPos speed chaosPos (u4 * 100)))%rand.

(** [new Array(count).fill(0).map(() => ...)]: the callback once per
    slot, first slot first. *)
Fixpoint mapSlots (n : nat) (config : ConfigType) : Rand (list Datum) :=
  match n with
  | O => ret []
  | S k =>
      (d <- generateOne config ;;
       ds <- mapSlots k config ;;
       ret (d :: ds))%rand
  end.

(** The [useMemo] callback of lines 335-349. *)
Definition useMemo (config : ConfigType) (g : Rng) : list Datum :=
  fst (mapSlots (lights (counts config)) config g).

(** Line 362. *)
Definition intensity (time : R) (objData : Datum) : R :=
  (sin (time * speed objData + timeOffset objData) + 1) / 2.

(** Line 364: the value assigned to [emissiveIntensity]. *)
Definition emissive (state : SceneMode) (time : R) (objData : Datum) : R :=
  if SceneMode_eqb state FORMED then 2 + intensity time objData * 3 else 0.

(** Lines 356-365: the callback of [forEach] for one light. *)
Definition frameChild (state : SceneMode) (time delta : R) (i : nat)
    (objData : Datum) (mesh : Mesh) : Datum * Mesh :=
  let isFormed := SceneMode_eqb state FORMED in
  let target := if isFormed then targetPos objData else chaosPos objData in
  let currentPos' := ThreeMath.lerp (currentPos objData) target (delta * 2.5) in
  let objData' :=
    mkDatum (chaosPos objData) (targetPos objData) (speed objData)
            currentPos' (timeOffset objData) in
  let material' :=
    match material mesh with
    | Some _ => Some (emissive state time objData)
    | None => None
    end in
  (objData', mkMesh currentPos' material').

(** The [useFrame] callback, lines 351-367. *)
Definition useFrame (state : SceneMode) (time delta : R)
    (children : option (list Mesh)) (data : list Datum)
    : option (list Mesh) * list Datum :=
  match children with
  | None => (None, data)
  | Some cs =>
      let (cs', data') := forEachChild (frameChild state time delta) 0 cs data in
      (Some cs', data')
  end.

End FairyLights.

(** ** Experience: the camera orbit *)

Module Experience.

(** The orbit angles [OrbitControls] keeps; [getAzimuthalAngle],
    [getPolarAngle], [setAzimuthalAngle] and [setPolarAngle] read and
    write them. *)
Record Controls : Type := mkControls { azimuthal : R; polar : R }.

(** [cameraSpeed], the angular-velocity signal. *)
Record Speed : Type := mkSpeed { sx : R; sy : R }.

Definition setAzimuthalAngle (v : R) (c : Controls) : Controls :=
  mkControls v (polar c).

Definition setPolarAngle (v : R) (c : Controls) : Controls :=
  mkControls (azimuthal c) v.

(** The polar angles the guard of line 507 lets through. *)
Definition polarInRange (p : R) : Prop := 0.1 < p < PI - 0.1.

Section Frame.

(** [controls.update()] of the orbit controls library. *)
Variable update : Controls -> Controls.

(** The [useFrame] callback, lines 502-512; [None] is an unset
    [controlsRef.current]. *)
Definition useFrame (cameraSpeed : Speed) (controlsRef : option Controls)
    : option Controls :=
  match controlsRef with
  | None => None
  | Some c =>
      let c1 := setAzimuthalAngle (azimuthal c + sx cameraSpeed) c in
      let newPolar := polar c1 + sy cameraSpeed in
      let c2 :=
        if Rgtb newPolar 0.1 && Rltb newPolar (PI - 0.1)
        then setPolarAngle newPolar c1
        else c1 in
      Some (update c2)
  end.

(** One frame per signal of the list, first signal first. *)
Fixpoint frames (signals : list Speed) (controlsRef : option Controls)
    : option Controls :=
  match signals with
  | [] => controlsRef
  | s :: rest => frames rest (useFrame s controlsRef)
  end.

End Frame.

(** What [update] of the library does to the polar angle with the props of
    lines 521-530: it restricts the angle to
    [[minPolarAngle, maxPolarAngle]] = [[0, PI / 1.8]]. *)
Definition orbitUpdate (c : Controls) : Controls :=
  mkControls (azimuthal c) (Rmax 0 (Rmin (PI / 1.8) (polar c))).

End Experience.

(** ** GestureController and the application state it drives *)

Module GestureController.

(** One classification of MediaPipe: [categoryName] and [score]. *)
Record Category : Type := mkCategory { categoryName : string; score : R }.

(** One landmark, in normalised frame coordinates. *)
Record Landmark : Type := mkLandmark { lx : R; ly : R }.

(** The result of [recognizeForVideo]: per hand, its classifications and
    its landmarks. *)
Record Results : Type := mkResults {
  gestures : list (list Category);
  landmarks : list (list Landmark)
}.

(** The state the callbacks write: [onGesture] is [setSceneState],
    [onMove] is [setCameraSpeed] and [onStatus] is [setAiStatus]
    (line 814); [lastHandPos] is the controller's own ref (line 577). *)
Record State : Type := mkState {
  sceneState : SceneMode;
  cameraSpeed : Experience.Speed;
  aiStatus : string;
  lastHandPos : option (R * R)
}.

Definition onGesture (m : SceneMode) (s : State) : State :=
  mkState m (cameraSpeed s) (aiStatus s) (lastHandPos s).

Definition onMove (v : Experience.Speed) (s : State) : State :=
  mkState (sceneState s) v (aiStatus s) (lastHandPos s).

Definition onStatus (msg : string) (s : State) : State :=
  mkState (sceneState s) (cameraSpeed s) msg (lastHandPos s).

Definition setLastHandPos (p : option (R * R)) (s : State) : State :=
  mkState (sceneState s) (cameraSpeed s) (aiStatus s) p.

(** Line 647. *)
Definition SENSITIVITY : R := 5.0.

(** Line 653. *)
Definition deadzone : R := 0.002.

(** Lines 637-640. *)
Definition classify (name : string) (score : R) (s : State) : State :=
  if Rgtb score 0.4 then
    let s1 := if String.eqb name "Open_Palm" then onGesture CHAOS s else s in
    let s2 := if String.eqb name "Closed_Fist" then onGesture FORMED s1 else s1 in
    onStatus ("DETECTED: " ++ name) s2
  else s.

(** Lines 641-663. *)
Definition track (landmarks : list (list Landmark)) (s : State) : State :=
  match landmarks with
  | [] => onMove (Experience.mkSpeed 0 0) (setLastHandPos None s)
  | [] :: _ => s
  | (hand :: _) :: _ =>
      let s1 :=
        match lastHandPos s with
        | Some (lastX, lastY) =>
            let deltaX := (lx hand - lastX) * SENSITIVITY in
            let deltaY := (ly hand - lastY) * SENSITIVITY in
            let finalX := if Rgtb (Rabs deltaX) deadzone then deltaX else 0 in
            onMove (Experience.mkSpeed finalX (- deltaY)) s
        | None => s
        end in
      setLastHandPos (Some (lx hand, ly hand)) s1
  end.

(** Lines 635-668 of [predictWebcam]: what one recognition result does to
    the state.  An empty inner array makes the read of
    [results.gestures[0][0].categoryName] (or of [hand.x]) throw; the
    [catch] of line 669 only logs, so the state stays as the statements
    before the throw left it. *)
Definition predictWebcam (results : Results) (s : State) : State :=
  match gestures results with
  | [] =>
      onStatus "AI READY: NO HAND"
        (onMove (Experience.mkSpeed 0 0) (setLastHandPos None s))
  | [] :: _ => s
  | (top :: _) :: _ =>
      track (landmarks results) (classify (categoryName top) (score top) s)
  end.

End GestureController.

(** ** GrandTreeApp: shake to snow *)

Module GrandTreeApp.

(** [e.accelerationIncludingGravity]: each axis may be [null]. *)
Record Acceleration : Type := mkAcceleration {
  ax : option R; ay : option R; az : option R
}.

(** A [DeviceMotionEvent]; the acceleration itself may be [null]. *)
Record DeviceMotionEvent : Type := mkEvent {
  accelerationIncludingGravity : option Acceleration
}.

(** The variables of the effect of lines 723-762 and the [isSnowing] state.
    [timeout] is the pending timer: the time, in milliseconds, at which its
    callback [setIsSnowing(false)] is due, or [None] when no timer is
    pending. *)
Record State : Type := mkState {
  lastX : option R;
  lastY : option R;
  lastZ : option R;
  isSnowing : bool;
  timeout : option R
}.

(** [handleMotion] (lines 729-749), for an event delivered at time [now]. *)
Definition handleMotion (now : R) (e : DeviceMotionEvent) (s : State) : State :=
  match accelerationIncludingGravity e with
  | None => s
  | Some a =>
      match ax a, ay a, az a with
      | Some x, Some y, Some z =>
          let s1 :=
            match lastX s, lastY s, lastZ s with
            | Some lastX, Some lastY, Some lastZ =>
                let deltaX := Rabs (x - lastX) in
                let deltaY := Rabs (y - lastY) in
                let deltaZ := Rabs (z - lastZ) in
                if Rgtb (deltaX + deltaY + deltaZ) 25 then
                  mkState (Some lastX) (Some lastY) (Some lastZ) true
                          (Some (now + 5000))
                else s
            | _, _, _ => s
            end in
          mkState (Some x) (Some y) (Some z) (isSnowing s1) (timeout s1)
      | _, _, _ => s
      end
  end.

(** The event loop reaching time [now]: a pending timer that is due runs
    [setIsSnowing(false)]. *)
Definition timerFires (now : R) (s : State) : State :=
  match timeout s with
  | Some due =>
      if Rltb now due then s
      else mkState (lastX s) (lastY s) (lastZ s) false None
  | None => s
  end.

(** The state when the effect is first run (lines 703, 724-727). *)
Definition initial : State := mkState None None None false None.

(** A shake: the event carries a full sample, a previous sample is
    retained, and the two differ by more than 25 summed over the axes. *)
Definition shakeDetected (e : DeviceMotionEvent) (s : State) : Prop :=
  exists a x y z x0 y0 z0,
    accelerationIncludingGravity e = Some a /\
    ax a = Some x /\ ay a = Some y /\ az a = Some z /\
    lastX s = Some x0 /\ lastY s = Some y0 /\ lastZ s = Some z0 /\
    Rabs (x - x0) + Rabs (y - y0) + Rabs (z - z0) > 25.

End GrandTreeApp.

(** ** SettingsPanel: the colour sliders *)

Module SettingsPanel.

(** The value of one hexadecimal digit, as [parseInt] reads it. *)
Definition hexDigit (c : ascii) : option Z :=
  let n := nat_of_ascii c in
  if ((48 <=? n) && (n <=? 57))%nat then Some (Z.of_nat (n - 48))
  else if ((97 <=? n) && (n <=? 102))%nat then Some (Z.of_nat (n - 87))
  else if ((65 <=? n) && (n <=? 70))%nat then Some (Z.of_nat (n - 55))
  else None.

(** The digits [parseInt] accepts after the prefix: the longest run of
    hexadecimal digits at the front; [acc] is the value read so far, [None]
    while no digit was read. *)
Fixpoint parseHex (acc : option Z) (digits : string) : option Z :=
  match digits with
  | EmptyString => acc
  | String c rest =>
      match hexDigit c with
      | Some d =>
          parseHex (Some (16 * match acc with Some a => a | None => 0 end + d)%Z)
                   rest
      | None => acc
      end
  end.

(** [parseInt("0x" + digits)]: the number the leading hexadecimal digits
    spell, or [None] for NaN when there is none. *)
Definition parseInt0x (digits : string) : option Z := parseHex None digits.

(** [hex[i]] inside a string concatenation: the character as a one-character
    string, or the text of [undefined] past the end. *)
Definition charAt (i : nat) (hex : string) : string :=
  match String.get i hex with
  | Some c => String c EmptyString
  | None => "undefined"
  end.

(** [Math.round]: the nearest integer, a half going up. *)
Definition Math_round (a : R) : Z := Int_part (a + 0.5).

(** [+(a).toFixed(1)]: [a] rounded to one decimal, a tie going away from
    zero. *)
Definition toFixed1 (a : R) : R :=
  if Rltb a 0 then - (IZR (Int_part (- a * 10 + 0.5)) / 10)
  else IZR (Int_part (a * 10 + 0.5)) / 10.

(** [a % b] on numbers: the remainder has the sign of [a]. *)
Definition jsRem (a b : R) : R :=
  let q := a / b in
  let t := if Rltb q 0 then (- Int_part (- q))%Z else Int_part q in
  a - b * IZR t.

Definition Rleb (a b : R) : bool := if Rle_dec a b then true else false.

Record HSL : Type := mkHSL { hue : R; sat : R; lum : R }.

(** Lines 17-27 of [hexToHSL]: the three channels read from the string,
    [None] for NaN.  A string of a length other than 4 and 7 leaves them 0. *)
Definition channels (hex : string) : option Z * option Z * option Z :=
  if (String.length hex =? 4)%nat then
    (parseInt0x (charAt 1 hex ++ charAt 1 hex),
     parseInt0x (charAt 2 hex ++ charAt 2 hex),
     parseInt0x (charAt 3 hex ++ charAt 3 hex))
  else if (String.length hex =? 7)%nat then
    (parseInt0x (charAt 1 hex ++ charAt 2 hex),
     parseInt0x (charAt 3 hex ++ charAt 4 hex),
     parseInt0x (charAt 5 hex ++ charAt 6 hex))
  else (Some 0%Z, Some 0%Z, Some 0%Z).

(** Lines 28-45 of [hexToHSL] on three numeric channels. *)
Definition toHSL (r0 g0 b0 : R) : HSL :=
  let r := r0 / 255 in
  let g := g0 / 255 in
  let b := b0 / 255 in
  let cmin := Rmin r (Rmin g b) in
  let cmax := Rmax r (Rmax g b) in
  let delta := cmax - cmin in
  let h0 :=
    if Reqb delta 0 then 0
    else if Reqb cmax r then jsRem ((g - b) / delta) 6
    else if Reqb cmax g then (b - r) / delta + 2
    else (r - g) / delta + 4 in
  let h1 := IZR (Math_round (h0 * 60)) in
  let h := if Rltb h1 0 then h1 + 360 else h1 in
  let l := (cmax + cmin) / 2 in
  let s := if Reqb delta 0 then 0 else delta / (1 - Rabs (2 * l - 1)) in
  mkHSL h (toFixed1 (s * 100)) (toFixed1 (l * 100)).

(** [hexToHSL] (lines 16-46).  When a channel is NaN every comparison of the
    function fails and all three results are NaN: that outcome is [None]. *)
Definition hexToHSL (hex : string) : option HSL :=
  match channels hex with
  | (Some r, Some g, Some b) => Some (toHSL (IZR r) (IZR g) (IZR b))
  | _ => None
  end.

(** One hexadecimal digit of [Number.prototype.toString(16)]. *)
Definition digitChar (d : Z) : ascii :=
  if (d <? 10)%Z then ascii_of_nat (48 + Z.to_nat d)
  else ascii_of_nat (87 + Z.to_nat d).

(** The digits of a positive integer, most significant first; [fuel] bounds
    their number. *)
Fixpoint hexDigits (fuel : nat) (n : Z) : string :=
  match fuel with
  | O => EmptyString
  | S k =>
      if (n <? 16)%Z then String (digitChar n) EmptyString
      else hexDigits k (n / 16) ++ String (digitChar (n mod 16)) EmptyString
  end.

(** [n.toString(16)] for an integer [n]. *)
Definition toString16 (n : Z) : string :=
  if (n <? 0)%Z then "-" ++ hexDigits (S (Z.to_nat (Z.log2 (- n)))) (- n)
  else hexDigits (S (Z.to_nat (Z.log2 n))) n.

(** [toHex] (lines 66-69). *)
Definition toHex (n : Z) : string :=
  let hex := toString16 n in
  if (String.length hex =? 1)%nat then "0" ++ hex else hex.

(** Lines 50-64 of [hslToHex]: the three channels before they are written
    in hexadecimal. *)
Definition rgbOf (h s0 l0 : R) : Z * Z * Z :=
  let s := s0 / 100 in
  let l := l0 / 100 in
  let c := (1 - Rabs (2 * l - 1)) * s in
  let x := c * (1 - Rabs (jsRem (h / 60) 2 - 1)) in
  let m := l - c / 2 in
  let '(r, g, b) :=
    if Rleb 0 h && Rltb h 60 then (c, x, 0)
    else if Rleb 60 h && Rltb h 120 then (x, c, 0)
    else if Rleb 120 h && Rltb h 180 then (0, c, x)
    else if Rleb 180 h && Rltb h 240 then (0, x, c)
    else if Rleb 240 h && Rltb h 300 then (x, 0, c)
    else if Rleb 300 h && Rltb h 360 then (c, 0, x)
    else (0, 0, 0) in
  (Math_round ((r + m) * 255), Math_round ((g + m) * 255),
   Math_round ((b + m) * 255)).

(** [hslToHex] (lines 49-71). *)
Definition hslToHex (h s l : R) : string :=
  let '(r, g, b) := rgbOf h s l in
  "#" ++ toHex r ++ toHex g ++ toHex b.

(** The keys of a [ColorTheme]. *)
Inductive ColorKey : Type :=
  | KGold | KRed | KGreen | KWhite | KWarmLight | KPolaroidBorder.

(** [customColors[key]]. *)
Definition getColor (key : ColorKey) (t : ColorTheme) : string :=
  match key with
  | KGold => gold t
  | KRed => red t
  | KGreen => green t
  | KWhite => white t
  | KWarmLight => warmLight t
  | KPolaroidBorder => polaroidBorder t
  end.

(** [{ ...customColors, [key]: value }]. *)
Definition setColor (key : ColorKey) (value : string) (t : ColorTheme)
    : ColorTheme :=
  match key with
  | KGold => mkColorTheme value (red t) (green t) (white t) (warmLight t)
               (polaroidBorder t)
  | KRed => mkColorTheme (gold t) value (green t) (white t) (warmLight t)
              (polaroidBorder t)
  | KGreen => mkColorTheme (gold t) (red t) value (white t) (warmLight t)
                (polaroidBorder t)
  | KWhite => mkColorTheme (gold t) (red t) (green t) value (warmLight t)
                (polaroidBorder t)
  | KWarmLight => mkColorTheme (gold t) (red t) (green t) (white t) value
                    (polaroidBorder t)
  | KPolaroidBorder => mkColorTheme (gold t) (red t) (green t) (white t)
                         (warmLight t) value
  end.

(** The slider that moved. *)
Inductive Slider : Type := SliderH | SliderS | SliderL.

(** The state of the panel that the sliders use, and the [customColors]
    prop that [onCustomColorsChange] replaces. *)
Record State : Type := mkState {
  activeColorKey : option ColorKey;
  hslValues : HSL;
  customColors : ColorTheme
}.

(** [handleSliderChange] (lines 94-100). *)
Definition handleSliderChange (type : Slider) (value : R) (st : State) : State :=
  match activeColorKey st with
  | None => st
  | Some key =>
      let old := hslValues st in
      let newHsl :=
        match type with
        | SliderH => mkHSL value (sat old) (lum old)
        | SliderS => mkHSL (hue old) value (lum old)
        | SliderL => mkHSL (hue old) (sat old) value
        end in
      let newHex := hslToHex (hue newHsl) (sat newHsl) (lum newHsl) in
      mkState (Some key) newHsl (setColor key newHex (customColors st))
  end.

End SettingsPanel.

(** ** Snow: the falling particles *)

Module Snow.

(** Line 380. *)
Definition count : nat := 2000.

(** Lines 385-387: the three coordinates of particle [i]. *)
Definition fillOne (i : nat) (s : list R * Rng) : list R * Rng :=
  let (temp, g) := s in
  let (u1, g1) := Math_random g in
  let (u2, g2) := Math_random g1 in
  let (u3, g3) := Math_random g2 in
  (store (i * 3 + 2) ((u3 - 0.5) * 100)
     (store (i * 3 + 1) ((u2 - 0.5) * 100)
        (store (i * 3) ((u1 - 0.5) * 100) temp)),
   g3).

(** The [useMemo] callback of lines 382-390 for [n] particles. *)
Definition fill (n : nat) (g : Rng) : list R * Rng :=
  forLoop n 0 fillOne (repeat 0 (n * 3), g).

Definition particles (g : Rng) : list R := fst (fill count g).

(** Lines 396-404: particle [i] falls and, below -50, starts again from the
    top at a new place. *)
Definition fallOne (delta : R) (i : nat) (s : list R * Rng) : list R * Rng :=
  let (positions, g) := s in
  let (u, g1) := Math_random g in
  let positions1 :=
    store (i * 3 + 1)
      (nth (i * 3 + 1) positions 0 - delta * 5 * (u * 0.5 + 0.5)) positions in
  if Rltb (nth (i * 3 + 1) positions1 0) (-50) then
    let positions2 := store (i * 3 + 1) 50 positions1 in
    let (u1, g2) := Math_random g1 in
    let positions3 := store (i * 3) ((u1 - 0.5) * 100) positions2 in
    let (u2, g3) := Math_random g2 in
    (store (i * 3 + 2) ((u2 - 0.5) * 100) positions3, g3)
  else (positions1, g1).

(** The [THREE.Points] the frame edits: the position attribute and the
    rotation about y. *)
Record Points : Type := mkPoints { positions : list R; rotationY : R }.

(** The [useFrame] callback of lines 392-409 over [n] particles. *)
Definition frame (n : nat) (delta : R) (mesh : option Points) (g : Rng)
    : option Points * Rng :=
  match mesh with
  | None => (None, g)
  | Some pts =>
      let (positions', g') := forLoop n 0 (fallOne delta) (positions pts, g) in
      (Some (mkPoints positions' (rotationY pts + delta * 0.05)), g')
  end.

Definition useFrame (delta : R) (mesh : option Points) (g : Rng)
    : option Points * Rng :=
  frame count delta mesh g.

(** One frame per delta of the list, first delta first. *)
Fixpoint frames (n : nat) (deltas : list R) (mesh : option Points) (g : Rng)
    : option Points * Rng :=
  match deltas with
  | [] => (mesh, g)
  | d :: rest => let (mesh', g') := frame n d mesh g in frames n rest mesh' g'
  end.

End Snow.

(** ** TopStar *)

Module TopStar.

(** The group the frame edits: its rotation about y and its scale. *)
Record Group : Type := mkGroup { rotationY : R; groupScale : Vector3 }.

(** The [useFrame] callback, lines 444-454. *)
Definition useFrame (state : SceneMode) (hovered : bool) (delta : R)
    (groupRef : option Group) : option Group :=
  match groupRef with
  | None => None
  | Some grp =>
      let targetScale := if SceneMode_eqb state FORMED then 1 else 0 in
      let hoverScale :=
        if hovered && SceneMode_eqb state FORMED then 1.2 else 1 in
      let finalScale := targetScale * hoverScale in
      Some (mkGroup (rotationY grp + delta * 0.5)
              (ThreeMath.lerp (groupScale grp)
                 (mkVector3 finalScale finalScale finalScale) (delta * 3)))
  end.

(** A frame as the scene sees it: the mode and the hover flag of that frame
    and its delta. *)
Record Tick : Type := mkTick { tickState : SceneMode; tickHovered : bool; tickDelta : R }.

Fixpoint frames (ticks : list Tick) (groupRef : option Group) : option Group :=
  match ticks with
  | [] => groupRef
  | t :: rest =>
      frames rest (useFrame (tickState t) (tickHovered t) (tickDelta t) groupRef)
  end.

(** [onClick] (lines 460-463) with [onToggleSnow] bound to
    [setIsSnowing(prev => !prev)] (line 810): the new snow flag. *)
Definition onClick (state : SceneMode) (isSnowing : bool) : bool :=
  if SceneMode_eqb state FORMED then negb isSnowing else isSnowing.

(** [onPointerOver] (line 464) and [onPointerOut] (line 465): the new
    [hovered]. *)
Definition onPointerOver (state : SceneMode) (hovered : bool) : bool :=
  if SceneMode_eqb state FORMED then true else hovered.

Definition onPointerOut (hovered : bool) : bool := false.

End TopStar.

(** ** Frames in sequence *)

Module Frames.

(** A frame of the lights: the scene mode, the clock and the delta. *)
Record Tick : Type := mkTick { tickState : SceneMode; tickTime : R; tickDelta : R }.

(** [FairyLights.useFrame] once per tick, first tick first. *)
Fixpoint lights (ticks : list Tick) (children : option (list FairyLights.Mesh))
    (data : list FairyLights.Datum)
    : option (list FairyLights.Mesh) * list FairyLights.Datum :=
  match ticks with
  | [] => (children, data)
  | t :: rest =>
      let (children', data') :=
        FairyLights.useFrame (tickState t) (tickTime t) (tickDelta t)
          children data in
      lights rest children' data'
  end.

Section Photos.

Variable lookAt : Object3D -> Vector3 -> Euler.

(** [PhotoOrnaments.useFrame] once per tick, first tick first. *)
Fixpoint photos (ticks : list Tick) (children : option (list Object3D))
    (data : list PhotoOrnaments.Datum)
    : option (list Object3D) * list PhotoOrnaments.Datum :=
  match ticks with
  | [] => (children, data)
  | t :: rest =>
      let (children', data') :=
        PhotoOrnaments.useFrame lookAt (tickState t) (tickTime t) (tickDelta t)
          children data in
      photos rest children' data'
  end.

End Photos.

End Frames.

(** ** The rest of GrandTreeApp *)

Module AppShell.

(** Line 527: the [autoRotate] prop of the orbit controls. *)
Definition autoRotate (cameraSpeed : Experience.Speed) (sceneState : SceneMode)
    : bool :=
  Reqb (Experience.sx cameraSpeed) 0 && Reqb (Experience.sy cameraSpeed) 0
  && SceneMode_eqb sceneState FORMED.

(** The Assemble / Disperse button (line 1001 of the component):
    [setSceneState(s => s === 'CHAOS' ? 'FORMED' : 'CHAOS')]. *)
Definition toggleScene (s : SceneMode) : SceneMode :=
  if SceneMode_eqb s CHAOS then FORMED else CHAOS.

(** The four presets of [ColorThemes.ts]. *)
Inductive ThemePreset : Type := Traditional | Nordic | RoseGold | DarkNight.

Definition COLOR_THEMES (p : ThemePreset) : ColorTheme :=
  match p with
  | Traditional =>
      mkColorTheme "#FFD700" "#8B0000" "#004225" "#F8F8FF" "#FFD54F" "#FDFBF7"
  | Nordic =>
      mkColorTheme "#E8E8E8" "#A0A0A0" "#B8B8B8" "#FFFFFF" "#D4D4D4" "#F0F0F0"
  | RoseGold =>
      mkColorTheme "#E0BFB8" "#C97064" "#9B8B7E" "#FFF5F0" "#FFCBA4" "#FFF0E6"
  | DarkNight =>
      mkColorTheme "#FFD700" "#1A0F0F" "#0D1B0D" "#2A2A2A" "#4A4A00" "#1F1F1F"
  end.

(** The [useMemo] of lines 765-773; [None] is the selection ['custom']. *)
Definition config (selectedTheme : option ThemePreset)
    (customColors : ColorTheme) : ConfigType :=
  let themeColors :=
    match selectedTheme with
    | None => customColors
    | Some p => COLOR_THEMES p
    end in
  mkConfig
    (mkColorTheme (gold themeColors) (red themeColors) (green themeColors)
       (white themeColors) (warmLight themeColors) "#FDFBF7")
    (mkCounts 500 50 200) (mkTree 28 12) [].

(** The photo list, the open photo card and the memos; [memos] holds the
    own properties of the object, latest write first. *)
Record State : Type := mkState {
  photos : list string;
  selectedPhotoIndex : option nat;
  memos : list (nat * string)
}.

(** [memos[i]]: the value of property [i], [None] for [undefined]. *)
Fixpoint memoAt (i : nat) (m : list (nat * string)) : option string :=
  match m with
  | [] => None
  | (k, v) :: rest => if (k =? i)%nat then Some v else memoAt i rest
  end.

(** [handleUpload] (lines 775-789); [urls] are the object URLs made for the
    chosen files, in order. *)
Definition handleUpload (urls : list string) (s : State) : State :=
  match urls with
  | [] => s
  | _ :: _ => mkState (photos s ++ urls) (selectedPhotoIndex s) (memos s)
  end.

(** [handleMemoChange] (lines 791-795); [value] is the text of the area. *)
Definition handleMemoChange (value : string) (s : State) : State :=
  match selectedPhotoIndex s with
  | Some i => mkState (photos s) (Some i) ((i, value) :: memos s)
  | None => s
  end.

(** [onPhotoClick] is [setSelectedPhotoIndex] (line 807). *)
Definition onPhotoClick (i : nat) (s : State) : State :=
  mkState (photos s) (Some i) (memos s).

(** The card of the open photo: the image source [photos[selectedPhotoIndex]]
    ([None] when there is no such photo), the text
    [memos[selectedPhotoIndex] || ''] and whether the label reads Saved. *)
Definition card (s : State) : option (option string * string * bool) :=
  match selectedPhotoIndex s with
  | None => None
  | Some i =>
      let memo := memoAt i (memos s) in
      Some (nth_error (photos s) i,
            match memo with Some v => v | None => EmptyString end,
            match memo with
            | Some v => negb (String.eqb v EmptyString)
            | None => false
            end)
  end.

End AppShell.

(** ** Sample inputs *)

(** [COLOR_THEMES.traditional] of [ColorThemes.ts]. *)
Definition traditional : ColorTheme :=
  mkColorTheme "#FFD700" "#8B0000" "#004225" "#F8F8FF" "#FFD54F" "#FDFBF7".

(** A colour parser that reads every string as black; the placement does not
    look at colours. *)
Definition blackParser (hex : string) : OrnamentTree.Color :=
  OrnamentTree.mkColor 0 0 0.

(** A random source that returns 0 four times and 0.5 from then on. *)
Definition stepDraws (n : nat) : R := if (n <? 4)%nat then 0 else 0.5.

(** A random source that returns 0 seven times and 0.5 from then on: the
    first candidate of the second sphere repeats the first sphere. *)
Definition retryDraws (n : nat) : R := if (n <? 7)%nat then 0 else 0.5.

(** The configuration of the application with two foliage spheres only. *)
Definition twoSpheres : ConfigType :=
  mkConfig traditional (mkCounts 2 50 200) (mkTree 28 12) [].

(** The draws of a random source lie in [[0, 1)], as those of
    [Math.random()] do. *)
Definition unitDraws (g : Rng) : Prop := forall n, 0 <= draws g n < 1.

(** Candidate number [k] of a foliage search that starts at the random
    source [g] (line 73): every attempt takes three draws. *)
Definition foliageCandidateAt (h r : R) (g : Rng) (k : nat) : Point :=
  fst (getTreePosition h r (mkRng (draws g) (cursor g + 3 * k))).

(** The draw that picks the colour of foliage sphere [k] (line 105): the
    one that follows the draws of its search. *)
Definition colourDraw (parseColor : string -> OrnamentTree.Color)
    (config : ConfigType) (spherePoints : list R) (g : Rng) (k : nat) : R :=
  draws g
    (cursor (OrnamentTree.rng
               (OrnamentTree.afterIterations parseColor config spherePoints g k))
     + 3 * OrnamentTree.attempts
             (OrnamentTree.searchOf parseColor config spherePoints g k)).

(** The palette entry a draw picks (line 105). *)
Definition pickColour (parseColor : string -> OrnamentTree.Color)
    (config : ConfigType) (u : R) : OrnamentTree.Color :=
  nth (Math_floor (u * INR (length (OrnamentTree.colorPalette parseColor config))))
      (OrnamentTree.colorPalette parseColor config)
      (OrnamentTree.mkColor 0 0 0).

(** The photo data after the first [k] ornaments were generated. *)
Definition photosAfter (config : ConfigType) (textures : list string)
    (g : Rng) (k : nat) : PhotoOrnaments.Gen :=
  forLoop k 0 (PhotoOrnaments.generateOne config textures)
    (PhotoOrnaments.mkGen [] [] g).

(** The candidate one attempt of the photo search generates (lines 194-215):
    two draws, the height then the azimuth. *)
Definition photoCandidate (h rBase : R) : Rand Vector3 :=
  (let minY := (- h) / 2.2 in
   let maxY := h / 3 in
   u1 <- Math_random ;;
   let y := minY + (maxY - minY) * Math_pow u1 1.5 in
   let normalizedY := (y + h / 2) / h in
   let currentRadius := rBase * (1 - normalizedY) in
   let r := currentRadius + 0.5 in
   u2 <- Math_random ;;
   let theta := u2 * PI * 2 in
   ret (mkVector3 (r * cos theta) y (r * sin theta)))%rand.

(** Candidate number [k] of a search that starts at the random source [g]. *)
Definition photoCandidateAt (h rBase : R) (g : Rng) (k : nat) : Vector3 :=
  fst (photoCandidate h rBase (mkRng (draws g) (cursor g + 2 * k))).

(** A point on the cone pushed out by 0.5, within the band of heights the
    photos use. *)
Definition onPhotoSurface (h rBase : R) (p : Vector3) : Prop :=
  (- h) / 2.2 <= vy p <= h / 3 /\
  vx p * vx p + vz p * vz p
  = (rBase * (1 - (vy p + h / 2) / h) + 0.5)
    * (rBase * (1 - (vy p + h / 2) / h) + 0.5).

(** How the search of one photo ended, given the photos [placed] before it
    and the random source [gA] its first attempt started from: [t] is the
    first of the twenty candidates whose closest placed photo is farther
    than [minDistance], or no candidate is that far and [t] is the first of
    those whose closest placed photo is farthest. *)
Definition photoSearchOutcome (h rBase : R) (placed : list Vector3)
    (gA : Rng) (t : Vector3) : Prop :=
  let clear := fun k =>
    PhotoOrnaments.closest (photoCandidateAt h rBase gA k) placed in
  (exists j, (j < 20)%nat /\ t = photoCandidateAt h rBase gA j /\
             clear j > PhotoOrnaments.minDistance /\
             forall i, (i < j)%nat -> clear i <= PhotoOrnaments.minDistance)
  \/
  (exists j, (j < 20)%nat /\ t = photoCandidateAt h rBase gA j /\
             (forall i, (i < 20)%nat ->
                clear i <= PhotoOrnaments.minDistance /\ clear i <= clear j) /\
             forall i, (i < j)%nat -> clear i < clear j).

(** The random source the search of ornament [i] starts from: the one the
    ornaments before it left, after the three draws of its chaos position
    (line 185). *)
Definition photoSearchStart (config : ConfigType) (textures : list string)
    (g : Rng) (i : nat) : Rng :=
  let g0 := PhotoOrnaments.rng (photosAfter config textures g i) in
  mkRng (draws g0) (3 + cursor g0).

(** What the generation fixes for ornament [i], given the photos placed
    before it and the random source [g0] they left: its texture, its start
    at its chaos position inside the cube of side 50, and a target found by
    the search that starts three draws after [g0]. *)
Definition photoDatumOk (config : ConfigType) (textures : list string)
    (g : Rng) (i : nat) (d : PhotoOrnaments.Datum) (placed : list Vector3)
    (g0 : Rng) : Prop :=
  PhotoOrnaments.textureIndex d = (i mod length textures)%nat /\
  PhotoOrnaments.currentPos d = PhotoOrnaments.chaosPos d /\
  PhotoOrnaments.dataScale d = 2 /\
  (unitDraws g ->
   - 25 <= vx (PhotoOrnaments.chaosPos d) < 25 /\
   - 25 <= vy (PhotoOrnaments.chaosPos d) < 25 /\
   - 25 <= vz (PhotoOrnaments.chaosPos d) < 25) /\
  (0 < height (tree config) -> 0 <= radius (tree config) -> unitDraws g ->
   draws g0 = draws g /\
   photoSearchOutcome (height (tree config)) (radius (tree config))
     placed (mkRng (draws g0) (3 + cursor g0)) (PhotoOrnaments.targetPos d)).

(** * Properties *)

(** ** Arrays and loops *)

Lemma store_length {A : Type} (i : nat) (v : A) (a : list A) :
  length (store i v a) = length a.
Proof.
  revert i; induction a as [|h t IH]; intros [|j]; simpl; auto.
Qed.

Lemma nth_store_same {A : Type} (i : nat) (v d : A) (a : list A) :
  (i < length a)%nat -> nth i (store i v a) d = v.
Proof.
  revert i; induction a as [|h t IH]; intros [|j] H; simpl in *; try lia; auto.
  apply IH; lia.
Qed.

Lemma nth_store_other {A : Type} (i j : nat) (v d : A) (a : list A) :
  i <> j -> nth j (store i v a) d = nth j a d.
Proof.
  revert i j; induction a as [|h t IH]; intros [|i] [|j] H; simpl; auto.
  - contradiction.
Qed.

Lemma forLoop_snoc {St : Type} (n lo : nat) (body : nat -> St -> St) (s : St) :
  forLoop (S n) lo body s = body (lo + n)%nat (forLoop n lo body s).
Proof.
  revert lo s; induction n as [|k IH]; intros lo s.
  - simpl. now rewrite Nat.add_0_r.
  - change (forLoop (S (S k)) lo body s)
      with (forLoop (S k) (S lo) body (body lo s)).
    rewrite IH. simpl. now rewrite Nat.add_succ_r.
Qed.

(** A property that every iteration keeps holds after the loop. *)
Lemma forLoop_invariant {St : Type} (P : nat -> St -> Prop) (n lo : nat)
    (body : nat -> St -> St) (s : St) :
  P O s ->
  (forall k t, (k < n)%nat -> P k t -> P (S k) (body (lo + k)%nat t)) ->
  P n (forLoop n lo body s).
Proof.
  intros H0 Hstep. induction n as [|k IH].
  - exact H0.
  - rewrite forLoop_snoc. apply Hstep; [lia|]. apply IH.
    intros j t Hj. apply Hstep. lia.
Qed.

Lemma Rltb_true (a b : R) : Rltb a b = true <-> a < b.
Proof. unfold Rltb. destruct (Rlt_dec a b); split; intros; try discriminate; tauto. Qed.

Lemma Rltb_false (a b : R) : Rltb a b = false <-> b <= a.
Proof.
  unfold Rltb. destruct (Rlt_dec a b); split; intros; try discriminate; try lra; auto.
Qed.

Lemma Rgtb_true (a b : R) : Rgtb a b = true <-> a > b.
Proof. unfold Rgtb. rewrite Rltb_true. lra. Qed.

Lemma Rgtb_false (a b : R) : Rgtb a b = false <-> a <= b.
Proof. unfold Rgtb. rewrite Rltb_false. lra. Qed.

(** Each child that has a data entry gets the callback, with its index. *)
Lemma forEachChild_nth {C D : Type} (body : nat -> D -> C -> D * C)
    (children : list C) (data : list D) (k i : nat) (c : C) (d : D) :
  nth_error children i = Some c ->
  nth_error data i = Some d ->
  nth_error (fst (forEachChild body k children data)) i
    = Some (snd (body (k + i)%nat d c)) /\
  nth_error (snd (forEachChild body k children data)) i
    = Some (fst (body (k + i)%nat d c)).
Proof.
  revert data k i.
  induction children as [|c0 cs IH]; intros [|d0 ds] k i Hc Hd;
    try (destruct i; discriminate).
  simpl. destruct (body k d0 c0) as [d' c'] eqn:Hb.
  destruct (forEachChild body (S k) cs ds) as [cs' ds'] eqn:Hrest.
  destruct i as [|i]; simpl in *.
  - injection Hc as <-. injection Hd as <-.
    rewrite Nat.add_0_r, Hb. auto.
  - specialize (IH ds (S k) i Hc Hd). rewrite Hrest in IH. simpl in IH.
    now rewrite Nat.add_succ_r.
Qed.

(** The walk keeps the number of children and of data entries. *)
Lemma forEachChild_length {C D : Type} (body : nat -> D -> C -> D * C)
    (children : list C) (data : list D) (k : nat) :
  length (fst (forEachChild body k children data)) = length children /\
  length (snd (forEachChild body k children data)) = length data.
Proof.
  revert data k.
  induction children as [|c0 cs IH]; intros [|d0 ds] k; simpl; auto.
  destruct (body k d0 c0) as [d' c'].
  specialize (IH ds (S k)).
  destruct (forEachChild body (S k) cs ds) as [cs' ds']. simpl in *.
  destruct IH as [-> ->]. auto.
Qed.

(** ** The per-frame loops *)

(** A loop that rewrites slot [i] from slot [i] rewrites each of the first
    [n] slots once and leaves the others. *)
Lemma forLoop_store_nth {A : Type} (f : nat -> A -> A) (dflt : A)
    (n : nat) (a : list A) :
  let out := forLoop n 0 (fun i inst => store i (f i (nth i inst dflt)) inst) a in
  length out = length a /\
  (forall j, (j < n)%nat -> (j < length a)%nat ->
             nth j out dflt = f j (nth j a dflt)) /\
  (forall j, (n <= j)%nat -> nth j out dflt = nth j a dflt).
Proof.
  induction n as [|k IH]; intros out.
  - subst out; simpl. repeat split; auto. intros; lia.
  - subst out. rewrite forLoop_snoc. simpl in *.
    destruct IH as (Hlen & Hlow & Hhigh).
    set (prev := forLoop k 0 _ a) in *.
    repeat split.
    + now rewrite store_length.
    + intros j Hj Hja. destruct (Nat.eq_dec j k) as [->|Hne].
      * rewrite nth_store_same by lia. now rewrite Hhigh by lia.
      * rewrite nth_store_other by congruence. apply Hlow; lia.
    + intros j Hj. rewrite nth_store_other by lia. apply Hhigh; lia.
Qed.

(** A factor in [[0, 1]] keeps [Vector3.lerp] on the segment. *)
Lemma lerp_onSegment (p v : Vector3) (alpha : R) :
  0 <= alpha <= 1 -> onSegment (ThreeMath.lerp p v alpha) p v.
Proof.
  intros H. exists alpha. split; [exact H|].
  unfold ThreeMath.lerp; simpl. repeat split; ring.
Qed.

(** Foliage sphere [i] moves towards its entry of [targets] in FORMED and of
    [randoms] in CHAOS (lines 123-132). *)
Lemma frameInstance_position (state : SceneMode) (targets randoms : list R)
    (time delta : R) (i : nat) (d : Object3D) :
  position (OrnamentTree.frameInstance state targets randoms time delta i d)
  = ThreeMath.lerp (position d)
      (OrnamentTree.vectorAt
         (if SceneMode_eqb state FORMED then targets else randoms) i)
      (delta * 2).
Proof.
  unfold OrnamentTree.frameInstance, OrnamentTree.vectorAt.
  destruct (SceneMode_eqb state FORMED); simpl; f_equal; lra.
Qed.

(** C1 (as amended).  The per-frame position update of every category is
    [currentPosition <- lerp(currentPosition, target, delta * rate)] with the
    factor used as it is (no clamp), [rate] being 2.0 for foliage and photo
    ornaments and 2.5 for fairy lights; whenever [0 <= delta * rate <= 1]
    the updated position lies on the segment between the old position and
    the target. *)
Theorem position_update_unclamped
    (state : SceneMode) (time delta : R) (i : nat) (Hdelta : 0 <= delta) :
  (* foliage *)
  (forall (count : nat) (targets randoms : list R) (instances : list Object3D),
     (i < count)%nat -> (count <= length instances)%nat ->
     exists instances',
       OrnamentTree.useFrame state count targets randoms time delta
         (Some instances) = Some instances' /\
       let old := position (nth i instances OrnamentTree.identity) in
       let target :=
         OrnamentTree.vectorAt
           (if SceneMode_eqb state FORMED then targets else randoms) i in
       let new := position (nth i instances' OrnamentTree.identity) in
       new = ThreeMath.lerp old target (delta * 2.0) /\
       (delta * 2.0 <= 1 -> onSegment new old target)) /\
  (* photo ornaments *)
  (forall (lookAt : Object3D -> Vector3 -> Euler)
          (children : list Object3D) (data : list PhotoOrnaments.Datum)
          (group : Object3D) (objData : PhotoOrnaments.Datum),
     nth_error children i = Some group -> nth_error data i = Some objData ->
     exists children' data' group' objData',
       PhotoOrnaments.useFrame lookAt state time delta (Some children) data
         = (Some children', data') /\
       nth_error children' i = Some group' /\
       nth_error data' i = Some objData' /\
       let old := PhotoOrnaments.currentPos objData in
       let target := if SceneMode_eqb state FORMED
                     then PhotoOrnaments.targetPos objData
                     else PhotoOrnaments.chaosPos objData in
       let new := PhotoOrnaments.currentPos objData' in
       new = ThreeMath.lerp old target (delta * 2.0) /\
       position group' = new /\
       (delta * 2.0 <= 1 -> onSegment new old target)) /\
  (* fairy lights *)
  (forall (children : list FairyLights.Mesh) (data : list FairyLights.Datum)
          (mesh : FairyLights.Mesh) (objData : FairyLights.Datum),
     nth_error children i = Some mesh -> nth_error data i = Some objData ->
     exists children' data' mesh' objData',
       FairyLights.useFrame state time delta (Some children) data
         = (Some children', data') /\
       nth_error children' i = Some mesh' /\
       nth_error data' i = Some objData' /\
       let old := FairyLights.currentPos objData in
       let target := if SceneMode_eqb state FORMED
                     then FairyLights.targetPos objData
                     else FairyLights.chaosPos objData in
       let new := FairyLights.currentPos objData' in
       new = ThreeMath.lerp old target (delta * 2.5) /\
       FairyLights.meshPosition mesh' = new /\
       (delta * 2.5 <= 1 -> onSegment new old target)).
Proof.
  split; [|split].
  - intros count targets randoms instances Hi Hlen.
    eexists; split; [reflexivity|].
    destruct (forLoop_store_nth
                (OrnamentTree.frameInstance state targets randoms time delta)
                OrnamentTree.identity count instances) as (_ & Hlow & _).
    rewrite (Hlow i Hi) by lia.
    rewrite frameInstance_position.
    replace (delta * 2.0) with (delta * 2) by lra.
    split; [reflexivity|]. intros Hle. apply lerp_onSegment. lra.
  - intros lookAt children data group objData Hc Hd.
    unfold PhotoOrnaments.useFrame.
    destruct (forEachChild_nth
                (PhotoOrnaments.frameChild lookAt state time delta)
                children data 0 i group objData Hc Hd) as [Hc' Hd'].
    destruct (forEachChild _ 0%nat children data) as [cs' ds'].
    simpl in Hc', Hd'.
    do 4 eexists. split; [reflexivity|]. split; [exact Hc'|]. split; [exact Hd'|].
    unfold PhotoOrnaments.frameChild; simpl.
    split; [reflexivity|]. split.
    + destruct (SceneMode_eqb state FORMED); reflexivity.
    + intros Hle. apply lerp_onSegment. lra.
  - intros children data mesh objData Hc Hd.
    unfold FairyLights.useFrame.
    destruct (forEachChild_nth
                (FairyLights.frameChild state time delta)
                children data 0 i mesh objData Hc Hd) as [Hc' Hd'].
    destruct (forEachChild _ 0%nat children data) as [cs' ds'].
    simpl in Hc', Hd'.
    do 4 eexists. split; [reflexivity|]. split; [exact Hc'|]. split; [exact Hd'|].
    unfold FairyLights.frameChild; simpl.
    split; [reflexivity|]. split; [reflexivity|].
    intros Hle. apply lerp_onSegment. lra.
Qed.

Lemma position_update_unclamped_witness :
  0 <= / 4 /\
  exists instances',
    OrnamentTree.useFrame FORMED 1 [1; 0; 0] [0; 0; 0] 0 (/ 4)
      (Some [OrnamentTree.identity]) = Some instances' /\
    onSegment (position (nth 0 instances' OrnamentTree.identity))
      (mkVector3 0 0 0) (mkVector3 1 0 0).
Proof.
  assert (H : 0 <= / 4) by lra.
  split; [exact H|].
  destruct (position_update_unclamped FORMED 0 (/ 4) 0 H) as (Hfoliage & _).
  destruct (Hfoliage 1%nat [1; 0; 0] [0; 0; 0] [OrnamentTree.identity])
    as (instances' & Hrun & _ & Hseg).
  - apply Nat.lt_0_1.
  - apply Nat.le_refl.
  - exists instances'. split; [exact Hrun|]. apply Hseg. lra.
Defined.

(** C1 as stated fails: the factor is not clamped.  After a frame of one
    second a foliage sphere at the origin whose target is (1, 0, 0) is moved
    to (2, 0, 0), which is neither the clamped interpolation nor a point of
    the segment from the old position to the target. *)
Lemma position_update_clamped_counterexample :
  0 <= 1 /\
  position (OrnamentTree.frameInstance FORMED [1; 0; 0] [0; 0; 0] 0 1 0
              OrnamentTree.identity) = mkVector3 2 0 0 /\
  position (OrnamentTree.frameInstance FORMED [1; 0; 0] [0; 0; 0] 0 1 0
              OrnamentTree.identity)
    <> ThreeMath.lerp (mkVector3 0 0 0) (mkVector3 1 0 0)
         (ThreeMath.clamp (1 * 2.0) 0 1) /\
  ~ onSegment
      (position (OrnamentTree.frameInstance FORMED [1; 0; 0] [0; 0; 0] 0 1 0
                   OrnamentTree.identity))
      (mkVector3 0 0 0) (mkVector3 1 0 0).
Proof.
  split; [lra|].
  assert (Hpos : position (OrnamentTree.frameInstance FORMED [1; 0; 0] [0; 0; 0]
                             0 1 0 OrnamentTree.identity) = mkVector3 2 0 0).
  { unfold OrnamentTree.frameInstance, ThreeMath.lerp; simpl. f_equal; lra. }
  rewrite Hpos. split; [reflexivity|]. split.
  - unfold ThreeMath.lerp, ThreeMath.clamp; simpl. intros Heq.
    apply (f_equal vx) in Heq. simpl in Heq.
    assert (Hc : Rmax 0 (Rmin 1 (1 * 2.0)) = 1).
    { rewrite Rmin_left by lra. apply Rmax_right. lra. }
    rewrite Hc in Heq. lra.
  - intros (t & Ht & Hx & _). simpl in Hx. lra.
Qed.



(** ** Fairy light brightness *)

(** C10.  On every frame a fairy light that has a material gets the emissive
    intensity 0 in CHAOS mode and [2 + 3 * (sin(t * speed + offset) + 1) / 2]
    in FORMED mode; the FORMED value lies in [[2, 5]], so it is never 0. *)
Theorem fairy_light_intensity
    (state : SceneMode) (time delta : R) (i : nat)
    (children : list FairyLights.Mesh) (data : list FairyLights.Datum)
    (mesh : FairyLights.Mesh) (objData : FairyLights.Datum) (e : R) :
  nth_error children i = Some mesh ->
  nth_error data i = Some objData ->
  FairyLights.material mesh = Some e ->
  exists children' data' mesh' v,
    FairyLights.useFrame state time delta (Some children) data
      = (Some children', data') /\
    nth_error children' i = Some mesh' /\
    FairyLights.material mesh' = Some v /\
    (state = CHAOS -> v = 0) /\
    (state = FORMED ->
       v = 2 + 3 * ((sin (time * FairyLights.speed objData
                          + FairyLights.timeOffset objData) + 1) / 2)
       /\ 2 <= v <= 5 /\ v <> 0).
Proof.
  intros Hc Hd Hm.
  unfold FairyLights.useFrame.
  destruct (forEachChild_nth (FairyLights.frameChild state time delta)
              children data 0 i mesh objData Hc Hd) as [Hc' _].
  destruct (forEachChild _ 0%nat children data) as [cs' ds'].
  simpl in Hc'.
  do 4 eexists. split; [reflexivity|]. split; [exact Hc'|].
  unfold FairyLights.frameChild; simpl. rewrite Hm.
  split; [reflexivity|].
  unfold FairyLights.emissive, FairyLights.intensity.
  split; intros ->; simpl.
  - reflexivity.
  - pose proof (SIN_bound (time * FairyLights.speed objData
                           + FairyLights.timeOffset objData)) as [Hlo Hhi].
    repeat split; lra.
Qed.

Lemma fairy_light_intensity_witness :
  exists children' data' mesh' v,
    FairyLights.useFrame FORMED 0 (/ 60)
      (Some [FairyLights.mkMesh (mkVector3 0 0 0) (Some 0)])
      [FairyLights.mkDatum (mkVector3 9 9 9) (mkVector3 1 2 3) 1
         (mkVector3 9 9 9) 0]
      = (Some children', data') /\
    nth_error children' 0 = Some mesh' /\
    FairyLights.material mesh' = Some v /\
    2 <= v <= 5.
Proof.
  destruct (fairy_light_intensity FORMED 0 (/ 60) 0
              [FairyLights.mkMesh (mkVector3 0 0 0) (Some 0)]
              [FairyLights.mkDatum (mkVector3 9 9 9) (mkVector3 1 2 3) 1
                 (mkVector3 9 9 9) 0]
              (FairyLights.mkMesh (mkVector3 0 0 0) (Some 0))
              (FairyLights.mkDatum (mkVector3 9 9 9) (mkVector3 1 2 3) 1
                 (mkVector3 9 9 9) 0)
              0 eq_refl eq_refl eq_refl)
    as (children' & data' & mesh' & v & Hrun & Hnth & Hmat & _ & Hformed).
  exists children', data', mesh', v.
  destruct (Hformed eq_refl) as (_ & Hrange & _).
  repeat split; try assumption; apply Hrange.
Defined.

(** ** Camera polar angle *)

(** The guard of line 507, read as a proposition. *)
Lemma polar_guard (p : R) :
  Rgtb p 0.1 && Rltb p (PI - 0.1) = true <-> Experience.polarInRange p.
Proof.
  unfold Experience.polarInRange.
  rewrite andb_true_iff, Rgtb_true, Rltb_true. lra.
Qed.

(** C6.  One frame writes the candidate [polar + signal.y] only when it lies
    strictly inside (0.1, PI - 0.1) and otherwise keeps the old polar angle
    (the update is dropped, not clamped); so, the orbit library's own
    [update] keeping an angle of that interval inside it, after any sequence
    of frames that starts from a polar angle in (0.1, PI - 0.1) the polar
    angle is still in (0.1, PI - 0.1). *)
Theorem polar_angle_stays_in_range
    (update : Experience.Controls -> Experience.Controls)
    (Hupdate : forall c, Experience.polarInRange (Experience.polar c) ->
                         Experience.polarInRange (Experience.polar (update c))) :
  (forall (s : Experience.Speed) (c : Experience.Controls),
     (Experience.polarInRange (Experience.polar c + Experience.sy s) ->
      Experience.useFrame update s (Some c)
      = Some (update (Experience.mkControls
                        (Experience.azimuthal c + Experience.sx s)
                        (Experience.polar c + Experience.sy s)))) /\
     (~ Experience.polarInRange (Experience.polar c + Experience.sy s) ->
      Experience.useFrame update s (Some c)
      = Some (update (Experience.mkControls
                        (Experience.azimuthal c + Experience.sx s)
                        (Experience.polar c))))) /\
  (forall (signals : list Experience.Speed) (c : Experience.Controls),
     Experience.polarInRange (Experience.polar c) ->
     exists c', Experience.frames update signals (Some c) = Some c' /\
                Experience.polarInRange (Experience.polar c')).
Proof.
  assert (Hstep : forall s c,
    (Experience.polarInRange (Experience.polar c + Experience.sy s) ->
      Experience.useFrame update s (Some c)
      = Some (update (Experience.mkControls
                        (Experience.azimuthal c + Experience.sx s)
                        (Experience.polar c + Experience.sy s)))) /\
    (~ Experience.polarInRange (Experience.polar c + Experience.sy s) ->
      Experience.useFrame update s (Some c)
      = Some (update (Experience.mkControls
                        (Experience.azimuthal c + Experience.sx s)
                        (Experience.polar c))))).
  { intros s c. unfold Experience.useFrame. simpl.
    destruct (Rgtb (Experience.polar c + Experience.sy s) 0.1
              && Rltb (Experience.polar c + Experience.sy s) (PI - 0.1)) eqn:G.
    - apply polar_guard in G. split; [reflexivity | contradiction].
    - split; [|reflexivity]. intros Hin. apply polar_guard in Hin. congruence. }
  split; [exact Hstep|].
  induction signals as [|s rest IH]; intros c Hc.
  - exists c. split; [reflexivity | exact Hc].
  - change (Experience.frames update (s :: rest) (Some c))
      with (Experience.frames update rest (Experience.useFrame update s (Some c))).
    destruct (Hstep s c) as [Hin Hout].
    destruct (Rlt_dec 0.1 (Experience.polar c + Experience.sy s)) as [Hl|Hl];
      [destruct (Rlt_dec (Experience.polar c + Experience.sy s) (PI - 0.1)) as [Hr|Hr]|].
    + rewrite Hin by (split; assumption). apply IH. apply Hupdate. simpl. split; assumption.
    + rewrite Hout by (unfold Experience.polarInRange; lra).
      apply IH. apply Hupdate. exact Hc.
    + rewrite Hout by (unfold Experience.polarInRange; lra).
      apply IH. apply Hupdate. exact Hc.
Qed.

Lemma PI_above_3 : 3 < PI.
Proof. pose proof PI2_3_2. lra. Qed.

(** The clamp the orbit library applies keeps an angle of (0.1, PI - 0.1)
    inside that interval. *)
Lemma orbitUpdate_keeps_range (c : Experience.Controls) :
  Experience.polarInRange (Experience.polar c) ->
  Experience.polarInRange (Experience.polar (Experience.orbitUpdate c)).
Proof.
  unfold Experience.polarInRange, Experience.orbitUpdate; simpl.
  pose proof PI_above_3. pose proof PI_4. intros [Hlo Hhi].
  unfold Rmax, Rmin.
  destruct (Rle_dec (PI / 1.8) (Experience.polar c));
    match goal with |- context [Rle_dec ?a ?b] => destruct (Rle_dec a b) end;
    lra.
Qed.

Lemma polar_angle_stays_in_range_witness :
  Experience.polarInRange (Experience.polar (Experience.mkControls 0 1)) /\
  exists c',
    Experience.frames Experience.orbitUpdate
      [Experience.mkSpeed 0.01 1; Experience.mkSpeed 0 5;
       Experience.mkSpeed 0 (-0.5)]
      (Some (Experience.mkControls 0 1)) = Some c' /\
    Experience.polarInRange (Experience.polar c').
Proof.
  assert (H1 : Experience.polarInRange
                 (Experience.polar (Experience.mkControls 0 1))).
  { unfold Experience.polarInRange; simpl. pose proof PI_above_3. lra. }
  split; [exact H1|].
  destruct (polar_angle_stays_in_range Experience.orbitUpdate
              orbitUpdate_keeps_range) as [_ Hseq].
  exact (Hseq _ _ H1).
Defined.

(** ** Gesture samples *)

(** Tracking the hand never touches the scene mode. *)
Lemma track_sceneState (l : list (list GestureController.Landmark))
    (s : GestureController.State) :
  GestureController.sceneState (GestureController.track l s)
  = GestureController.sceneState s.
Proof.
  unfold GestureController.track.
  destruct l as [|[|hand hands] more]; simpl; auto.
  destruct (GestureController.lastHandPos s) as [[lastX lastY]|]; reflexivity.
Qed.

(** C7.  A sample whose top classification is "Closed_Fist" with a score
    above 0.4 sets the scene mode to FORMED whatever it was, one whose top
    classification is "Open_Palm" with a score above 0.4 sets it to CHAOS,
    and a sample whose score is at most 0.4 leaves the scene mode as it
    was. *)
Theorem gesture_sets_scene_mode
    (results : GestureController.Results) (s : GestureController.State)
    (top : GestureController.Category) (others : list GestureController.Category)
    (hands : list (list GestureController.Category)) :
  GestureController.gestures results = (top :: others) :: hands ->
  (GestureController.categoryName top = "Closed_Fist"%string ->
   GestureController.score top > 0.4 ->
   GestureController.sceneState (GestureController.predictWebcam results s)
   = FORMED) /\
  (GestureController.categoryName top = "Open_Palm"%string ->
   GestureController.score top > 0.4 ->
   GestureController.sceneState (GestureController.predictWebcam results s)
   = CHAOS) /\
  (GestureController.score top <= 0.4 ->
   GestureController.sceneState (GestureController.predictWebcam results s)
   = GestureController.sceneState s).
Proof.
  intros Hg. unfold GestureController.predictWebcam. rewrite Hg.
  rewrite track_sceneState. unfold GestureController.classify.
  repeat split.
  - intros Hname Hscore. apply Rgtb_true in Hscore. rewrite Hscore, Hname.
    reflexivity.
  - intros Hname Hscore. apply Rgtb_true in Hscore. rewrite Hscore, Hname.
    reflexivity.
  - intros Hscore. apply Rgtb_false in Hscore. rewrite Hscore. reflexivity.
Qed.

Lemma gesture_sets_scene_mode_witness :
  GestureController.sceneState
    (GestureController.predictWebcam
       (GestureController.mkResults
          [[GestureController.mkCategory "Closed_Fist" 0.5]] [])
       (GestureController.mkState CHAOS (Experience.mkSpeed 0 0)
          "AI READY" None))
  = FORMED /\
  GestureController.sceneState
    (GestureController.predictWebcam
       (GestureController.mkResults
          [[GestureController.mkCategory "Closed_Fist" 0.3]] [])
       (GestureController.mkState CHAOS (Experience.mkSpeed 0 0)
          "AI READY" None))
  = CHAOS.
Proof.
  split.
  - refine (proj1 (gesture_sets_scene_mode
             (GestureController.mkResults
                [[GestureController.mkCategory "Closed_Fist" 0.5]] [])
             (GestureController.mkState CHAOS (Experience.mkSpeed 0 0)
                "AI READY" None)
             (GestureController.mkCategory "Closed_Fist" 0.5) [] []
             eq_refl) eq_refl _).
    simpl. lra.
  - refine (proj2 (proj2 (gesture_sets_scene_mode
             (GestureController.mkResults
                [[GestureController.mkCategory "Closed_Fist" 0.3]] [])
             (GestureController.mkState CHAOS (Experience.mkSpeed 0 0)
                "AI READY" None)
             (GestureController.mkCategory "Closed_Fist" 0.3) [] []
             eq_refl)) _).
    simpl. lra.
Defined.

(** A sample with a hand leaves that hand's position in [lastHandPos]. *)
Lemma predictWebcam_lastHandPos
    (results : GestureController.Results) (s : GestureController.State)
    (top : GestureController.Category) (others : list GestureController.Category)
    (more : list (list GestureController.Category))
    (hand : GestureController.Landmark) (marks : list GestureController.Landmark)
    (hands : list (list GestureController.Landmark)) :
  GestureController.gestures results = (top :: others) :: more ->
  GestureController.landmarks results = (hand :: marks) :: hands ->
  GestureController.lastHandPos (GestureController.predictWebcam results s)
  = Some (GestureController.lx hand, GestureController.ly hand).
Proof.
  intros Hg Hl. unfold GestureController.predictWebcam. rewrite Hg, Hl.
  reflexivity.
Qed.

(** Classifying the gesture never touches [lastHandPos]. *)
Lemma classify_lastHandPos (name : string) (score : R)
    (s : GestureController.State) :
  GestureController.lastHandPos (GestureController.classify name score s)
  = GestureController.lastHandPos s.
Proof.
  unfold GestureController.classify.
  destruct (Rgtb score 0.4); [|reflexivity].
  destruct (String.eqb name "Open_Palm"), (String.eqb name "Closed_Fist");
    reflexivity.
Qed.

(** C5.  For two consecutive samples that each show a hand, the emitted
    signal has [y = - SENSITIVITY * dy] whatever the size of the movement
    (no deadzone on y), and [x = 0] exactly whenever the raw horizontal
    difference satisfies [|dx| <= 0.002 / SENSITIVITY]; SENSITIVITY is 5. *)
Theorem deadzone_on_x_only
    (s : GestureController.State)
    (first second : GestureController.Results)
    (top1 top2 : GestureController.Category)
    (others1 others2 : list GestureController.Category)
    (more1 more2 : list (list GestureController.Category))
    (hand1 hand2 : GestureController.Landmark)
    (marks1 marks2 : list GestureController.Landmark)
    (hands1 hands2 : list (list GestureController.Landmark)) :
  GestureController.gestures first = (top1 :: others1) :: more1 ->
  GestureController.landmarks first = (hand1 :: marks1) :: hands1 ->
  GestureController.gestures second = (top2 :: others2) :: more2 ->
  GestureController.landmarks second = (hand2 :: marks2) :: hands2 ->
  GestureController.SENSITIVITY = 5 /\
  Experience.sy
    (GestureController.cameraSpeed
       (GestureController.predictWebcam second
          (GestureController.predictWebcam first s)))
  = - GestureController.SENSITIVITY
      * (GestureController.ly hand2 - GestureController.ly hand1) /\
  (Rabs (GestureController.lx hand2 - GestureController.lx hand1)
     <= 0.002 / GestureController.SENSITIVITY ->
   Experience.sx
     (GestureController.cameraSpeed
        (GestureController.predictWebcam second
           (GestureController.predictWebcam first s)))
   = 0).
Proof.
  intros Hg1 Hl1 Hg2 Hl2.
  pose proof (predictWebcam_lastHandPos first s _ _ _ _ _ _ Hg1 Hl1) as Hlast.
  set (s1 := GestureController.predictWebcam first s) in *.
  split; [unfold GestureController.SENSITIVITY; lra|].
  unfold GestureController.predictWebcam at 1 2. rewrite Hg2, Hl2.
  unfold GestureController.track.
  rewrite classify_lastHandPos, Hlast. simpl.
  split; [ring|].
  intros Hdx.
  assert (Hdead : Rgtb (Rabs ((GestureController.lx hand2
                               - GestureController.lx hand1)
                              * GestureController.SENSITIVITY))
                       GestureController.deadzone = false).
  { apply Rgtb_false.
    unfold GestureController.SENSITIVITY, GestureController.deadzone in *.
    rewrite Rabs_mult, (Rabs_pos_eq 5.0) by lra. lra. }
  rewrite Hdead. reflexivity.
Qed.

Lemma deadzone_on_x_only_witness :
  Rabs (0.5003 - 0.5) <= 0.002 / GestureController.SENSITIVITY /\
  Experience.sx
    (GestureController.cameraSpeed
       (GestureController.predictWebcam
          (GestureController.mkResults
             [[GestureController.mkCategory "None" 0.9]]
             [[GestureController.mkLandmark 0.5003 0.6]])
          (GestureController.predictWebcam
             (GestureController.mkResults
                [[GestureController.mkCategory "None" 0.9]]
                [[GestureController.mkLandmark 0.5 0.5]])
             (GestureController.mkState FORMED (Experience.mkSpeed 0 0)
                "AI READY" None))))
  = 0.
Proof.
  assert (H : Rabs (0.5003 - 0.5) <= 0.002 / GestureController.SENSITIVITY).
  { unfold GestureController.SENSITIVITY. rewrite Rabs_pos_eq by lra. lra. }
  split; [exact H|].
  exact (proj2 (proj2 (deadzone_on_x_only
           (GestureController.mkState FORMED (Experience.mkSpeed 0 0)
              "AI READY" None)
           (GestureController.mkResults
              [[GestureController.mkCategory "None" 0.9]]
              [[GestureController.mkLandmark 0.5 0.5]])
           (GestureController.mkResults
              [[GestureController.mkCategory "None" 0.9]]
              [[GestureController.mkLandmark 0.5003 0.6]])
           _ _ _ _ _ _ _ _ _ _ _ _ eq_refl eq_refl eq_refl eq_refl)) H).
Defined.

(** ** Shake detection *)

(** C8.  [handleMotion] sets the snow flag and restarts the timer, due 5000
    ms after the event, exactly when a previous sample is retained and the
    summed absolute difference of the new sample from it exceeds 25; in
    every other case (a sum of at most 25, no previous sample, a sample
    with a missing axis) the flag and the pending timer are left as they
    were.  The restarted timer clears the flag when its 5000 ms are over and
    not before. *)
Theorem shake_sets_snow
    (now : R) (e : GrandTreeApp.DeviceMotionEvent) (s : GrandTreeApp.State) :
  (GrandTreeApp.shakeDetected e s ->
   GrandTreeApp.isSnowing (GrandTreeApp.handleMotion now e s) = true /\
   GrandTreeApp.timeout (GrandTreeApp.handleMotion now e s) = Some (now + 5000) /\
   (forall t, t < now + 5000 ->
      GrandTreeApp.isSnowing
        (GrandTreeApp.timerFires t (GrandTreeApp.handleMotion now e s)) = true) /\
   (forall t, now + 5000 <= t ->
      GrandTreeApp.isSnowing
        (GrandTreeApp.timerFires t (GrandTreeApp.handleMotion now e s)) = false)) /\
  (~ GrandTreeApp.shakeDetected e s ->
   GrandTreeApp.isSnowing (GrandTreeApp.handleMotion now e s)
   = GrandTreeApp.isSnowing s /\
   GrandTreeApp.timeout (GrandTreeApp.handleMotion now e s)
   = GrandTreeApp.timeout s) /\
  (GrandTreeApp.lastX s = None -> ~ GrandTreeApp.shakeDetected e s) /\
  (forall a x y z x0 y0 z0,
     GrandTreeApp.accelerationIncludingGravity e = Some a ->
     GrandTreeApp.ax a = Some x -> GrandTreeApp.ay a = Some y ->
     GrandTreeApp.az a = Some z ->
     GrandTreeApp.lastX s = Some x0 -> GrandTreeApp.lastY s = Some y0 ->
     GrandTreeApp.lastZ s = Some z0 ->
     Rabs (x - x0) + Rabs (y - y0) + Rabs (z - z0) <= 25 ->
     ~ GrandTreeApp.shakeDetected e s).
Proof.
  split; [|split; [|split]].
  - intros (a & x & y & z & x0 & y0 & z0 & He & Hx & Hy & Hz & H0x & H0y & H0z & Hsum).
    assert (Hrun : GrandTreeApp.handleMotion now e s
                   = GrandTreeApp.mkState (Some x) (Some y) (Some z) true
                       (Some (now + 5000))).
    { unfold GrandTreeApp.handleMotion.
      rewrite He, Hx, Hy, Hz, H0x, H0y, H0z.
      apply Rgtb_true in Hsum. rewrite Hsum. reflexivity. }
    rewrite Hrun. simpl. repeat split.
    + intros t Ht. unfold GrandTreeApp.timerFires; simpl.
      apply Rltb_true in Ht. rewrite Ht. reflexivity.
    + intros t Ht. unfold GrandTreeApp.timerFires; simpl.
      apply Rltb_false in Ht. rewrite Ht. reflexivity.
  - intros Hno. unfold GrandTreeApp.handleMotion.
    destruct (GrandTreeApp.accelerationIncludingGravity e) as [a|] eqn:He; auto.
    destruct (GrandTreeApp.ax a) as [x|] eqn:Hx; auto.
    destruct (GrandTreeApp.ay a) as [y|] eqn:Hy; auto.
    destruct (GrandTreeApp.az a) as [z|] eqn:Hz; auto.
    destruct (GrandTreeApp.lastX s) as [x0|] eqn:H0x; auto.
    destruct (GrandTreeApp.lastY s) as [y0|] eqn:H0y; auto.
    destruct (GrandTreeApp.lastZ s) as [z0|] eqn:H0z; auto.
    destruct (Rgtb (Rabs (x - x0) + Rabs (y - y0) + Rabs (z - z0)) 25) eqn:G; auto.
    exfalso. apply Hno. apply Rgtb_true in G.
    exists a, x, y, z, x0, y0, z0. repeat split; assumption.
  - intros Hnone (a & x & y & z & x0 & y0 & z0 & _ & _ & _ & _ & H0x & _).
    congruence.
  - intros a x y z x0 y0 z0 He Hx Hy Hz H0x H0y H0z Hsum
           (a' & x' & y' & z' & x0' & y0' & z0' & He' & Hx' & Hy' & Hz'
               & H0x' & H0y' & H0z' & Hsum').
    rewrite He in He'. injection He' as <-.
    rewrite Hx in Hx'. rewrite Hy in Hy'. rewrite Hz in Hz'.
    rewrite H0x in H0x'. rewrite H0y in H0y'. rewrite H0z in H0z'.
    injection Hx' as <-. injection Hy' as <-. injection Hz' as <-.
    injection H0x' as <-. injection H0y' as <-. injection H0z' as <-.
    lra.
Qed.

Lemma shake_sets_snow_witness :
  GrandTreeApp.shakeDetected
    (GrandTreeApp.mkEvent
       (Some (GrandTreeApp.mkAcceleration (Some 20) (Some 0) (Some 9.8))))
    (GrandTreeApp.mkState (Some (-10)) (Some 0) (Some 9.8) false None) /\
  GrandTreeApp.isSnowing
    (GrandTreeApp.handleMotion 1000
       (GrandTreeApp.mkEvent
          (Some (GrandTreeApp.mkAcceleration (Some 20) (Some 0) (Some 9.8))))
       (GrandTreeApp.mkState (Some (-10)) (Some 0) (Some 9.8) false None))
  = true /\
  GrandTreeApp.isSnowing
    (GrandTreeApp.handleMotion 1000
       (GrandTreeApp.mkEvent
          (Some (GrandTreeApp.mkAcceleration (Some 20) (Some 0) (Some 9.8))))
       GrandTreeApp.initial)
  = false.
Proof.
  assert (H : GrandTreeApp.shakeDetected
    (GrandTreeApp.mkEvent
       (Some (GrandTreeApp.mkAcceleration (Some 20) (Some 0) (Some 9.8))))
    (GrandTreeApp.mkState (Some (-10)) (Some 0) (Some 9.8) false None)).
  { exists (GrandTreeApp.mkAcceleration (Some 20) (Some 0) (Some 9.8)),
      20, 0, 9.8, (-10), 0, 9.8.
    simpl. repeat split; try reflexivity.
    replace (20 - -10) with 30 by lra.
    replace (0 - 0) with 0 by lra. replace (9.8 - 9.8) with 0 by lra.
    rewrite Rabs_R0, Rabs_pos_eq by lra. lra. }
  split; [exact H|]. split.
  - exact (proj1 (proj1 (shake_sets_snow 1000 _ _) H)).
  - destruct (shake_sets_snow 1000
                (GrandTreeApp.mkEvent
                   (Some (GrandTreeApp.mkAcceleration (Some 20) (Some 0) (Some 9.8))))
                GrandTreeApp.initial) as (_ & Hkeep & Hfirst & _).
    exact (proj1 (Hkeep (Hfirst eq_refl))).
Defined.

(** ** Foliage placement *)

Lemma getTreePosition_rng (h r : R) (g : Rng) :
  draws (snd (getTreePosition h r g)) = draws g /\
  cursor (snd (getTreePosition h r g)) = (cursor g + 3)%nat.
Proof.
  unfold getTreePosition, bind, ret, Math_random; simpl. split; [reflexivity|lia].
Qed.

(** A candidate depends on the draws and the cursor only. *)
Lemma getTreePosition_at (h r : R) (g : Rng) :
  fst (getTreePosition h r g)
  = fst (getTreePosition h r (mkRng (draws g) (cursor g))).
Proof. destruct g; reflexivity. Qed.

(** One unfolding of the search loop. *)
Lemma whileSearch_step (k : nat) (h r : R) (placed : list Point)
    (s0 : OrnamentTree.Search) (g : Rng) :
  OrnamentTree.whileSearch (S k) h r placed s0 g
  = if negb (OrnamentTree.valid s0) && (OrnamentTree.attempts s0 <? 50)%nat
    then OrnamentTree.whileSearch k h r placed
           (OrnamentTree.mkSearch (fst (getTreePosition h r g))
              (OrnamentTree.scanPlaced (fst (getTreePosition h r g)) placed)
              (S (OrnamentTree.attempts s0)))
           (snd (getTreePosition h r g))
    else (s0, g).
Proof.
  cbn [OrnamentTree.whileSearch].
  destruct (negb (OrnamentTree.valid s0) && (OrnamentTree.attempts s0 <? 50)%nat);
    [|reflexivity].
  unfold bind. destruct (getTreePosition h r g) as [t g1]. reflexivity.
Qed.

(** What the search loop does from any state of its locals: it only adds
    attempts, every attempt takes three draws, and once an attempt was made
    the candidate is the last one generated and [valid] is the outcome of
    its scan. *)
Lemma whileSearch_spec (fuel : nat) (h r : R) (placed : list Point)
    (s0 : OrnamentTree.Search) (g : Rng) :
  let out := OrnamentTree.whileSearch fuel h r placed s0 g in
  let s := fst out in
  let n := (OrnamentTree.attempts s - OrnamentTree.attempts s0)%nat in
  (OrnamentTree.attempts s0 <= OrnamentTree.attempts s)%nat /\
  (n <= fuel)%nat /\
  draws (snd out) = draws g /\
  cursor (snd out) = (cursor g + 3 * n)%nat /\
  (n = O -> s = s0) /\
  ((0 < n)%nat ->
     (OrnamentTree.attempts s <= 50)%nat /\
     OrnamentTree.cand s
       = fst (getTreePosition h r (mkRng (draws g) (cursor g + 3 * (n - 1)))) /\
     OrnamentTree.valid s = OrnamentTree.scanPlaced (OrnamentTree.cand s) placed) /\
  ((50 <= OrnamentTree.attempts s0 + fuel)%nat ->
     OrnamentTree.valid s = true \/ (50 <= OrnamentTree.attempts s)%nat).
Proof.
  revert s0 g. induction fuel as [|k IH]; intros s0 g; cbv zeta.
  - simpl. rewrite Nat.sub_diag. repeat split; auto; try lia.
  - rewrite whileSearch_step.
    destruct (negb (OrnamentTree.valid s0)) eqn:Hv;
      [destruct (OrnamentTree.attempts s0 <? 50)%nat eqn:Ha|]; simpl andb; cbv iota.
    + pose proof (getTreePosition_rng h r g) as [Hd Hc].
      pose proof (getTreePosition_at h r g) as Hgen.
      destruct (getTreePosition h r g) as [t g1].
      cbn [fst snd] in Hd, Hc, Hgen |- *.
      specialize (IH (OrnamentTree.mkSearch t (OrnamentTree.scanPlaced t placed)
                        (S (OrnamentTree.attempts s0))) g1).
      cbv zeta in IH. simpl OrnamentTree.attempts in IH.
      apply Nat.ltb_lt in Ha.
      destruct IH as (I1 & I2 & I3 & I4 & I5 & I6 & I7).
      set (out := OrnamentTree.whileSearch k h r placed _ g1) in *.
      repeat split; try lia.
      * congruence.
      * destruct (Nat.eq_dec (OrnamentTree.attempts (fst out))
                    (S (OrnamentTree.attempts s0))) as [E|E].
        -- rewrite I5 by lia. cbn [OrnamentTree.cand OrnamentTree.attempts].
           replace (S (OrnamentTree.attempts s0) - OrnamentTree.attempts s0 - 1)%nat
             with O by lia.
           rewrite Nat.mul_0_r, Nat.add_0_r. exact Hgen.
        -- destruct I6 as (_ & Hcand & _); [lia|]. rewrite Hcand.
           rewrite Hd, Hc. f_equal. f_equal. f_equal. lia.
      * destruct (Nat.eq_dec (OrnamentTree.attempts (fst out))
                    (S (OrnamentTree.attempts s0))) as [E|E].
        -- rewrite I5 by lia. reflexivity.
        -- apply I6. lia.
      * intros Hfuel. apply I7. lia.
    + simpl. rewrite Nat.sub_diag. apply Nat.ltb_ge in Ha.
      repeat split; auto; try lia.
    + simpl. rewrite Nat.sub_diag. apply negb_false_iff in Hv.
      repeat split; auto; try lia.
Qed.

(** The search of one sphere: between one and fifty attempts, left because
    the candidate is valid or because fifty attempts were made; the result
    is the last candidate generated, whether valid or not. *)
Lemma search_spec (h r : R) (placed : list Point) (g : Rng) :
  let out := OrnamentTree.search h r placed g in
  let s := fst out in
  (1 <= OrnamentTree.attempts s <= 50)%nat /\
  (OrnamentTree.valid s = true \/ OrnamentTree.attempts s = 50%nat) /\
  OrnamentTree.cand s
    = fst (getTreePosition h r
             (mkRng (draws g) (cursor g + 3 * (OrnamentTree.attempts s - 1)))) /\
  OrnamentTree.valid s = OrnamentTree.scanPlaced (OrnamentTree.cand s) placed /\
  draws (snd out) = draws g /\
  cursor (snd out) = (cursor g + 3 * OrnamentTree.attempts s)%nat.
Proof.
  cbv zeta. unfold OrnamentTree.search.
  pose proof (whileSearch_spec 50 h r placed
                (OrnamentTree.mkSearch OrnamentTree.unset false 0) g) as H.
  cbv zeta in H. cbn [OrnamentTree.attempts OrnamentTree.valid] in H.
  set (out := OrnamentTree.whileSearch 50 h r placed _ g) in *.
  rewrite Nat.sub_0_r in H.
  destruct H as (_ & Hle & Hd & Hc & Hzero & Hpos & Hexit).
  assert (Hone : (1 <= OrnamentTree.attempts (fst out))%nat).
  { destruct (OrnamentTree.attempts (fst out)) eqn:E; [|lia].
    specialize (Hzero eq_refl). specialize (Hexit ltac:(lia)).
    rewrite Hzero in Hexit. simpl in Hexit. destruct Hexit; [discriminate|lia]. }
  destruct (Hpos ltac:(lia)) as (H50 & Hcand & Hvalid).
  repeat split; try assumption; try lia.
  destruct (Hexit ltac:(lia)) as [Hv|Hv]; [left; exact Hv | right; lia].
Qed.

(** A scan that leaves [valid] set means no placed point is closer than
    [MIN_DISTANCE]. *)
Lemma scanPlaced_true (t : Point) (placed : list Point) :
  OrnamentTree.scanPlaced t placed = true ->
  forall p, In p placed ->
            OrnamentTree.MIN_DISTANCE <= OrnamentTree.distance t p.
Proof.
  induction placed as [|q rest IH]; intros Hscan p Hin; [contradiction|].
  simpl in Hscan.
  destruct (Rltb _ _) eqn:Hclose in Hscan; [discriminate|].
  destruct Hin as [<-|Hin]; [|apply IH; assumption].
  apply Rltb_false in Hclose.
  unfold OrnamentTree.distance, OrnamentTree.MIN_DISTANCE in *.
  replace 2.0 with (sqrt (2.0 * 2.0)) at 1 by (apply sqrt_square; lra).
  apply sqrt_le_1_alt. exact Hclose.
Qed.

(** A scan that clears [valid] met a placed point closer than
    [MIN_DISTANCE]. *)
Lemma scanPlaced_false (t : Point) (placed : list Point) :
  OrnamentTree.scanPlaced t placed = false ->
  exists p, In p placed /\
            OrnamentTree.distance t p < OrnamentTree.MIN_DISTANCE.
Proof.
  induction placed as [|q rest IH]; intros Hscan; [discriminate|].
  simpl in Hscan.
  destruct (Rltb _ _) eqn:Hclose in Hscan.
  - exists q. split; [left; reflexivity|].
    apply Rltb_true in Hclose.
    unfold OrnamentTree.distance, OrnamentTree.MIN_DISTANCE in *.
    replace 2.0 with (sqrt (2.0 * 2.0)) by (apply sqrt_square; lra).
    apply sqrt_lt_1_alt. split; [|exact Hclose].
    pose proof (Rle_0_sqr (px t - px q)) as Hx.
    pose proof (Rle_0_sqr (py t - py q)) as Hy.
    pose proof (Rle_0_sqr (pz t - pz q)) as Hz.
    unfold Rsqr in Hx, Hy, Hz. lra.
  - destruct (IH Hscan) as (p & Hin & Hd).
    exists p. split; [right; exact Hin | exact Hd].
Qed.

(** The scan leaves [valid] set exactly when the candidate keeps
    [MIN_DISTANCE] from every placed point. *)
Lemma scanPlaced_iff (t : Point) (placed : list Point) :
  OrnamentTree.scanPlaced t placed = true <->
  forall p, In p placed ->
            OrnamentTree.MIN_DISTANCE <= OrnamentTree.distance t p.
Proof.
  split; [apply scanPlaced_true|].
  intros Hclear. destruct (OrnamentTree.scanPlaced t placed) eqn:E;
    [reflexivity|].
  destruct (scanPlaced_false _ _ E) as (p & Hin & Hd).
  specialize (Hclear p Hin). lra.
Qed.

(** The loop does not run once [valid] is set. *)
Lemma whileSearch_done (fuel : nat) (h r : R) (placed : list Point)
    (s0 : OrnamentTree.Search) (g : Rng) :
  OrnamentTree.valid s0 = true ->
  OrnamentTree.whileSearch fuel h r placed s0 g = (s0, g).
Proof.
  intros Hv. destruct fuel; [reflexivity|].
  rewrite whileSearch_step, Hv. reflexivity.
Qed.

Lemma foliageCandidateAt_0 (h r : R) (g : Rng) :
  foliageCandidateAt h r g 0 = fst (getTreePosition h r g).
Proof.
  unfold foliageCandidateAt. rewrite Nat.mul_0_r, Nat.add_0_r.
  symmetry. apply getTreePosition_at.
Qed.

Lemma foliageCandidateAt_shift (h r : R) (g : Rng) (k : nat) :
  foliageCandidateAt h r (snd (getTreePosition h r g)) k
  = foliageCandidateAt h r g (S k).
Proof.
  unfold foliageCandidateAt.
  destruct (getTreePosition_rng h r g) as [-> ->].
  do 3 f_equal. lia.
Qed.

(** Every attempt but the last met a placed point closer than
    [MIN_DISTANCE]: the loop goes on only while [valid] is clear. *)
Lemma whileSearch_earlier (fuel : nat) (h r : R) (placed : list Point)
    (s0 : OrnamentTree.Search) (g : Rng) (k : nat) :
  (S k < OrnamentTree.attempts
           (fst (OrnamentTree.whileSearch fuel h r placed s0 g))
         - OrnamentTree.attempts s0)%nat ->
  OrnamentTree.scanPlaced (foliageCandidateAt h r g k) placed = false.
Proof.
  revert s0 g k. induction fuel as [|n IH]; intros s0 g k Hk.
  - simpl in Hk. lia.
  - rewrite whileSearch_step in Hk.
    destruct (negb (OrnamentTree.valid s0)
              && (OrnamentTree.attempts s0 <? 50)%nat) eqn:Hc.
    + destruct (OrnamentTree.scanPlaced (fst (getTreePosition h r g)) placed)
        eqn:Hscan.
      * rewrite whileSearch_done in Hk by reflexivity.
        cbn [fst OrnamentTree.attempts] in Hk. lia.
      * destruct k as [|k].
        -- rewrite foliageCandidateAt_0. exact Hscan.
        -- rewrite <- foliageCandidateAt_shift.
           apply (IH (OrnamentTree.mkSearch (fst (getTreePosition h r g)) false
                        (S (OrnamentTree.attempts s0)))).
           cbn [OrnamentTree.attempts]. lia.
    + cbn [fst] in Hk. lia.
Qed.

Lemma search_earlier (h r : R) (placed : list Point) (g : Rng) (k : nat) :
  (S k < OrnamentTree.attempts (fst (OrnamentTree.search h r placed g)))%nat ->
  OrnamentTree.scanPlaced (foliageCandidateAt h r g k) placed = false.
Proof.
  intros Hk. unfold OrnamentTree.search in Hk.
  apply (whileSearch_earlier 50 h r placed
           (OrnamentTree.mkSearch OrnamentTree.unset false 0)).
  cbn [OrnamentTree.attempts]. lia.
Qed.

Section Placement.

Variable parseColor : string -> OrnamentTree.Color.
Variable config : ConfigType.
Variable spherePoints : list R.
Variable g : Rng.

Local Abbreviation count := (foliage (counts config)).
Local Abbreviation after :=
  (OrnamentTree.afterIterations parseColor config spherePoints g).
Local Abbreviation searchOf :=
  (OrnamentTree.searchOf parseColor config spherePoints g).

Lemma afterIterations_S (k : nat) :
  after (S k) = OrnamentTree.placeOne parseColor config spherePoints k (after k).
Proof.
  unfold after, OrnamentTree.afterIterations. now rewrite forLoop_snoc.
Qed.

(** Iteration [k] pushes the candidate of its search and writes it to
    slot [k] of [targets]. *)
Lemma afterIterations_step (k : nat) :
  OrnamentTree.placedPositions (after (S k))
  = OrnamentTree.placedPositions (after k) ++ [OrnamentTree.cand (searchOf k)] /\
  OrnamentTree.targets (after (S k))
  = store (k * 3 + 2) (pz (OrnamentTree.cand (searchOf k)))
      (store (k * 3 + 1) (py (OrnamentTree.cand (searchOf k)))
         (store (k * 3) (px (OrnamentTree.cand (searchOf k)))
            (OrnamentTree.targets (after k)))).
Proof.
  rewrite afterIterations_S.
  unfold searchOf, OrnamentTree.searchOf. fold after.
  unfold OrnamentTree.placeOne.
  destruct (OrnamentTree.search _ _ _ _) as [s g1].
  cbn [fst]. destruct (OrnamentTree.valid s); split; reflexivity.
Qed.

(** Iteration [k] takes three draws per attempt and one for the colour. *)
Lemma afterIterations_rng (k : nat) :
  draws (OrnamentTree.rng (after (S k))) = draws (OrnamentTree.rng (after k)) /\
  cursor (OrnamentTree.rng (after (S k)))
  = (cursor (OrnamentTree.rng (after k))
     + 3 * OrnamentTree.attempts (searchOf k) + 1)%nat.
Proof.
  rewrite afterIterations_S.
  unfold searchOf, OrnamentTree.searchOf. fold after.
  unfold OrnamentTree.placeOne.
  destruct (search_spec (height (tree config)) (radius (tree config))
              (OrnamentTree.placedPositions (after k))
              (OrnamentTree.rng (after k))) as (_ & _ & _ & _ & Hd & Hc).
  destruct (OrnamentTree.search _ _ _ _) as [s g1].
  cbn [fst snd] in *. unfold Math_random. cbn [OrnamentTree.rng draws cursor].
  split; [exact Hd | lia].
Qed.

Lemma afterIterations_sizes (k : nat) :
  length (OrnamentTree.placedPositions (after k)) = k /\
  length (OrnamentTree.targets (after k)) = (count * 3)%nat.
Proof.
  induction k as [|k [IHp IHt]].
  - unfold after, OrnamentTree.afterIterations; simpl.
    split; [reflexivity | apply repeat_length].
  - destruct (afterIterations_step k) as [-> ->].
    rewrite length_app, !store_length. simpl. split; lia.
Qed.

(** After [k] iterations the first [k] spheres of [targets] are the
    points pushed so far, in order. *)
Lemma afterIterations_points (k j : nat) :
  (j < k)%nat -> (k <= count)%nat ->
  nth j (OrnamentTree.placedPositions (after k)) OrnamentTree.unset
    = OrnamentTree.cand (searchOf j) /\
  OrnamentTree.pointAt (OrnamentTree.targets (after k)) j
    = OrnamentTree.cand (searchOf j).
Proof.
  induction k as [|k IH]; intros Hj Hk; [lia|].
  destruct (afterIterations_step k) as [Hp Ht].
  destruct (afterIterations_sizes k) as [Lp Lt].
  rewrite Hp, Ht. unfold OrnamentTree.pointAt.
  destruct (Nat.eq_dec j k) as [->|Hne].
  - split.
    + rewrite app_nth2 by lia. rewrite Lp, Nat.sub_diag. reflexivity.
    + rewrite (nth_store_other (k * 3 + 2) (k * 3)) by lia.
      rewrite (nth_store_other (k * 3 + 1) (k * 3)) by lia.
      rewrite nth_store_same by lia.
      rewrite (nth_store_other (k * 3 + 2) (k * 3 + 1)) by lia.
      rewrite nth_store_same by (rewrite store_length; lia).
      rewrite nth_store_same by (rewrite !store_length; lia).
      destruct (OrnamentTree.cand (searchOf k)) as [[x y] z]. reflexivity.
  - destruct IH as [IHp IHt]; [lia|lia|]. split.
    + rewrite app_nth1 by lia. exact IHp.
    + rewrite !nth_store_other by lia. exact IHt.
Qed.

(** The points placed before sphere [i] are the first [i] points of any
    later state of the loop. *)
Lemma afterIterations_prefix (k i : nat) :
  (i <= k)%nat ->
  OrnamentTree.placedPositions (after i)
  = firstn i (OrnamentTree.placedPositions (after k)).
Proof.
  induction k as [|k IH]; intros Hi.
  - replace i with O by lia. reflexivity.
  - destruct (Nat.eq_dec i (S k)) as [->|Hne].
    + rewrite firstn_all2; [reflexivity|].
      destruct (afterIterations_sizes (S k)) as [-> _]. lia.
    + destruct (afterIterations_step k) as [-> _]. rewrite firstn_app.
      destruct (afterIterations_sizes k) as [-> _].
      replace (i - k)%nat with O by lia.
      rewrite firstn_O, app_nil_r. apply IH. lia.
Qed.

End Placement.

(** C3.  For every count and every sequence of draws the placement loop
    fills exactly [count] spheres: [placedPositions] has [count] points and
    [targets] their [count * 3] coordinates.  Sphere [i] is searched against
    the spheres placed before it, the first [i] points of the result, in
    between 1 and 50 attempts.  Every attempt but the last generated a
    candidate closer than [MIN_DISTANCE] to one of them; the last candidate
    is the one written, and [valid] tells whether it keeps [MIN_DISTANCE]
    from all of them.  The search ends before the fiftieth attempt only
    with such a candidate, and after fifty attempts the last candidate is
    written all the same. *)
Theorem placement_fills_count
    (parseColor : string -> OrnamentTree.Color) (config : ConfigType)
    (spherePoints : list R) (g : Rng) :
  let m := OrnamentTree.useMemo parseColor config spherePoints g in
  length (OrnamentTree.placedPositions m) = foliage (counts config) /\
  length (OrnamentTree.targets m) = (foliage (counts config) * 3)%nat /\
  forall i, (i < foliage (counts config))%nat ->
    let before := OrnamentTree.afterIterations parseColor config spherePoints g i in
    let s := OrnamentTree.searchOf parseColor config spherePoints g i in
    let candidate :=
      foliageCandidateAt (height (tree config)) (radius (tree config))
        (OrnamentTree.rng before) in
    OrnamentTree.pointAt (OrnamentTree.targets m) i = OrnamentTree.cand s /\
    nth i (OrnamentTree.placedPositions m) OrnamentTree.unset
      = OrnamentTree.cand s /\
    OrnamentTree.placedPositions before
      = firstn i (OrnamentTree.placedPositions m) /\
    (1 <= OrnamentTree.attempts s <= 50)%nat /\
    (OrnamentTree.valid s = true \/ OrnamentTree.attempts s = 50%nat) /\
    OrnamentTree.cand s = candidate (OrnamentTree.attempts s - 1)%nat /\
    (OrnamentTree.valid s = true <->
     forall p, In p (OrnamentTree.placedPositions before) ->
       OrnamentTree.MIN_DISTANCE
       <= OrnamentTree.distance (OrnamentTree.cand s) p) /\
    (forall k, (S k < OrnamentTree.attempts s)%nat ->
       exists p, In p (OrnamentTree.placedPositions before) /\
         OrnamentTree.distance (candidate k) p < OrnamentTree.MIN_DISTANCE).
Proof.
  cbv zeta.
  change (OrnamentTree.useMemo parseColor config spherePoints g)
    with (OrnamentTree.afterIterations parseColor config spherePoints g
            (foliage (counts config))).
  destruct (afterIterations_sizes parseColor config spherePoints g
              (foliage (counts config))) as [Lp Lt].
  split; [exact Lp|]. split; [exact Lt|].
  intros i Hi.
  destruct (afterIterations_points parseColor config spherePoints g
              (foliage (counts config)) i Hi (Nat.le_refl _)) as [Hp Ht].
  split; [exact Ht|]. split; [exact Hp|].
  split; [apply afterIterations_prefix; lia|].
  unfold OrnamentTree.searchOf.
  set (before := OrnamentTree.afterIterations parseColor config spherePoints g i).
  destruct (search_spec (height (tree config)) (radius (tree config))
              (OrnamentTree.placedPositions before) (OrnamentTree.rng before))
    as (Hatt & Hexit & Hcand & Hvalid & _).
  split; [exact Hatt|]. split; [exact Hexit|]. split; [exact Hcand|].
  split.
  - rewrite Hvalid. apply scanPlaced_iff.
  - intros k Hk. apply scanPlaced_false.
    apply search_earlier. exact Hk.
Qed.

(** A first candidate that passes the scan ends the search at once. *)
Lemma search_first_valid (h r : R) (placed : list Point) (g : Rng) :
  OrnamentTree.scanPlaced (fst (getTreePosition h r g)) placed = true ->
  OrnamentTree.search h r placed g
  = (OrnamentTree.mkSearch (fst (getTreePosition h r g)) true 1,
     snd (getTreePosition h r g)).
Proof.
  intros Hscan. unfold OrnamentTree.search.
  rewrite whileSearch_step. cbn [OrnamentTree.valid OrnamentTree.attempts negb andb Nat.ltb Nat.leb].
  rewrite whileSearch_step. cbn [OrnamentTree.valid OrnamentTree.attempts].
  rewrite Hscan. reflexivity.
Qed.

(** A first candidate that fails the scan and a second that passes it end
    the search after two attempts. *)
Lemma search_second_valid (h r : R) (placed : list Point) (g : Rng) :
  OrnamentTree.scanPlaced (fst (getTreePosition h r g)) placed = false ->
  OrnamentTree.scanPlaced
    (fst (getTreePosition h r (snd (getTreePosition h r g)))) placed = true ->
  fst (OrnamentTree.search h r placed g)
  = OrnamentTree.mkSearch
      (fst (getTreePosition h r (snd (getTreePosition h r g)))) true 2.
Proof.
  intros H0 H1. unfold OrnamentTree.search.
  rewrite whileSearch_step. cbn [OrnamentTree.valid OrnamentTree.attempts negb andb Nat.ltb Nat.leb].
  rewrite whileSearch_step. cbn [OrnamentTree.valid OrnamentTree.attempts].
  rewrite H0. cbn [negb andb Nat.ltb Nat.leb].
  rewrite whileSearch_step. cbn [OrnamentTree.valid OrnamentTree.attempts].
  rewrite H1. reflexivity.
Qed.

(** With the draws of [retryDraws] the first candidate of the second sphere
    falls on the first sphere and the second candidate fourteen units above
    it: the search takes two attempts. *)
Lemma twoSpheres_retry :
  OrnamentTree.attempts
    (OrnamentTree.searchOf blackParser twoSpheres [] (mkRng retryDraws 0) 1)
  = 2%nat.
Proof.
  assert (H0 : OrnamentTree.searchOf blackParser twoSpheres [] (mkRng retryDraws 0) 0
               = OrnamentTree.mkSearch
                   (fst (getTreePosition 28 12 (mkRng retryDraws 0))) true 1).
  { unfold OrnamentTree.searchOf, OrnamentTree.afterIterations.
    cbn [forLoop OrnamentTree.initMemo OrnamentTree.placedPositions
         OrnamentTree.rng twoSpheres tree height radius].
    rewrite search_first_valid by reflexivity. reflexivity. }
  destruct (afterIterations_step blackParser twoSpheres [] (mkRng retryDraws 0) 0)
    as [Hp _].
  destruct (afterIterations_rng blackParser twoSpheres [] (mkRng retryDraws 0) 0)
    as [Hd Hc].
  rewrite H0 in Hp, Hc.
  unfold OrnamentTree.searchOf.
  destruct (OrnamentTree.rng
              (OrnamentTree.afterIterations blackParser twoSpheres []
                 (mkRng retryDraws 0) 1)) as [d c].
  cbn in Hd, Hc. subst d c. rewrite Hp.
  unfold OrnamentTree.afterIterations.
  cbn [forLoop OrnamentTree.initMemo OrnamentTree.placedPositions app
       OrnamentTree.cand twoSpheres tree height radius].
  rewrite search_second_valid; [reflexivity| |].
  - cbn [OrnamentTree.scanPlaced].
    replace (fst (getTreePosition 28 12 (mkRng retryDraws 4)))
      with (fst (getTreePosition 28 12 (mkRng retryDraws 0))) by reflexivity.
    set (t := fst (getTreePosition 28 12 (mkRng retryDraws 0))).
    replace (Rltb _ _) with true; [reflexivity|].
    symmetry. apply Rltb_true. unfold OrnamentTree.MIN_DISTANCE. lra.
  - cbn [OrnamentTree.scanPlaced].
    assert (Hy0 : py (fst (getTreePosition 28 12 (mkRng retryDraws 0))) = -14).
    { unfold getTreePosition, bind, ret, Math_random, py, retryDraws; cbn. lra. }
    assert (Hy1 : py (fst (getTreePosition 28 12
                             (snd (getTreePosition 28 12 (mkRng retryDraws 4)))))
                  = 0).
    { unfold getTreePosition, bind, ret, Math_random, py, retryDraws; cbn. lra. }
    rewrite Hy0, Hy1.
    set (dx := px _ - px _). set (dz := pz _ - pz _).
    replace (Rltb _ _) with false; [reflexivity|].
    symmetry. apply Rltb_false. unfold OrnamentTree.MIN_DISTANCE.
    pose proof (Rle_0_sqr dx) as Hx. pose proof (Rle_0_sqr dz) as Hz.
    unfold Rsqr in Hx, Hz. lra.
Qed.

Lemma placement_fills_count_witness :
  (1 < foliage (counts twoSpheres))%nat /\
  length (OrnamentTree.targets
            (OrnamentTree.useMemo blackParser twoSpheres []
               (mkRng retryDraws 0))) = 6%nat /\
  OrnamentTree.attempts
    (OrnamentTree.searchOf blackParser twoSpheres [] (mkRng retryDraws 0) 1)
  = 2%nat /\
  exists p,
    In p (OrnamentTree.placedPositions
            (OrnamentTree.afterIterations blackParser twoSpheres []
               (mkRng retryDraws 0) 1)) /\
    OrnamentTree.distance
      (foliageCandidateAt 28 12
         (OrnamentTree.rng
            (OrnamentTree.afterIterations blackParser twoSpheres []
               (mkRng retryDraws 0) 1)) 0) p
    < OrnamentTree.MIN_DISTANCE.
Proof.
  assert (H : (1 < foliage (counts twoSpheres))%nat)
    by (cbn [twoSpheres counts foliage]; apply Nat.lt_succ_diag_r).
  split; [exact H|].
  destruct (placement_fills_count blackParser twoSpheres []
              (mkRng retryDraws 0)) as (_ & Ht & Hall).
  split; [exact Ht|].
  split; [exact twoSpheres_retry|].
  destruct (Hall 1%nat H) as (_ & _ & _ & _ & _ & _ & _ & Hearlier).
  apply (Hearlier 0%nat).
  rewrite twoSpheres_retry. apply Nat.lt_succ_diag_r.
Defined.

(** C4.  A sphere whose search ended with [valid] set (it was not placed by
    the fallback after fifty attempts) lies at Euclidean distance at least
    [MIN_DISTANCE] = 2 from every sphere placed before it. *)
Theorem accepted_points_keep_distance
    (parseColor : string -> OrnamentTree.Color) (config : ConfigType)
    (spherePoints : list R) (g : Rng) (i j : nat) :
  (i < j)%nat -> (j < foliage (counts config))%nat ->
  OrnamentTree.valid
    (OrnamentTree.searchOf parseColor config spherePoints g j) = true ->
  OrnamentTree.MIN_DISTANCE = 2 /\
  OrnamentTree.MIN_DISTANCE
  <= OrnamentTree.distance
       (OrnamentTree.pointAt
          (OrnamentTree.targets
             (OrnamentTree.useMemo parseColor config spherePoints g)) j)
       (OrnamentTree.pointAt
          (OrnamentTree.targets
             (OrnamentTree.useMemo parseColor config spherePoints g)) i).
Proof.
  intros Hij Hj Hvalid.
  split; [unfold OrnamentTree.MIN_DISTANCE; lra|].
  change (OrnamentTree.useMemo parseColor config spherePoints g)
    with (OrnamentTree.afterIterations parseColor config spherePoints g
            (foliage (counts config))).
  destruct (afterIterations_points parseColor config spherePoints g
              (foliage (counts config)) j Hj (Nat.le_refl _)) as [_ Htj].
  destruct (afterIterations_points parseColor config spherePoints g
              (foliage (counts config)) i ltac:(lia) (Nat.le_refl _)) as [_ Hti].
  destruct (afterIterations_points parseColor config spherePoints g
              j i Hij ltac:(lia)) as [Hpi _].
  rewrite Htj, Hti.
  unfold OrnamentTree.searchOf in Hvalid |- * at 1.
  destruct (search_spec (height (tree config)) (radius (tree config))
              (OrnamentTree.placedPositions
                 (OrnamentTree.afterIterations parseColor config spherePoints g j))
              (OrnamentTree.rng
                 (OrnamentTree.afterIterations parseColor config spherePoints g j)))
    as (_ & _ & _ & Hscan & _).
  rewrite Hvalid in Hscan. symmetry in Hscan.
  apply (scanPlaced_true _ _ Hscan).
  rewrite <- Hpi. apply nth_In.
  destruct (afterIterations_sizes parseColor config spherePoints g j) as [-> _].
  exact Hij.
Qed.

(** With the draws of [stepDraws] the second sphere is drawn fourteen units
    above the first, so its first candidate passes the scan. *)
Lemma twoSpheres_second_valid :
  OrnamentTree.valid
    (OrnamentTree.searchOf blackParser twoSpheres [] (mkRng stepDraws 0) 1) = true.
Proof.
  assert (H0 : OrnamentTree.searchOf blackParser twoSpheres [] (mkRng stepDraws 0) 0
               = OrnamentTree.mkSearch
                   (fst (getTreePosition 28 12 (mkRng stepDraws 0))) true 1).
  { unfold OrnamentTree.searchOf, OrnamentTree.afterIterations.
    cbn [forLoop OrnamentTree.initMemo OrnamentTree.placedPositions
         OrnamentTree.rng twoSpheres tree height radius].
    rewrite search_first_valid by reflexivity. reflexivity. }
  destruct (afterIterations_step blackParser twoSpheres [] (mkRng stepDraws 0) 0)
    as [Hp _].
  destruct (afterIterations_rng blackParser twoSpheres [] (mkRng stepDraws 0) 0)
    as [Hd Hc].
  rewrite H0 in Hp, Hc.
  unfold OrnamentTree.searchOf.
  destruct (OrnamentTree.rng
              (OrnamentTree.afterIterations blackParser twoSpheres []
                 (mkRng stepDraws 0) 1)) as [d c].
  cbn in Hd, Hc. subst d c. rewrite Hp.
  unfold OrnamentTree.afterIterations.
  cbn [forLoop OrnamentTree.initMemo OrnamentTree.placedPositions app
       OrnamentTree.cand twoSpheres tree height radius].
  rewrite search_first_valid; [reflexivity|].
  cbn [OrnamentTree.scanPlaced].
  assert (Hy0 : py (fst (getTreePosition 28 12 (mkRng stepDraws 0))) = -14).
  { unfold getTreePosition, bind, ret, Math_random, py, stepDraws; cbn. lra. }
  assert (Hy1 : py (fst (getTreePosition 28 12 (mkRng stepDraws 4))) = 0).
  { unfold getTreePosition, bind, ret, Math_random, py, stepDraws; cbn. lra. }
  rewrite Hy0, Hy1.
  set (dx := px _ - px _). set (dz := pz _ - pz _).
  replace (Rltb _ _) with false; [reflexivity|].
  symmetry. apply Rltb_false. unfold OrnamentTree.MIN_DISTANCE.
  pose proof (Rle_0_sqr dx) as Hx. pose proof (Rle_0_sqr dz) as Hz.
  unfold Rsqr in Hx, Hz. lra.
Qed.

Lemma accepted_points_keep_distance_witness :
  (0 < 1)%nat /\ (1 < foliage (counts twoSpheres))%nat /\
  OrnamentTree.valid
    (OrnamentTree.searchOf blackParser twoSpheres [] (mkRng stepDraws 0) 1) = true /\
  2 <= OrnamentTree.distance
         (OrnamentTree.pointAt
            (OrnamentTree.targets
               (OrnamentTree.useMemo blackParser twoSpheres [] (mkRng stepDraws 0))) 1)
         (OrnamentTree.pointAt
            (OrnamentTree.targets
               (OrnamentTree.useMemo blackParser twoSpheres [] (mkRng stepDraws 0))) 0).
Proof.
  assert (H1 : (0 < 1)%nat) by apply Nat.lt_0_1.
  assert (H2 : (1 < foliage (counts twoSpheres))%nat)
    by (cbn [twoSpheres counts foliage]; apply Nat.lt_succ_diag_r).
  split; [exact H1|]. split; [exact H2|].
  split; [exact twoSpheres_second_valid|].
  destruct (accepted_points_keep_distance blackParser twoSpheres []
              (mkRng stepDraws 0) 0 1 H1 H2 twoSpheres_second_valid)
    as [Hmin Hdist].
  rewrite <- Hmin. exact Hdist.
Defined.

(** ** Population sizes *)

Lemma mapSlots_length (n : nat) (config : ConfigType) (g : Rng) :
  length (fst (FairyLights.mapSlots n config g)) = n.
Proof.
  revert g. induction n as [|k IH]; intros g; [reflexivity|].
  cbn [FairyLights.mapSlots]. unfold bind at 1.
  destruct (FairyLights.generateOne config g) as [d g1].
  unfold bind. specialize (IH g1).
  destruct (FairyLights.mapSlots k config g1) as [ds g2].
  simpl in *. now rewrite IH.
Qed.

Lemma generateOne_length (config : ConfigType) (textures : list string)
    (i : nat) (s : PhotoOrnaments.Gen) :
  length (PhotoOrnaments.generatedData
            (PhotoOrnaments.generateOne config textures i s))
  = S (length (PhotoOrnaments.generatedData s)).
Proof.
  unfold PhotoOrnaments.generateOne.
  cbv zeta.
  destruct (bind Math_random _ (PhotoOrnaments.rng s)) as [[t d] g1].
  cbn [PhotoOrnaments.generatedData]. rewrite length_app. simpl. lia.
Qed.

Lemma photo_useMemo_length (state : SceneMode) (config : ConfigType)
    (textures : list string) (g : Rng) :
  length (PhotoOrnaments.useMemo state config textures g)
  = PhotoOrnaments.count state config textures.
Proof.
  unfold PhotoOrnaments.useMemo.
  apply (forLoop_invariant
           (fun k s => length (PhotoOrnaments.generatedData s) = k)).
  - reflexivity.
  - intros k t _ Hk. now rewrite generateOne_length, Hk.
Qed.

(** C2 (as amended).  The foliage population has the configured count (500)
    and the fairy-light population the configured count (200), whatever the
    scene mode, and a frame changes neither.  The photo-ornament population
    is built for a scene mode: it has one ornament per available photo in
    CHAOS mode and min(configured cap, available photos) ornaments, the cap
    being 50, in FORMED mode. *)
Theorem population_sizes
    (parseColor : string -> OrnamentTree.Color) (config : ConfigType)
    (spherePoints : list R) (g : Rng) (photos : list string) :
  (forall c, counts (createConfig c) = mkCounts 500 50 200) /\
  length (OrnamentTree.placedPositions
            (OrnamentTree.useMemo parseColor config spherePoints g))
  = foliage (counts config) /\
  length (FairyLights.useMemo config g) = lights (counts config) /\
  length (PhotoOrnaments.useMemo CHAOS config
            (PhotoOrnaments.useTexture photos) g)
  = length photos /\
  length (PhotoOrnaments.useMemo FORMED config
            (PhotoOrnaments.useTexture photos) g)
  = Nat.min (ornaments (counts config)) (length photos) /\
  (forall state count targets randoms time delta instances,
     exists instances',
       OrnamentTree.useFrame state count targets randoms time delta
         (Some instances) = Some instances' /\
       length instances' = length instances) /\
  (forall state time delta children data,
     length (snd (FairyLights.useFrame state time delta children data))
     = length data) /\
  (forall lookAt state time delta children data,
     length (snd (PhotoOrnaments.useFrame lookAt state time delta children data))
     = length data).
Proof.
  split; [reflexivity|].
  split; [apply (afterIterations_sizes parseColor config spherePoints g)|].
  split; [apply mapSlots_length|].
  split; [apply photo_useMemo_length|].
  split; [apply photo_useMemo_length|].
  split; [|split].
  - intros state count targets randoms time delta instances.
    eexists; split; [reflexivity|].
    apply (forLoop_store_nth
             (OrnamentTree.frameInstance state targets randoms time delta)
             OrnamentTree.identity count instances).
  - intros state time delta [cs|] data; [|reflexivity].
    unfold FairyLights.useFrame.
    pose proof (forEachChild_length (FairyLights.frameChild state time delta)
                  cs data 0) as [_ Hd].
    destruct (forEachChild _ 0%nat cs data) as [cs' ds']. exact Hd.
  - intros lookAt state time delta [cs|] data; [|reflexivity].
    unfold PhotoOrnaments.useFrame.
    pose proof (forEachChild_length
                  (PhotoOrnaments.frameChild lookAt state time delta)
                  cs data 0) as [_ Hd].
    destruct (forEachChild _ 0%nat cs data) as [cs' ds']. exact Hd.
Qed.

(** C2 as stated fails: in CHAOS mode the photo-ornament population is not
    capped.  With 60 photos and the cap of 50 it has 60 ornaments in CHAOS
    mode and 50 in FORMED mode, so its size depends on the scene mode. *)
Lemma photo_population_counterexample :
  length (PhotoOrnaments.useMemo CHAOS (createConfig traditional)
            (PhotoOrnaments.useTexture (repeat "blob:photo"%string 60))
            (mkRng stepDraws 0))
  <> Nat.min (ornaments (counts (createConfig traditional)))
             (length (repeat "blob:photo"%string 60)) /\
  length (PhotoOrnaments.useMemo CHAOS (createConfig traditional)
            (PhotoOrnaments.useTexture (repeat "blob:photo"%string 60))
            (mkRng stepDraws 0)) = 60%nat /\
  length (PhotoOrnaments.useMemo FORMED (createConfig traditional)
            (PhotoOrnaments.useTexture (repeat "blob:photo"%string 60))
            (mkRng stepDraws 0)) = 50%nat.
Proof.
  rewrite !photo_useMemo_length. repeat split; vm_compute; congruence.
Qed.

(** * Further properties of the scene code *)

(** ** Where the placement puts its points *)

Lemma stepDraws_unit (c : nat) : unitDraws (mkRng stepDraws c).
Proof.
  intros n. unfold stepDraws; simpl. destruct (n <? 4)%nat; lra.
Qed.

(** The candidate of [getTreePosition]: its height and its squared distance
    from the axis. *)
Lemma getTreePosition_bounds (h rBase : R) (g : Rng) :
  0 < h -> 0 <= rBase -> unitDraws g ->
  let p := fst (getTreePosition h rBase g) in
  let ringRadius := rBase * (1 - (py p + h / 2) / h) in
  - h / 2 <= py p < h / 2 /\
  0 <= ringRadius <= rBase /\
  0.5 * (ringRadius * ringRadius) <= px p * px p + pz p * pz p
    <= ringRadius * ringRadius.
Proof.
  intros Hh Hr Hu. cbv zeta.
  unfold getTreePosition, bind, ret, Math_random, px, py, pz; cbn [fst snd draws cursor].
  pose proof (Hu (cursor g)) as [U1 U1'].
  pose proof (Hu (S (S (cursor g)))) as [U3 U3'].
  set (u1 := draws g (cursor g)) in *.
  set (u3 := draws g (S (S (cursor g)))) in *.
  set (theta := draws g (S (cursor g)) * PI * 2).
  assert (Hn : (u1 * h - h / 2 + h / 2) / h = u1) by (field; lra).
  rewrite Hn.
  assert (Hy : - h / 2 <= u1 * h - h / 2 < h / 2) by nra.
  split; [exact Hy|].
  assert (Hring : 0 <= rBase * (1 - u1) <= rBase) by nra.
  split; [exact Hring|].
  set (R0 := rBase * (1 - u1)) in *.
  assert (Hs : sqrt (0.5 + 0.5 * u3) * sqrt (0.5 + 0.5 * u3) = 0.5 + 0.5 * u3)
    by (apply sqrt_sqrt; lra).
  pose proof (sin2_cos2 theta) as Hsc. unfold Rsqr in Hsc.
  set (q := sqrt (0.5 + 0.5 * u3)) in *.
  assert (Hsum : R0 * q * cos theta * (R0 * q * cos theta)
                 + R0 * q * sin theta * (R0 * q * sin theta)
                 = R0 * R0 * (0.5 + 0.5 * u3)).
  { transitivity (R0 * R0 * (q * q)
                  * (sin theta * sin theta + cos theta * cos theta)); [ring|].
    rewrite Hsc, Hs. ring. }
  rewrite Hsum.
  assert (0 <= R0 * R0) by nra. nra.
Qed.

(** X1.  A candidate of [getTreePosition] for a cone of positive height lies
    between the base and the apex, and its distance from the axis is between
    [sqrt 0.5] times the radius of the cone at its height and that radius. *)
Theorem tree_position_in_cone (h rBase : R) (g : Rng) :
  0 < h -> 0 <= rBase -> unitDraws g ->
  let p := fst (getTreePosition h rBase g) in
  let ringRadius := rBase * (1 - (py p + h / 2) / h) in
  - h / 2 <= py p < h / 2 /\
  0 <= ringRadius <= rBase /\
  0.5 * (ringRadius * ringRadius) <= px p * px p + pz p * pz p
    <= ringRadius * ringRadius.
Proof. exact (getTreePosition_bounds h rBase g). Qed.

Lemma tree_position_in_cone_witness :
  - 28 / 2 <= py (fst (getTreePosition 28 12 (mkRng stepDraws 0))) < 28 / 2.
Proof.
  refine (proj1 (tree_position_in_cone 28 12 (mkRng stepDraws 0) _ _
                   (stepDraws_unit 0))); lra.
Defined.

(** Writing one sphere into a flat array changes that sphere only. *)
Lemma pointAt_store3 (a : list R) (k j : nat) (x y z : R) :
  (k * 3 + 2 < length a)%nat ->
  OrnamentTree.pointAt
    (store (k * 3 + 2) z (store (k * 3 + 1) y (store (k * 3) x a))) j
  = if (j =? k)%nat then (x, y, z) else OrnamentTree.pointAt a j.
Proof.
  intros Hk. unfold OrnamentTree.pointAt.
  destruct (Nat.eqb_spec j k) as [->|Hne].
  - rewrite (nth_store_other (k * 3 + 2) (k * 3)) by lia.
    rewrite (nth_store_other (k * 3 + 1) (k * 3)) by lia.
    rewrite nth_store_same by lia.
    rewrite (nth_store_other (k * 3 + 2) (k * 3 + 1)) by lia.
    rewrite nth_store_same by (rewrite store_length; lia).
    rewrite nth_store_same by (rewrite !store_length; lia).
    reflexivity.
  - rewrite !nth_store_other by lia. reflexivity.
Qed.

Section PlacementArrays.

Variable parseColor : string -> OrnamentTree.Color.
Variable config : ConfigType.
Variable spherePoints : list R.
Variable g : Rng.

Local Abbreviation count := (foliage (counts config)).
Local Abbreviation after :=
  (OrnamentTree.afterIterations parseColor config spherePoints g).
Local Abbreviation searchOf :=
  (OrnamentTree.searchOf parseColor config spherePoints g).

(** The loop never replaces the stream of draws. *)
Lemma afterIterations_draws (k : nat) :
  draws (OrnamentTree.rng (after k)) = draws g.
Proof.
  induction k as [|k IH]; [reflexivity|].
  destruct (afterIterations_rng parseColor config spherePoints g k) as [Hd _].
  congruence.
Qed.

Local Abbreviation drawOf :=
  (colourDraw parseColor config spherePoints g).

(** Iteration [k] copies sphere [k] of [spherePoints] and writes the colour
    its draw picks. *)
Lemma afterIterations_step_arrays (k : nat) :
  OrnamentTree.randoms (after (S k))
  = store (k * 3 + 2) (nth (k * 3 + 2) spherePoints 0)
      (store (k * 3 + 1) (nth (k * 3 + 1) spherePoints 0)
         (store (k * 3) (nth (k * 3) spherePoints 0)
            (OrnamentTree.randoms (after k)))) /\
  OrnamentTree.colorsArr (after (S k))
  = let col := pickColour parseColor config (drawOf k) in
    store (k * 3 + 2) (OrnamentTree.cb col)
      (store (k * 3 + 1) (OrnamentTree.cg col)
         (store (k * 3) (OrnamentTree.cr col)
            (OrnamentTree.colorsArr (after k)))).
Proof.
  rewrite afterIterations_S. unfold colourDraw, pickColour.
  unfold OrnamentTree.searchOf.
  pose proof (afterIterations_draws k) as Hdraws.
  unfold OrnamentTree.placeOne.
  destruct (search_spec (height (tree config)) (radius (tree config))
              (OrnamentTree.placedPositions (after k))
              (OrnamentTree.rng (after k))) as (_ & _ & _ & _ & Hd & Hc).
  destruct (OrnamentTree.search _ _ _ _) as [s g1].
  cbn [fst snd] in *. unfold Math_random.
  cbn [OrnamentTree.randoms OrnamentTree.colorsArr].
  rewrite Hd, Hc, Hdraws. split; reflexivity.
Qed.

Lemma afterIterations_array_sizes (k : nat) :
  length (OrnamentTree.randoms (after k)) = (count * 3)%nat /\
  length (OrnamentTree.colorsArr (after k)) = (count * 3)%nat.
Proof.
  induction k as [|k [IHr IHc]].
  - unfold OrnamentTree.afterIterations; simpl.
    split; apply repeat_length.
  - destruct (afterIterations_step_arrays k) as [-> ->].
    cbv zeta. rewrite !store_length. split; assumption.
Qed.

(** After [k] iterations the first [k] spheres of [randoms] are those of
    [spherePoints] and the first [k] colours are the picked ones. *)
Lemma afterIterations_arrays (k j : nat) :
  (j < k)%nat -> (k <= count)%nat ->
  OrnamentTree.pointAt (OrnamentTree.randoms (after k)) j
    = OrnamentTree.pointAt spherePoints j /\
  OrnamentTree.pointAt (OrnamentTree.colorsArr (after k)) j
    = (OrnamentTree.cr (pickColour parseColor config (drawOf j)),
       OrnamentTree.cg (pickColour parseColor config (drawOf j)),
       OrnamentTree.cb (pickColour parseColor config (drawOf j))).
Proof.
  induction k as [|k IH]; intros Hj Hk; [lia|].
  destruct (afterIterations_step_arrays k) as [Hr Hc].
  destruct (afterIterations_array_sizes k) as [Lr Lc].
  rewrite Hr, Hc. cbv zeta. rewrite !pointAt_store3 by lia.
  destruct (Nat.eqb_spec j k) as [->|Hne].
  - split; reflexivity.
  - apply IH; lia.
Qed.

End PlacementArrays.

(** A draw below 1 picks one of the five palette entries. *)
Lemma pickColour_in_palette (parseColor : string -> OrnamentTree.Color)
    (config : ConfigType) (u : R) :
  0 <= u < 1 ->
  In (pickColour parseColor config u)
     (OrnamentTree.colorPalette parseColor config).
Proof.
  intros Hu. unfold pickColour. apply nth_In.
  unfold OrnamentTree.colorPalette; cbn [length].
  unfold Math_floor.
  replace (INR 5) with 5 by (simpl; lra).
  destruct (base_Int_part (u * 5)) as [Hlo Hhi].
  assert (Hz : (0 <= Int_part (u * 5) < 5)%Z).
  { split.
    - apply le_IZR. 
      destruct (Z_lt_le_dec (Int_part (u * 5)) 0) as [Hneg|]; [|apply IZR_le; assumption].
      apply IZR_le. assert (Int_part (u * 5) <= -1)%Z by lia.
      apply IZR_le in H. lra.
    - apply lt_IZR. lra. }
  lia.
Qed.

(** X2.  With draws in [[0, 1)] and a cone of positive height, every target
    position of the foliage lies inside the cylinder around the cone:
    between [-height / 2] and [height / 2], at most [radius] from the
    axis. *)
Theorem foliage_targets_in_cylinder
    (parseColor : string -> OrnamentTree.Color) (config : ConfigType)
    (spherePoints : list R) (g : Rng) (i : nat) :
  0 < height (tree config) -> 0 <= radius (tree config) -> unitDraws g ->
  (i < foliage (counts config))%nat ->
  let p := OrnamentTree.pointAt
             (OrnamentTree.targets
                (OrnamentTree.useMemo parseColor config spherePoints g)) i in
  - height (tree config) / 2 <= py p < height (tree config) / 2 /\
  px p * px p + pz p * pz p <= radius (tree config) * radius (tree config).
Proof.
  intros Hh Hr Hu Hi. cbv zeta.
  change (OrnamentTree.useMemo parseColor config spherePoints g)
    with (OrnamentTree.afterIterations parseColor config spherePoints g
            (foliage (counts config))).
  destruct (afterIterations_points parseColor config spherePoints g
              (foliage (counts config)) i Hi (Nat.le_refl _)) as [_ ->].
  unfold OrnamentTree.searchOf.
  destruct (search_spec (height (tree config)) (radius (tree config))
              (OrnamentTree.placedPositions
                 (OrnamentTree.afterIterations parseColor config spherePoints g i))
              (OrnamentTree.rng
                 (OrnamentTree.afterIterations parseColor config spherePoints g i)))
    as (_ & _ & -> & _).
  rewrite afterIterations_draws.
  match goal with
  | |- context [getTreePosition _ _ ?rng] =>
      destruct (getTreePosition_bounds (height (tree config))
                  (radius (tree config)) rng Hh Hr Hu)
        as (Hy & Hring & _ & Hxz)
  end.
  split; [exact Hy|]. nra.
Qed.

Lemma foliage_targets_in_cylinder_witness :
  px (OrnamentTree.pointAt
        (OrnamentTree.targets
           (OrnamentTree.useMemo blackParser (createConfig traditional) []
              (mkRng stepDraws 0))) 499)
  * px (OrnamentTree.pointAt
          (OrnamentTree.targets
             (OrnamentTree.useMemo blackParser (createConfig traditional) []
                (mkRng stepDraws 0))) 499)
  + pz (OrnamentTree.pointAt
          (OrnamentTree.targets
             (OrnamentTree.useMemo blackParser (createConfig traditional) []
                (mkRng stepDraws 0))) 499)
    * pz (OrnamentTree.pointAt
            (OrnamentTree.targets
               (OrnamentTree.useMemo blackParser (createConfig traditional) []
                  (mkRng stepDraws 0))) 499)
  <= 12 * 12.
Proof.
  refine (proj2 (foliage_targets_in_cylinder blackParser
                   (createConfig traditional) [] (mkRng stepDraws 0) 499
                   _ _ (stepDraws_unit 0) _)).
  - unfold createConfig; cbn [tree height]. lra.
  - unfold createConfig; cbn [tree radius]. lra.
  - unfold createConfig; cbn [counts foliage]. apply Nat.lt_succ_diag_r.
Defined.

(** X3.  With draws in [[0, 1)] the colour written for every foliage sphere
    is one of the five palette entries, that is the gold, the red or the
    green of the theme. *)
Theorem foliage_colours_from_palette
    (parseColor : string -> OrnamentTree.Color) (config : ConfigType)
    (spherePoints : list R) (g : Rng) (i : nat) :
  unitDraws g -> (i < foliage (counts config))%nat ->
  exists col,
    In col [parseColor (gold (colors config));
            parseColor (red (colors config));
            parseColor (green (colors config))] /\
    OrnamentTree.pointAt
      (OrnamentTree.colorsArr
         (OrnamentTree.useMemo parseColor config spherePoints g)) i
    = (OrnamentTree.cr col, OrnamentTree.cg col, OrnamentTree.cb col).
Proof.
  intros Hu Hi.
  change (OrnamentTree.useMemo parseColor config spherePoints g)
    with (OrnamentTree.afterIterations parseColor config spherePoints g
            (foliage (counts config))).
  destruct (afterIterations_arrays parseColor config spherePoints g
              (foliage (counts config)) i Hi (Nat.le_refl _)) as [_ Hc].
  exists (pickColour parseColor config
            (colourDraw parseColor config spherePoints g i)).
  split; [|exact Hc].
  pose proof (pickColour_in_palette parseColor config
                (colourDraw parseColor config spherePoints g i) (Hu _)) as Hin.
  unfold OrnamentTree.colorPalette in Hin. simpl in Hin |- *. tauto.
Qed.

Lemma foliage_colours_from_palette_witness :
  exists col,
    In col [blackParser (gold (colors twoSpheres));
            blackParser (red (colors twoSpheres));
            blackParser (green (colors twoSpheres))] /\
    OrnamentTree.pointAt
      (OrnamentTree.colorsArr
         (OrnamentTree.useMemo blackParser twoSpheres [] (mkRng stepDraws 0))) 1
    = (OrnamentTree.cr col, OrnamentTree.cg col, OrnamentTree.cb col).
Proof.
  apply (foliage_colours_from_palette blackParser twoSpheres []
           (mkRng stepDraws 0) 1 (stepDraws_unit 0)).
  cbn [twoSpheres counts foliage]. apply Nat.lt_succ_diag_r.
Defined.

(** X4.  When [spherePoints] has one point per sphere, the chaos positions
    of the foliage are exactly the points of [spherePoints]: the placement
    copies them and alters none. *)
Theorem foliage_chaos_positions_copied
    (parseColor : string -> OrnamentTree.Color) (config : ConfigType)
    (spherePoints : list R) (g : Rng) :
  length spherePoints = (foliage (counts config) * 3)%nat ->
  OrnamentTree.randoms (OrnamentTree.useMemo parseColor config spherePoints g)
  = spherePoints.
Proof.
  intros Hlen.
  change (OrnamentTree.useMemo parseColor config spherePoints g)
    with (OrnamentTree.afterIterations parseColor config spherePoints g
            (foliage (counts config))).
  destruct (afterIterations_array_sizes parseColor config spherePoints g
              (foliage (counts config))) as [Lr _].
  apply (nth_ext _ _ 0 0); [congruence|].
  intros n Hn. rewrite Lr in Hn.
  pose proof (Nat.div_mod_eq n 3) as Hdm.
  pose proof (Nat.mod_upper_bound n 3 ltac:(discriminate)) as Hm.
  remember (n / 3)%nat as j eqn:Ej. remember (n mod 3)%nat as c eqn:Ec.
  assert (Hj : (j < foliage (counts config))%nat) by lia.
  destruct (afterIterations_arrays parseColor config spherePoints g
              (foliage (counts config)) j Hj (Nat.le_refl _)) as [Hp _].
  unfold OrnamentTree.pointAt in Hp. injection Hp as H0 H1 H2.
  destruct c as [|[|[|c]]]; try lia.
  - replace n with (j * 3)%nat by lia. exact H0.
  - replace n with (j * 3 + 1)%nat by lia. exact H1.
  - replace n with (j * 3 + 2)%nat by lia. exact H2.
Qed.

Lemma foliage_chaos_positions_copied_witness :
  OrnamentTree.randoms
    (OrnamentTree.useMemo blackParser twoSpheres [1; 2; 3; 4; 5; 6]
       (mkRng stepDraws 0))
  = [1; 2; 3; 4; 5; 6].
Proof.
  apply (foliage_chaos_positions_copied blackParser twoSpheres
           [1; 2; 3; 4; 5; 6] (mkRng stepDraws 0)).
  reflexivity.
Defined.

(** ** Where the photo search puts its points *)

Lemma Math_pow_unit (u : R) : 0 <= u < 1 -> 0 <= Math_pow u 1.5 <= 1.
Proof.
  intros [Hlo Hhi]. unfold Math_pow.
  destruct (Req_dec_T u 0) as [_|Hne]; [lra|].
  unfold Rpower. split; [left; apply exp_pos|].
  left. rewrite <- exp_0. apply exp_increasing.
  assert (Hln : ln u < 0) by (rewrite <- ln_1; apply ln_increasing; lra).
  lra.
Qed.

Lemma photoCandidate_rng (h rBase : R) (g : Rng) :
  snd (photoCandidate h rBase g) = mkRng (draws g) (cursor g + 2).
Proof.
  unfold photoCandidate, bind, ret, Math_random; cbn [snd draws cursor].
  f_equal. lia.
Qed.

Lemma photoCandidate_onSurface (h rBase : R) (g : Rng) :
  0 < h -> unitDraws g ->
  onPhotoSurface h rBase (fst (photoCandidate h rBase g)).
Proof.
  intros Hh Hu. unfold onPhotoSurface.
  unfold photoCandidate, bind, ret, Math_random; cbn [fst snd draws cursor vx vy vz].
  pose proof (Math_pow_unit _ (Hu (cursor g))) as Hp.
  set (w := Math_pow (draws g (cursor g)) 1.5) in *.
  set (theta := draws g (S (cursor g)) * PI * 2).
  split.
  - assert (0 <= h / 3 - - h / 2.2) by lra. nra.
  - pose proof (sin2_cos2 theta) as Hsc. unfold Rsqr in Hsc.
    set (r := rBase * (1 - (- h / 2.2 + (h / 3 - - h / 2.2) * w + h / 2) / h) + 0.5).
    transitivity (r * r * (sin theta * sin theta + cos theta * cos theta)); [ring|].
    rewrite Hsc. ring.
Qed.

(** A point of the photo surface is not the origin. *)
Lemma onPhotoSurface_lengthSq (h rBase : R) (p : Vector3) :
  0 < h -> 0 <= rBase -> onPhotoSurface h rBase p ->
  ThreeMath.lengthSq p <> 0.
Proof.
  intros Hh Hr [[Hlo Hhi] Hxz]. unfold ThreeMath.lengthSq.
  assert (Hn : 0 <= 1 - (vy p + h / 2) / h).
  { assert ((vy p + h / 2) / h <= 1); [|lra].
    apply (Rmult_le_reg_r h); [exact Hh|]. field_simplify; lra. }
  assert (Hring : 0 <= rBase * (1 - (vy p + h / 2) / h)) by nra.
  pose proof (Rle_0_sqr (vy p)) as Hy. unfold Rsqr in Hy. nra.
Qed.

Lemma closest_nonneg (c : Vector3) (placed : list Vector3) :
  0 <= PhotoOrnaments.closest c placed.
Proof.
  unfold PhotoOrnaments.closest.
  assert (H : forall m, 0 <= m ->
            0 <= fold_left
                   (fun minDist p =>
                      let d := ThreeMath.distanceTo c p in
                      if Rltb d minDist then d else minDist) placed m).
  { induction placed as [|p rest IH]; intros m Hm; [exact Hm|].
    simpl. apply IH. destruct (Rltb _ m); [apply sqrt_pos | exact Hm]. }
  apply H. lra.
Qed.

(** The closest distance is below every distance to a placed photo. *)
Lemma closest_le (c : Vector3) (placed : list Vector3) (p : Vector3) :
  In p placed -> PhotoOrnaments.closest c placed <= ThreeMath.distanceTo c p.
Proof.
  unfold PhotoOrnaments.closest.
  assert (Hmono : forall l m,
            fold_left
              (fun minDist q =>
                 let d := ThreeMath.distanceTo c q in
                 if Rltb d minDist then d else minDist) l m <= m).
  { induction l as [|q rest IH]; intros m; [simpl; lra|].
    simpl. destruct (Rltb _ m) eqn:E.
    - apply Rltb_true in E. eapply Rle_trans; [apply IH|]. lra.
    - apply IH. }
  generalize 1000.
  induction placed as [|q rest IH]; intros m Hin; [contradiction|].
  simpl. destruct Hin as [->|Hin]; [|apply IH; exact Hin].
  destruct (Rltb _ m) eqn:E.
  - apply Hmono.
  - apply Rltb_false in E. eapply Rle_trans; [apply Hmono|]. exact E.
Qed.

(** The closest distance is the starting value 1000 or the distance to one
    of the placed photos. *)
Lemma closest_attained (c : Vector3) (placed : list Vector3) :
  PhotoOrnaments.closest c placed = 1000 \/
  exists p, In p placed /\
            PhotoOrnaments.closest c placed = ThreeMath.distanceTo c p.
Proof.
  unfold PhotoOrnaments.closest. generalize 1000.
  induction placed as [|q rest IH]; intros m; [left; reflexivity|].
  simpl. destruct (Rltb _ m).
  - right. destruct (IH (ThreeMath.distanceTo c q)) as [->|(p & Hin & ->)].
    + exists q. split; [left; reflexivity | reflexivity].
    + exists p. split; [right; exact Hin | reflexivity].
  - destruct (IH m) as [->|(p & Hin & ->)]; [left; reflexivity|].
    right. exists p. split; [right; exact Hin | reflexivity].
Qed.

(** One round of the photo search. *)
Lemma attemptLoop_step (k : nat) (h rBase : R) (placed : list Vector3)
    (t0 b0 : Vector3) (m0 : R) (g : Rng) :
  PhotoOrnaments.attemptLoop (S k) h rBase placed t0 b0 m0 g
  = let c := fst (photoCandidate h rBase g) in
    let g1 := snd (photoCandidate h rBase g) in
    let minDist := PhotoOrnaments.closest c placed in
    if Rgtb minDist PhotoOrnaments.minDistance then ((c, b0), g1)
    else if Rgtb minDist m0
         then PhotoOrnaments.attemptLoop k h rBase placed t0 c minDist g1
         else PhotoOrnaments.attemptLoop k h rBase placed t0 b0 m0 g1.
Proof.
  cbn [PhotoOrnaments.attemptLoop]. unfold photoCandidate, bind, ret, Math_random.
  cbn [fst snd]. cbv zeta.
  destruct (Rgtb _ PhotoOrnaments.minDistance); [reflexivity|].
  destruct (Rgtb _ m0); reflexivity.
Qed.

Lemma photoCandidateAt_0 (h rBase : R) (g : Rng) :
  fst (photoCandidate h rBase g) = photoCandidateAt h rBase g 0.
Proof.
  unfold photoCandidateAt. rewrite Nat.mul_0_r, Nat.add_0_r.
  destruct g; reflexivity.
Qed.

Lemma photoCandidateAt_shift (h rBase : R) (g : Rng) (i : nat) :
  photoCandidateAt h rBase (snd (photoCandidate h rBase g)) i
  = photoCandidateAt h rBase g (S i).
Proof.
  rewrite photoCandidate_rng. unfold photoCandidateAt. cbn [draws cursor].
  do 3 f_equal. lia.
Qed.

(** The photo search, told by its candidates: it stops at the first
    candidate whose closest placed photo is farther than [minDistance];
    when none of its [n] candidates is, it leaves [targetPos] alone and
    [bestPos] is the first candidate with the largest such distance, unless
    none beat the distance [bestPos] came with. *)
Lemma attemptLoop_spec (n : nat) (h rBase : R) (placed : list Vector3)
    (t0 b0 : Vector3) (m0 : R) (g : Rng) :
  let res := PhotoOrnaments.attemptLoop n h rBase placed t0 b0 m0 g in
  let t := fst (fst res) in
  let b := snd (fst res) in
  let clear := fun k =>
    PhotoOrnaments.closest (photoCandidateAt h rBase g k) placed in
  draws (snd res) = draws g /\
  ((exists j, (j < n)%nat /\ t = photoCandidateAt h rBase g j /\
              clear j > PhotoOrnaments.minDistance /\
              forall i, (i < j)%nat -> clear i <= PhotoOrnaments.minDistance)
   \/
   (t = t0 /\
    (forall i, (i < n)%nat -> clear i <= PhotoOrnaments.minDistance) /\
    ((b = b0 /\ forall i, (i < n)%nat -> clear i <= m0)
     \/
     (exists j, (j < n)%nat /\ b = photoCandidateAt h rBase g j /\
                m0 < clear j /\
                (forall i, (i < n)%nat -> clear i <= clear j) /\
                forall i, (i < j)%nat -> clear i < clear j)))).
Proof.
  revert t0 b0 m0 g. induction n as [|k IH]; intros t0 b0 m0 g; cbv zeta.
  - simpl. split; [reflexivity|]. right. split; [reflexivity|].
    split; [intros; lia|]. left. split; [reflexivity | intros; lia].
  - rewrite attemptLoop_step. cbv zeta.
    rewrite (photoCandidateAt_0 h rBase g).
    set (g1 := snd (photoCandidate h rBase g)).
    assert (Hg1 : draws g1 = draws g)
      by (unfold g1; rewrite photoCandidate_rng; reflexivity).
    assert (Hshift : forall i,
              PhotoOrnaments.closest (photoCandidateAt h rBase g1 i) placed
              = PhotoOrnaments.closest (photoCandidateAt h rBase g (S i)) placed).
    { intros i. unfold g1. now rewrite photoCandidateAt_shift. }
    set (c0 := PhotoOrnaments.closest (photoCandidateAt h rBase g 0) placed).
    destruct (Rgtb (c0) PhotoOrnaments.minDistance) eqn:Hfar.
    + cbn [fst snd]. split; [exact Hg1|]. left. exists 0%nat.
      apply Rgtb_true in Hfar. repeat split; try lia; try assumption.
    + apply Rgtb_false in Hfar.
      destruct (Rgtb (c0) m0) eqn:Hbest.
      * apply Rgtb_true in Hbest.
        specialize (IH t0 (photoCandidateAt h rBase g 0) c0 g1).
        cbv zeta in IH. destruct IH as [Hd IH].
        split; [congruence|].
        destruct IH as [(j & Hj & Ht & Hc & Hbefore)
                       |(Ht & Hall & [[Hb Hle]|(j & Hj & Hb & Hm & Hle & Hfirst)])].
        -- left. exists (S j). rewrite Hshift in Hc.
           unfold g1 in Ht. rewrite photoCandidateAt_shift in Ht.
           repeat split; try lia; try assumption.
           intros [|i] Hi; [exact Hfar|]. rewrite <- Hshift. apply Hbefore. lia.
        -- right. split; [exact Ht|]. split.
           { intros [|i] Hi; [exact Hfar|]. rewrite <- Hshift. apply Hall. lia. }
           right. exists 0%nat.
           split; [lia|]. split; [exact Hb|]. split; [exact Hbest|]. split.
           ++ intros [|i] Hi; [unfold c0; lra|]. rewrite <- Hshift. apply Hle. lia.
           ++ intros i Hi. lia.
        -- right. split; [exact Ht|]. split.
           { intros [|i] Hi; [exact Hfar|]. rewrite <- Hshift. apply Hall. lia. }
           right. exists (S j). rewrite Hshift in Hm.
           unfold g1 in Hb. rewrite photoCandidateAt_shift in Hb.
           split; [lia|]. split; [exact Hb|]. split; [unfold c0 in *; lra|]. split.
           ++ intros [|i] Hi; [unfold c0 in *; lra|].
              rewrite <- !Hshift. apply Hle. lia.
           ++ intros [|i] Hi; [exact Hm|].
              rewrite <- !Hshift. apply Hfirst. lia.
      * apply Rgtb_false in Hbest.
        specialize (IH t0 b0 m0 g1).
        cbv zeta in IH. destruct IH as [Hd IH].
        split; [congruence|].
        destruct IH as [(j & Hj & Ht & Hc & Hbefore)
                       |(Ht & Hall & [[Hb Hle]|(j & Hj & Hb & Hm & Hle & Hfirst)])].
        -- left. exists (S j). rewrite Hshift in Hc.
           unfold g1 in Ht. rewrite photoCandidateAt_shift in Ht.
           repeat split; try lia; try assumption.
           intros [|i] Hi; [exact Hfar|]. rewrite <- Hshift. apply Hbefore. lia.
        -- right. split; [exact Ht|]. split.
           { intros [|i] Hi; [exact Hfar|]. rewrite <- Hshift. apply Hall. lia. }
           left. split; [exact Hb|].
           intros [|i] Hi; [exact Hbest|]. rewrite <- Hshift. apply Hle. lia.
        -- right. split; [exact Ht|]. split.
           { intros [|i] Hi; [exact Hfar|]. rewrite <- Hshift. apply Hall. lia. }
           right. exists (S j). rewrite Hshift in Hm.
           unfold g1 in Hb. rewrite photoCandidateAt_shift in Hb.
           split; [lia|]. split; [exact Hb|]. split; [exact Hm|]. split.
           ++ intros [|i] Hi; [unfold c0 in *; lra|].
              rewrite <- !Hshift. apply Hle. lia.
           ++ intros [|i] Hi; [unfold c0 in *; lra|].
              rewrite <- !Hshift. apply Hfirst. lia.
Qed.

(** One photo: what [generateOne] appends. *)
Lemma generateOne_spec (config : ConfigType) (textures : list string)
    (g : Rng) (i : nat) (s : PhotoOrnaments.Gen) :
  draws (PhotoOrnaments.rng s) = draws g ->
  exists d g',
    PhotoOrnaments.generateOne config textures i s
    = PhotoOrnaments.mkGen (PhotoOrnaments.generatedData s ++ [d])
        (PhotoOrnaments.positions s ++ [PhotoOrnaments.targetPos d]) g' /\
    draws g' = draws g /\
    photoDatumOk config textures g i d (PhotoOrnaments.positions s)
      (PhotoOrnaments.rng s).
Proof.
  intros Hdraws. unfold PhotoOrnaments.generateOne. cbv zeta.
  unfold bind at 1 2 3 4. unfold Math_random at 1 2 3. cbn [fst snd draws cursor].
  set (gA := mkRng (draws (PhotoOrnaments.rng s))
               (S (S (S (cursor (PhotoOrnaments.rng s)))))).
  pose proof (attemptLoop_spec 20 (height (tree config)) (radius (tree config))
                (PhotoOrnaments.positions s) (mkVector3 0 0 0) (mkVector3 0 0 0)
                (-1) gA) as Hspec.
  cbv zeta in Hspec.
  destruct (PhotoOrnaments.attemptLoop 20 _ _ _ _ _ _ gA) as [[t b] g2].
  cbn [fst snd] in Hspec. destruct Hspec as [Hd2 Hcases].
  unfold bind, ret, Math_random. cbn [fst snd draws cursor].
  match goal with
  | |- exists d g',
         {| PhotoOrnaments.generatedData := _ ++ [?d0];
            PhotoOrnaments.positions := _;
            PhotoOrnaments.rng := ?g0 |} = _ /\ _ =>
      exists d0, g0
  end.
  split; [reflexivity|].
  split; [cbn [draws]; unfold gA in Hd2; cbn [draws] in Hd2; congruence|].
  unfold photoDatumOk.
  cbn [PhotoOrnaments.textureIndex PhotoOrnaments.currentPos
       PhotoOrnaments.chaosPos PhotoOrnaments.dataScale
       PhotoOrnaments.targetPos vx vy vz].
  split; [reflexivity|]. split; [reflexivity|]. split; [reflexivity|]. split.
  - intros Hu. rewrite Hdraws.
    pose proof (Hu (cursor (PhotoOrnaments.rng s))).
    pose proof (Hu (S (cursor (PhotoOrnaments.rng s)))).
    pose proof (Hu (S (S (cursor (PhotoOrnaments.rng s))))).
    repeat split; lra.
  - intros Hh Hr Hu. split; [exact Hdraws|].
    change (mkRng (draws (PhotoOrnaments.rng s))
              (3 + cursor (PhotoOrnaments.rng s))) with gA.
    assert (HuA : forall k, unitDraws
                    (mkRng (draws gA) (cursor gA + 2 * k))).
    { intros k n. unfold gA; cbn [draws]. rewrite Hdraws. apply Hu. }
    unfold photoSearchOutcome. cbv zeta.
    destruct Hcases as [(j & Hj & Ht & Hc & Hbefore)
                       |(Ht & Hall & [[Hb Hle]|(j & Hj & Hb & Hm & Hle & Hfirst)])].
    + left. exists j.
      assert (Hnz : ThreeMath.lengthSq t <> 0).
      { rewrite Ht. apply (onPhotoSurface_lengthSq _ _ _ Hh Hr).
        apply photoCandidate_onSurface; [exact Hh | apply HuA]. }
      unfold Reqb. destruct (Req_dec_T (ThreeMath.lengthSq t) 0) as [E|_];
        [contradiction|].
      repeat split; assumption.
    + exfalso. specialize (Hle 0%nat ltac:(lia)).
      pose proof (closest_nonneg (photoCandidateAt (height (tree config))
                                    (radius (tree config)) gA 0)
                    (PhotoOrnaments.positions s)). lra.
    + right. exists j. subst t.
      unfold Reqb, ThreeMath.lengthSq; cbn [vx vy vz].
      destruct (Req_dec_T (0 * 0 + 0 * 0 + 0 * 0) 0) as [_|E]; [|exfalso; lra].
      split; [exact Hj|]. split; [exact Hb|]. split; [|exact Hfirst].
      intros k Hk. split; [apply Hall | apply Hle]; exact Hk.
Qed.

Lemma photosAfter_S (config : ConfigType) (textures : list string)
    (g : Rng) (k : nat) :
  photosAfter config textures g (S k)
  = PhotoOrnaments.generateOne config textures k
      (photosAfter config textures g k).
Proof. unfold photosAfter. now rewrite forLoop_snoc. Qed.

(** The generation keeps [positions] in step with the data, and every
    ornament is as [generateOne] made it, judged against the ornaments
    before it. *)
Lemma photosAfter_spec (config : ConfigType) (textures : list string)
    (g : Rng) (k : nat) :
  let s := photosAfter config textures g k in
  length (PhotoOrnaments.generatedData s) = k /\
  PhotoOrnaments.positions s
    = map PhotoOrnaments.targetPos (PhotoOrnaments.generatedData s) /\
  draws (PhotoOrnaments.rng s) = draws g /\
  forall i d,
    nth_error (PhotoOrnaments.generatedData s) i = Some d ->
    photoDatumOk config textures g i d
      (map PhotoOrnaments.targetPos
         (firstn i (PhotoOrnaments.generatedData s)))
      (PhotoOrnaments.rng (photosAfter config textures g i)).
Proof.
  induction k as [|k IH]; cbv zeta.
  - unfold photosAfter; simpl.
    split; [reflexivity|]. split; [reflexivity|]. split; [reflexivity|].
    intros [|i] d H; discriminate.
  - cbv zeta in IH. destruct IH as (Hlen & Hpos & Hd & Hall).
    rewrite photosAfter_S.
    destruct (generateOne_spec config textures g k
                (photosAfter config textures g k) Hd)
      as (d & g' & -> & Hd' & Hok).
    cbn [PhotoOrnaments.generatedData PhotoOrnaments.positions
         PhotoOrnaments.rng].
    split; [rewrite length_app; simpl; lia|].
    split; [rewrite map_app, Hpos; reflexivity|].
    split; [exact Hd'|].
    intros i d0 Hnth.
    destruct (Nat.lt_ge_cases i k) as [Hlt|Hge].
    + rewrite nth_error_app1 in Hnth by lia.
      rewrite firstn_app. replace (i - length _)%nat with O by lia.
      rewrite firstn_O, app_nil_r. apply Hall. exact Hnth.
    + rewrite nth_error_app2 in Hnth by lia. rewrite Hlen in Hnth.
      destruct (i - k)%nat as [|n] eqn:E; [|destruct n; discriminate].
      injection Hnth as <-. assert (i = k) by lia. subst i.
      rewrite firstn_app, firstn_all2 by lia.
      rewrite Hlen, Nat.sub_diag, firstn_O, app_nil_r, <- Hpos. exact Hok.
Qed.

(** The data of [useMemo] is the data after [count] ornaments. *)
Lemma photo_useMemo_datum (state : SceneMode) (config : ConfigType)
    (textures : list string) (g : Rng) (i : nat) (d : PhotoOrnaments.Datum) :
  nth_error (PhotoOrnaments.useMemo state config textures g) i = Some d ->
  (i < PhotoOrnaments.count state config textures)%nat /\
  photoDatumOk config textures g i d
    (map PhotoOrnaments.targetPos
       (firstn i (PhotoOrnaments.useMemo state config textures g)))
    (PhotoOrnaments.rng (photosAfter config textures g i)).
Proof.
  intros Hnth.
  change (PhotoOrnaments.useMemo state config textures g)
    with (PhotoOrnaments.generatedData
            (photosAfter config textures g
               (PhotoOrnaments.count state config textures))) in *.
  destruct (photosAfter_spec config textures g
              (PhotoOrnaments.count state config textures))
    as (Hlen & _ & _ & Hall).
  split; [|apply Hall; exact Hnth].
  rewrite <- Hlen. apply nth_error_Some. congruence.
Qed.

Lemma photo_count_le (state : SceneMode) (config : ConfigType)
    (textures : list string) :
  (PhotoOrnaments.count state config textures <= length textures)%nat.
Proof.
  unfold PhotoOrnaments.count. destruct (SceneMode_eqb state CHAOS); lia.
Qed.

(** X5.  With draws in [[0, 1)] and a cone of positive height, every photo
    ornament starts at its chaos position, inside the cube of side 50 around
    the origin, and its target lies on the cone pushed out by 0.5, at a
    height between [-height / 2.2] and [height / 3]. *)
Theorem photo_targets_on_surface
    (state : SceneMode) (config : ConfigType) (textures : list string)
    (g : Rng) (i : nat) (d : PhotoOrnaments.Datum) :
  0 < height (tree config) -> 0 <= radius (tree config) -> unitDraws g ->
  nth_error (PhotoOrnaments.useMemo state config textures g) i = Some d ->
  onPhotoSurface (height (tree config)) (radius (tree config))
    (PhotoOrnaments.targetPos d) /\
  PhotoOrnaments.currentPos d = PhotoOrnaments.chaosPos d /\
  - 25 <= vx (PhotoOrnaments.chaosPos d) < 25 /\
  - 25 <= vy (PhotoOrnaments.chaosPos d) < 25 /\
  - 25 <= vz (PhotoOrnaments.chaosPos d) < 25.
Proof.
  intros Hh Hr Hu Hnth.
  destruct (photo_useMemo_datum state config textures g i d Hnth)
    as (_ & _ & Hcur & _ & Hcube & Hsearch).
  split; [|split; [exact Hcur | exact (Hcube Hu)]].
  destruct (Hsearch Hh Hr Hu) as (HdA & Hout).
  set (gA := mkRng _ _) in Hout.
  assert (Hcand : forall j,
            onPhotoSurface (height (tree config)) (radius (tree config))
              (photoCandidateAt (height (tree config)) (radius (tree config))
                 gA j)).
  { intros j. apply photoCandidate_onSurface; [exact Hh|].
    intros n. unfold gA. cbn [draws]. rewrite HdA. apply Hu. }
  destruct Hout as [(j & _ & -> & _)|(j & _ & -> & _)]; apply Hcand.
Qed.

(** X7.  With draws in [[0, 1)] and a cone of positive height, the target of
    a photo ornament is one of the twenty candidates its search draws, the
    search starting three draws after the ornaments before it.  The
    clearance of a candidate is its distance to the nearest earlier target,
    or 1000 when none is nearer than that.  The target is the first
    candidate farther than 2.5 from every earlier target; when each of the
    twenty has an earlier target within 2.5, it is the first of the
    candidates with the largest clearance. *)
Theorem photo_target_clearance
    (state : SceneMode) (config : ConfigType) (textures : list string)
    (g : Rng) (i : nat) (d : PhotoOrnaments.Datum) :
  0 < height (tree config) -> 0 <= radius (tree config) -> unitDraws g ->
  nth_error (PhotoOrnaments.useMemo state config textures g) i = Some d ->
  let placed :=
    map PhotoOrnaments.targetPos
      (firstn i (PhotoOrnaments.useMemo state config textures g)) in
  let candidate :=
    photoCandidateAt (height (tree config)) (radius (tree config))
      (photoSearchStart config textures g i) in
  let clear := fun k => PhotoOrnaments.closest (candidate k) placed in
  (forall k,
     (forall p, In p placed -> clear k <= ThreeMath.distanceTo (candidate k) p) /\
     (clear k = 1000 \/
      exists p, In p placed /\ clear k = ThreeMath.distanceTo (candidate k) p)) /\
  ((exists j, (j < 20)%nat /\
      PhotoOrnaments.targetPos d = candidate j /\
      (forall p, In p placed ->
         ThreeMath.distanceTo (PhotoOrnaments.targetPos d) p
         > PhotoOrnaments.minDistance) /\
      forall k, (k < j)%nat ->
        exists p, In p placed /\
          ThreeMath.distanceTo (candidate k) p <= PhotoOrnaments.minDistance)
   \/
   (exists j, (j < 20)%nat /\
      PhotoOrnaments.targetPos d = candidate j /\
      (forall k, (k < 20)%nat ->
         exists p, In p placed /\
           ThreeMath.distanceTo (candidate k) p <= PhotoOrnaments.minDistance) /\
      (forall k, (k < 20)%nat -> clear k <= clear j) /\
      forall k, (k < j)%nat -> clear k < clear j)).
Proof.
  intros Hh Hr Hu Hnth. cbv zeta.
  destruct (photo_useMemo_datum state config textures g i d Hnth)
    as (_ & _ & _ & _ & _ & Hsearch).
  destruct (Hsearch Hh Hr Hu) as (_ & Hout).
  change (mkRng _ _) with (photoSearchStart config textures g i) in Hout.
  set (placed := map PhotoOrnaments.targetPos _) in *.
  set (gA := photoSearchStart config textures g i) in *.
  assert (Hnear : forall k,
            PhotoOrnaments.closest
              (photoCandidateAt (height (tree config)) (radius (tree config))
                 gA k) placed <= PhotoOrnaments.minDistance ->
            exists p, In p placed /\
              ThreeMath.distanceTo
                (photoCandidateAt (height (tree config)) (radius (tree config))
                   gA k) p <= PhotoOrnaments.minDistance).
  { intros k Hk.
    destruct (closest_attained
                (photoCandidateAt (height (tree config)) (radius (tree config))
                   gA k) placed) as [E|(p & Hin & E)].
    - exfalso. rewrite E in Hk. unfold PhotoOrnaments.minDistance in Hk. lra.
    - exists p. split; [exact Hin|]. rewrite <- E. exact Hk. }
  split.
  - intros k. split; [intros p Hin; apply closest_le; exact Hin|].
    apply closest_attained.
  - destruct Hout as [(j & Hj & Ht & Hfar & Hbefore)
                     |(j & Hj & Ht & Hall & Hfirst)].
    + left. exists j. split; [exact Hj|]. split; [exact Ht|]. split.
      * intros p Hin. rewrite Ht.
        eapply Rlt_le_trans; [exact Hfar | apply closest_le; exact Hin].
      * intros k Hk. apply Hnear. apply Hbefore. exact Hk.
    + right. exists j. split; [exact Hj|]. split; [exact Ht|]. split.
      * intros k Hk. apply Hnear. apply Hall. exact Hk.
      * split; [intros k Hk; apply Hall; exact Hk | exact Hfirst].
Qed.

(** Ornament [i] exists when [i] is below the count. *)
Lemma photo_useMemo_nth (state : SceneMode) (config : ConfigType)
    (textures : list string) (g : Rng) (i : nat) :
  (i < PhotoOrnaments.count state config textures)%nat ->
  exists d, nth_error (PhotoOrnaments.useMemo state config textures g) i = Some d.
Proof.
  intros Hi.
  destruct (nth_error (PhotoOrnaments.useMemo state config textures g) i)
    as [d|] eqn:E; [exists d; reflexivity|].
  apply nth_error_None in E. rewrite photo_useMemo_length in E. lia.
Qed.

Lemma photo_targets_on_surface_witness :
  exists d,
    nth_error (PhotoOrnaments.useMemo FORMED (createConfig traditional)
                 ["blob:a"%string; "blob:b"%string] (mkRng stepDraws 0)) 1
    = Some d /\
    onPhotoSurface 28 12 (PhotoOrnaments.targetPos d).
Proof.
  destruct (photo_useMemo_nth FORMED (createConfig traditional)
              ["blob:a"%string; "blob:b"%string] (mkRng stepDraws 0) 1)
    as [d Hd].
  - vm_compute. apply Nat.le_refl.
  - exists d. split; [exact Hd|].
    refine (proj1 (photo_targets_on_surface FORMED (createConfig traditional)
                     _ (mkRng stepDraws 0) 1 d _ _ (stepDraws_unit 0) Hd)).
    + unfold createConfig; cbn [tree height]. lra.
    + unfold createConfig; cbn [tree radius]. lra.
Defined.

Lemma photo_target_clearance_witness :
  exists d,
    nth_error (PhotoOrnaments.useMemo FORMED (createConfig traditional)
                 ["blob:a"%string; "blob:b"%string] (mkRng stepDraws 0)) 1
    = Some d /\
    exists j, (j < 20)%nat /\
      PhotoOrnaments.targetPos d
      = photoCandidateAt 28 12
          (photoSearchStart (createConfig traditional)
             ["blob:a"%string; "blob:b"%string] (mkRng stepDraws 0) 1) j.
Proof.
  destruct (photo_useMemo_nth FORMED (createConfig traditional)
              ["blob:a"%string; "blob:b"%string] (mkRng stepDraws 0) 1)
    as [d Hd].
  - vm_compute. apply Nat.le_refl.
  - exists d. split; [exact Hd|].
    destruct (photo_target_clearance FORMED (createConfig traditional)
                ["blob:a"%string; "blob:b"%string] (mkRng stepDraws 0) 1 d)
      as (_ & Hcases).
    + unfold createConfig; cbn [tree height]. lra.
    + unfold createConfig; cbn [tree radius]. lra.
    + exact (stepDraws_unit 0).
    + exact Hd.
    + destruct Hcases as [(j & Hj & Ht & _)|(j & Hj & Ht & _)];
        exists j; (split; [exact Hj | exact Ht]).
Defined.

(** X6.  Ornament [i] carries texture [i], the texture of photo [i], and a
    click on it opens the card of that same photo. *)
Theorem ornament_shows_its_photo
    (state : SceneMode) (config : ConfigType) (photos : list string)
    (g : Rng) (i : nat) (d : PhotoOrnaments.Datum) (s : AppShell.State) :
  nth_error (PhotoOrnaments.useMemo state config
               (PhotoOrnaments.useTexture photos) g) i = Some d ->
  AppShell.photos s = photos ->
  PhotoOrnaments.textureIndex d = i /\
  exists url,
    nth_error (PhotoOrnaments.useTexture photos)
      (PhotoOrnaments.textureIndex d) = Some url /\
    exists text saved,
      AppShell.card (AppShell.onPhotoClick i s) = Some (Some url, text, saved).
Proof.
  intros Hnth Hphotos.
  destruct (photo_useMemo_datum state config _ g i d Hnth)
    as (Hi & Htex & _).
  pose proof (photo_count_le state config (PhotoOrnaments.useTexture photos))
    as Hle.
  assert (Hidx : PhotoOrnaments.textureIndex d = i)
    by (rewrite Htex; apply Nat.mod_small; lia).
  split; [exact Hidx|]. rewrite Hidx.
  unfold PhotoOrnaments.useTexture in *.
  destruct (nth_error photos i) as [url|] eqn:E.
  - exists url. split; [reflexivity|].
    unfold AppShell.card, AppShell.onPhotoClick.
    cbn [AppShell.selectedPhotoIndex AppShell.photos AppShell.memos].
    rewrite Hphotos, E. eauto.
  - apply nth_error_None in E. lia.
Qed.

Lemma ornament_shows_its_photo_witness :
  exists d,
    nth_error (PhotoOrnaments.useMemo CHAOS (createConfig traditional)
                 (PhotoOrnaments.useTexture ["blob:a"%string; "blob:b"%string])
                 (mkRng stepDraws 0)) 1 = Some d /\
    PhotoOrnaments.textureIndex d = 1%nat.
Proof.
  destruct (photo_useMemo_nth CHAOS (createConfig traditional)
              (PhotoOrnaments.useTexture ["blob:a"%string; "blob:b"%string])
              (mkRng stepDraws 0) 1) as [d Hd].
  - vm_compute. apply Nat.le_refl.
  - exists d. split; [exact Hd|].
    exact (proj1 (ornament_shows_its_photo CHAOS (createConfig traditional)
                    ["blob:a"%string; "blob:b"%string] (mkRng stepDraws 0) 1 d
                    (AppShell.mkState ["blob:a"%string; "blob:b"%string] None [])
                    Hd eq_refl)).
Defined.

(** ** The fairy lights as generated *)

Lemma light_generateOne_spec (config : ConfigType) (g : Rng) :
  let d := fst (FairyLights.generateOne config g) in
  let h := height (tree config) in
  let rBase := radius (tree config) in
  snd (FairyLights.generateOne config g) = mkRng (draws g) (cursor g + 7) /\
  FairyLights.currentPos d = FairyLights.chaosPos d /\
  (unitDraws g ->
   (- 30 <= vx (FairyLights.chaosPos d) < 30 /\
    - 30 <= vy (FairyLights.chaosPos d) < 30 /\
    - 30 <= vz (FairyLights.chaosPos d) < 30) /\
   1 <= FairyLights.speed d < 3 /\
   0 <= FairyLights.timeOffset d < 100 /\
   vx (FairyLights.targetPos d) * vx (FairyLights.targetPos d)
   + vz (FairyLights.targetPos d) * vz (FairyLights.targetPos d)
   = (rBase * (1 - (vy (FairyLights.targetPos d) + h / 2) / h) + 0.2)
     * (rBase * (1 - (vy (FairyLights.targetPos d) + h / 2) / h) + 0.2) /\
   (0 < h -> - h / 2 <= vy (FairyLights.targetPos d) < h / 2)).
Proof.
  cbv zeta. unfold FairyLights.generateOne, bind, ret, Math_random.
  cbn [fst snd draws cursor FairyLights.currentPos FairyLights.chaosPos
       FairyLights.speed FairyLights.timeOffset FairyLights.targetPos vx vy vz].
  split; [f_equal; lia|]. split; [reflexivity|].
  intros Hu.
  pose proof (Hu (cursor g)). pose proof (Hu (S (cursor g))).
  pose proof (Hu (S (S (cursor g)))). pose proof (Hu (S (S (S (cursor g))))).
  pose proof (Hu (S (S (S (S (S (cursor g))))))).
  pose proof (Hu (S (S (S (S (S (S (cursor g)))))))).
  split; [repeat split; lra|]. split; [lra|]. split; [lra|]. split.
  - set (theta := draws g (S (S (S (S (cursor g))))) * PI * 2).
    pose proof (sin2_cos2 theta) as Hsc. unfold Rsqr in Hsc.
    match goal with
    | |- ?r * cos theta * (?r * cos theta) + _ = _ =>
        transitivity (r * r * (sin theta * sin theta + cos theta * cos theta));
        [ring | rewrite Hsc; ring]
    end.
  - intros Hh. nra.
Qed.

(** X8.  With draws in [[0, 1)] every fairy light is generated at rest at its
    chaos position, inside the cube of side 60 around the origin, with a
    twinkle speed in [[1, 3)] and a phase in [[0, 100)]; its target lies on
    the cone pushed out by 0.2, between the base and the apex. *)
Theorem fairy_lights_as_generated
    (config : ConfigType) (g : Rng) (d : FairyLights.Datum) :
  unitDraws g -> 0 < height (tree config) ->
  In d (FairyLights.useMemo config g) ->
  FairyLights.currentPos d = FairyLights.chaosPos d /\
  (- 30 <= vx (FairyLights.chaosPos d) < 30 /\
   - 30 <= vy (FairyLights.chaosPos d) < 30 /\
   - 30 <= vz (FairyLights.chaosPos d) < 30) /\
  1 <= FairyLights.speed d < 3 /\
  0 <= FairyLights.timeOffset d < 100 /\
  - height (tree config) / 2 <= vy (FairyLights.targetPos d)
    < height (tree config) / 2 /\
  vx (FairyLights.targetPos d) * vx (FairyLights.targetPos d)
  + vz (FairyLights.targetPos d) * vz (FairyLights.targetPos d)
  = (radius (tree config)
     * (1 - (vy (FairyLights.targetPos d) + height (tree config) / 2)
            / height (tree config)) + 0.2)
    * (radius (tree config)
       * (1 - (vy (FairyLights.targetPos d) + height (tree config) / 2)
              / height (tree config)) + 0.2).
Proof.
  intros Hu Hh. unfold FairyLights.useMemo.
  generalize (lights (counts config)). intros n. revert g Hu.
  induction n as [|k IH]; intros g Hu Hin; [contradiction|].
  cbn [FairyLights.mapSlots] in Hin. unfold bind at 1 in Hin.
  pose proof (light_generateOne_spec config g) as Hone. cbv zeta in Hone.
  destruct (FairyLights.generateOne config g) as [d0 g1].
  cbn [fst snd] in Hone. destruct Hone as (Hg1 & Hcur & Hrest).
  unfold bind in Hin.
  destruct (FairyLights.mapSlots k config g1) as [ds g2] eqn:Hrec.
  cbn [fst ret] in Hin. destruct Hin as [<-|Hin].
  - destruct (Hrest Hu) as (Hcube & Hspeed & Hoff & Hring & Hy).
    repeat split; try apply Hcube; try apply Hspeed; try apply Hoff;
      try apply (Hy Hh); assumption.
  - apply (IH g1).
    + intros m. rewrite Hg1. cbn [draws]. apply Hu.
    + rewrite Hrec. exact Hin.
Qed.

(** The first light generated is part of the data. *)
Lemma mapSlots_head (k : nat) (config : ConfigType) (g : Rng) :
  In (fst (FairyLights.generateOne config g))
     (fst (FairyLights.mapSlots (S k) config g)).
Proof.
  cbn [FairyLights.mapSlots]. unfold bind at 1.
  destruct (FairyLights.generateOne config g) as [d0 g1].
  unfold bind. destruct (FairyLights.mapSlots k config g1) as [ds g2].
  left. reflexivity.
Qed.

Lemma fairy_lights_as_generated_witness :
  exists d,
    In d (FairyLights.useMemo twoSpheres (mkRng stepDraws 0)) /\
    1 <= FairyLights.speed d < 3.
Proof.
  exists (fst (FairyLights.generateOne twoSpheres (mkRng stepDraws 0))).
  pose proof (mapSlots_head 199 twoSpheres (mkRng stepDraws 0)) as Hin.
  split; [exact Hin|].
  refine (proj1 (proj2 (proj2 (fairy_lights_as_generated twoSpheres
                                 (mkRng stepDraws 0) _ (stepDraws_unit 0) _ Hin)))).
  cbn [twoSpheres tree height]. lra.
Defined.

(** ** Frames in sequence *)

(** One [lerp] scales the offset from the target by [1 - alpha]. *)
Lemma lerp_offset (p v : Vector3) (alpha : R) :
  vx (ThreeMath.lerp p v alpha) - vx v = (1 - alpha) * (vx p - vx v) /\
  vy (ThreeMath.lerp p v alpha) - vy v = (1 - alpha) * (vy p - vy v) /\
  vz (ThreeMath.lerp p v alpha) - vz v = (1 - alpha) * (vz p - vz v).
Proof. unfold ThreeMath.lerp; simpl. repeat split; ring. Qed.

(** X9.  Over frames that share the scene mode and the delta, a fairy light
    closes in on its target geometrically: after [n] frames each coordinate
    of its offset from the target is the initial one times
    [(1 - delta * 2.5) ^ n]; its chaos and target positions never change. *)
Theorem lights_approach_geometrically
    (state : SceneMode) (delta : R) (times : list R) (i : nat)
    (children : list FairyLights.Mesh) (data : list FairyLights.Datum)
    (mesh : FairyLights.Mesh) (d : FairyLights.Datum) :
  nth_error children i = Some mesh ->
  nth_error data i = Some d ->
  exists children' data' d',
    Frames.lights (map (fun t => Frames.mkTick state t delta) times)
      (Some children) data = (Some children', data') /\
    nth_error data' i = Some d' /\
    FairyLights.chaosPos d' = FairyLights.chaosPos d /\
    FairyLights.targetPos d' = FairyLights.targetPos d /\
    let target := if SceneMode_eqb state FORMED
                  then FairyLights.targetPos d else FairyLights.chaosPos d in
    let factor := (1 - delta * 2.5) ^ length times in
    vx (FairyLights.currentPos d') - vx target
      = factor * (vx (FairyLights.currentPos d) - vx target) /\
    vy (FairyLights.currentPos d') - vy target
      = factor * (vy (FairyLights.currentPos d) - vy target) /\
    vz (FairyLights.currentPos d') - vz target
      = factor * (vz (FairyLights.currentPos d) - vz target).
Proof.
  revert children data mesh d.
  induction times as [|t rest IH]; intros children data mesh d Hc Hd.
  - exists children, data, d. simpl. repeat split; auto; ring.
  - cbn [map Frames.lights Frames.tickState Frames.tickTime Frames.tickDelta].
    unfold FairyLights.useFrame.
    destruct (forEachChild_nth (FairyLights.frameChild state t delta)
                children data 0 i mesh d Hc Hd) as [Hc1 Hd1].
    destruct (forEachChild _ 0%nat children data) as [cs1 ds1].
    cbn [fst snd] in Hc1, Hd1.
    destruct (IH cs1 ds1 _ _ Hc1 Hd1)
      as (children' & data' & d' & Hrun & Hnth & Hchaos & Htarget & Hx & Hy & Hz).
    exists children', data', d'.
    split; [exact Hrun|]. split; [exact Hnth|].
    unfold FairyLights.frameChild in Hchaos, Htarget, Hx, Hy, Hz.
    cbn [fst FairyLights.chaosPos FairyLights.targetPos FairyLights.currentPos]
      in Hchaos, Htarget, Hx, Hy, Hz.
    split; [exact Hchaos|]. split; [exact Htarget|].
    cbv zeta in Hx, Hy, Hz |- *.
    set (target := if SceneMode_eqb state FORMED
                   then FairyLights.targetPos d else FairyLights.chaosPos d) in *.
    destruct (lerp_offset (FairyLights.currentPos d) target (delta * 2.5))
      as (Lx & Ly & Lz).
    cbn [length pow].
    rewrite Hx, Hy, Hz, Lx, Ly, Lz. repeat split; ring.
Qed.

Lemma lights_approach_geometrically_witness :
  exists children' data' d',
    Frames.lights (map (fun t => Frames.mkTick FORMED t (/ 5)) [0; / 5])
      (Some [FairyLights.mkMesh (mkVector3 0 0 0) (Some 0)])
      [FairyLights.mkDatum (mkVector3 8 0 0) (mkVector3 0 0 0) 1
         (mkVector3 8 0 0) 0]
    = (Some children', data') /\
    nth_error data' 0 = Some d' /\
    vx (FairyLights.currentPos d') = 2.
Proof.
  destruct (lights_approach_geometrically FORMED (/ 5) [0; / 5] 0
              [FairyLights.mkMesh (mkVector3 0 0 0) (Some 0)]
              [FairyLights.mkDatum (mkVector3 8 0 0) (mkVector3 0 0 0) 1
                 (mkVector3 8 0 0) 0] _ _ eq_refl eq_refl)
    as (children' & data' & d' & Hrun & Hnth & _ & _ & Hx & _).
  exists children', data', d'. split; [exact Hrun|]. split; [exact Hnth|].
  simpl in Hx. lra.
Defined.

(** X10.  Whatever the scene modes of the frames, as long as every delta is
    between 0 and a third of a second, a photo ornament whose scale is
    uniform and between 2 and 4 keeps a uniform scale between 2 and 4, and
    after every frame it sits at the current position of its data. *)
Theorem photo_scale_stays_in_range
    (lookAt : Object3D -> Vector3 -> Euler) (ticks : list Frames.Tick)
    (i : nat) (children : list Object3D) (data : list PhotoOrnaments.Datum)
    (group : Object3D) (d : PhotoOrnaments.Datum) (s0 : R) :
  Forall (fun t => 0 <= Frames.tickDelta t * 3 <= 1) ticks ->
  nth_error children i = Some group ->
  nth_error data i = Some d ->
  scale group = ThreeMath.setScalar s0 -> 2 <= s0 <= 4 ->
  exists children' data' group' d' s',
    Frames.photos lookAt ticks (Some children) data = (Some children', data') /\
    nth_error children' i = Some group' /\
    nth_error data' i = Some d' /\
    scale group' = ThreeMath.setScalar s' /\ 2 <= s' <= 4 /\
    (ticks <> [] -> position group' = PhotoOrnaments.currentPos d').
Proof.
  revert children data group d s0.
  induction ticks as [|t rest IH]; intros children data group d s0 Hall Hc Hd Hs Hr.
  - exists children, data, group, d, s0. simpl. repeat split; auto; try apply Hr.
    intros H; contradiction.
  - inversion Hall as [|t' rest' Ht Hrest]; subst.
    cbn [Frames.photos]. unfold PhotoOrnaments.useFrame.
    destruct (forEachChild_nth
                (PhotoOrnaments.frameChild lookAt (Frames.tickState t)
                   (Frames.tickTime t) (Frames.tickDelta t))
                children data 0 i group d Hc Hd) as [Hc1 Hd1].
    destruct (forEachChild _ 0%nat children data) as [cs1 ds1].
    cbn [fst snd] in Hc1, Hd1.
    set (a := Frames.tickDelta t * 3) in *.
    set (tgt := if SceneMode_eqb (Frames.tickState t) FORMED then 2 else 4).
    assert (Hscale1 :
      scale (snd (PhotoOrnaments.frameChild lookAt (Frames.tickState t)
                    (Frames.tickTime t) (Frames.tickDelta t) (0 + i) d group))
      = ThreeMath.setScalar (ThreeMath.lerpScalar s0 tgt a)).
    { unfold PhotoOrnaments.frameChild. cbn [snd scale]. rewrite Hs.
      reflexivity. }
    assert (Hrange : 2 <= ThreeMath.lerpScalar s0 tgt a <= 4).
    { unfold ThreeMath.lerpScalar, tgt.
      destruct (SceneMode_eqb (Frames.tickState t) FORMED); nra. }
    destruct (IH cs1 ds1 _ _ _ Hrest Hc1 Hd1 Hscale1 Hrange)
      as (children' & data' & group' & d' & s' & Hrun & Hc' & Hd' & Hs' & Hr' & Hpos).
    exists children', data', group', d', s'.
    repeat split; try assumption; try apply Hr'.
    intros _. destruct rest as [|t2 rest2].
    + simpl in Hrun. injection Hrun as <- <-.
      rewrite Hc1 in Hc'. rewrite Hd1 in Hd'.
      injection Hc' as <-. injection Hd' as <-.
      unfold PhotoOrnaments.frameChild. reflexivity.
    + apply Hpos. discriminate.
Qed.

Lemma photo_scale_stays_in_range_witness :
  exists children' data' group' d' s',
    Frames.photos (fun _ _ => mkEuler 0 0 0)
      [Frames.mkTick CHAOS 0 (/ 60); Frames.mkTick FORMED (/ 60) (/ 60)]
      (Some [mkObject3D (mkVector3 0 0 0) (mkEuler 0 0 0) (mkVector3 2 2 2)])
      [PhotoOrnaments.mkDatum (mkVector3 9 9 9) (mkVector3 1 2 3) 0
         (mkVector3 9 9 9) (mkEuler 0 0 0) (mkVector3 0 0 0) 2]
    = (Some children', data') /\
    nth_error children' 0 = Some group' /\
    nth_error data' 0 = Some d' /\
    scale group' = ThreeMath.setScalar s' /\ 2 <= s' <= 4.
Proof.
  destruct (photo_scale_stays_in_range (fun _ _ => mkEuler 0 0 0)
              [Frames.mkTick CHAOS 0 (/ 60); Frames.mkTick FORMED (/ 60) (/ 60)]
              0
              [mkObject3D (mkVector3 0 0 0) (mkEuler 0 0 0) (mkVector3 2 2 2)]
              [PhotoOrnaments.mkDatum (mkVector3 9 9 9) (mkVector3 1 2 3) 0
                 (mkVector3 9 9 9) (mkEuler 0 0 0) (mkVector3 0 0 0) 2]
              (mkObject3D (mkVector3 0 0 0) (mkEuler 0 0 0) (mkVector3 2 2 2))
              (PhotoOrnaments.mkDatum (mkVector3 9 9 9) (mkVector3 1 2 3) 0
                 (mkVector3 9 9 9) (mkEuler 0 0 0) (mkVector3 0 0 0) 2)
              2)
    as (children' & data' & group' & d' & s' & Hrun & Hc & Hd & Hs & Hr & _).
  - repeat constructor; simpl; lra.
  - reflexivity.
  - reflexivity.
  - reflexivity.
  - lra.
  - exists children', data', group', d', s'. repeat split; try assumption; apply Hr.
Defined.

(** X11.  A frame of the foliage turns sphere [i] by at most 0.002 about x
    and about y and not at all about z, and it leaves every instance from
    index [count] on as it was. *)
Theorem foliage_frame_wobble
    (state : SceneMode) (count : nat) (targets randoms : list R)
    (time delta : R) (instances : list Object3D) (i : nat) :
  (count <= length instances)%nat ->
  exists instances',
    OrnamentTree.useFrame state count targets randoms time delta
      (Some instances) = Some instances' /\
    ((i < count)%nat ->
     Rabs (ex (rotation (nth i instances' OrnamentTree.identity))
           - ex (rotation (nth i instances OrnamentTree.identity))) <= 0.002 /\
     Rabs (ey (rotation (nth i instances' OrnamentTree.identity))
           - ey (rotation (nth i instances OrnamentTree.identity))) <= 0.002 /\
     ez (rotation (nth i instances' OrnamentTree.identity))
     = ez (rotation (nth i instances OrnamentTree.identity))) /\
    ((count <= i)%nat ->
     nth i instances' OrnamentTree.identity
     = nth i instances OrnamentTree.identity).
Proof.
  intros Hlen. eexists; split; [reflexivity|].
  destruct (forLoop_store_nth
              (OrnamentTree.frameInstance state targets randoms time delta)
              OrnamentTree.identity count instances) as (_ & Hlow & Hhigh).
  split.
  - intros Hi. rewrite (Hlow i Hi) by lia.
    unfold OrnamentTree.frameInstance. cbn [rotation ex ey ez].
    pose proof (SIN_bound (time * 0.5 + INR i)) as [S1 S2].
    pose proof (COS_bound (time * 0.3 + INR i)) as [C1 C2].
    repeat split; try reflexivity; apply Rabs_le; lra.
  - intros Hi. apply Hhigh. exact Hi.
Qed.

Lemma foliage_frame_wobble_witness :
  exists instances',
    OrnamentTree.useFrame FORMED 1 [1; 2; 3] [0; 0; 0] 7 (/ 60)
      (Some [OrnamentTree.identity; OrnamentTree.identity]) = Some instances' /\
    nth 1 instances' OrnamentTree.identity = OrnamentTree.identity.
Proof.
  destruct (foliage_frame_wobble FORMED 1 [1; 2; 3] [0; 0; 0] 7 (/ 60)
              [OrnamentTree.identity; OrnamentTree.identity] 1)
    as (instances' & Hrun & _ & Hhigh).
  - simpl. apply Nat.le_succ_diag_r.
  - exists instances'. split; [exact Hrun|]. apply Hhigh. apply Nat.le_refl.
Defined.

(** ** Snow *)

Lemma Forall_store {A : Type} (P : A -> Prop) (i : nat) (v : A) (a : list A) :
  Forall P a -> P v -> Forall P (store i v a).
Proof.
  intros Ha Hv. revert i. induction Ha as [|h t Hh Ht IH]; intros [|i]; simpl;
    constructor; auto.
Qed.

Lemma store_store_same {A : Type} (i : nat) (v w : A) (a : list A) :
  store i w (store i v a) = store i w a.
Proof.
  revert i. induction a as [|h t IH]; intros [|i]; simpl; auto.
  now rewrite IH.
Qed.

Lemma store_out_of_range {A : Type} (i : nat) (v : A) (a : list A) :
  (length a <= i)%nat -> store i v a = a.
Proof.
  revert i. induction a as [|h t IH]; intros [|i] Hi; simpl in *;
    try reflexivity; try lia.
  f_equal. apply IH. lia.
Qed.

Lemma Forall_nth_default {A : Type} (P : A -> Prop) (a : list A) (d : A)
    (i : nat) :
  Forall P a -> P d -> P (nth i a d).
Proof.
  intros Ha Hd. revert i. induction Ha as [|h t Hh Ht IH]; intros [|i]; simpl; auto.
Qed.

(** One particle of one frame keeps every coordinate in [[-50, 50]]. *)
Lemma fallOne_in_cube (delta : R) (i : nat) (s : list R * Rng) :
  0 <= delta -> unitDraws (snd s) ->
  Forall (fun v => - 50 <= v <= 50) (fst s) ->
  Forall (fun v => - 50 <= v <= 50) (fst (Snow.fallOne delta i s)) /\
  length (fst (Snow.fallOne delta i s)) = length (fst s) /\
  draws (snd (Snow.fallOne delta i s)) = draws (snd s).
Proof.
  destruct s as [positions g]. cbn [fst snd]. intros Hdelta Hu Hall.
  unfold Snow.fallOne, Math_random. cbn [fst snd draws cursor].
  pose proof (Hu (cursor g)) as U0.
  pose proof (Hu (S (cursor g))) as U1.
  pose proof (Hu (S (S (cursor g)))) as U2.
  set (y := nth (i * 3 + 1) positions 0 - delta * 5 * (draws g (cursor g) * 0.5 + 0.5)).
  assert (Hold : - 50 <= nth (i * 3 + 1) positions 0 <= 50)
    by (apply Forall_nth_default; [exact Hall | lra]).
  assert (Hfall : 0 <= delta * 5 * (draws g (cursor g) * 0.5 + 0.5)) by nra.
  destruct (Rltb (nth (i * 3 + 1) (store (i * 3 + 1) y positions) 0) (-50)) eqn:E.
  - cbn [fst snd draws]. rewrite store_store_same, !store_length.
    split; [|split; reflexivity].
    repeat apply Forall_store; try assumption; lra.
  - cbn [fst snd draws]. rewrite store_length.
    split; [|split; reflexivity].
    apply Rltb_false in E.
    destruct (Nat.lt_ge_cases (i * 3 + 1) (length positions)) as [Hin|Hout].
    + rewrite nth_store_same in E by exact Hin.
      apply Forall_store; [exact Hall|]. unfold y in *. lra.
    + rewrite store_out_of_range by exact Hout. exact Hall.
Qed.

Lemma snow_frame_in_cube (n : nat) (delta : R) (pts : Snow.Points) (g : Rng) :
  0 <= delta -> unitDraws g ->
  Forall (fun v => - 50 <= v <= 50) (Snow.positions pts) ->
  exists pts',
    fst (Snow.frame n delta (Some pts) g) = Some pts' /\
    Forall (fun v => - 50 <= v <= 50) (Snow.positions pts') /\
    length (Snow.positions pts') = length (Snow.positions pts) /\
    Snow.rotationY pts' = Snow.rotationY pts + delta * 0.05 /\
    draws (snd (Snow.frame n delta (Some pts) g)) = draws g.
Proof.
  intros Hdelta Hu Hall. unfold Snow.frame.
  pose proof (forLoop_invariant
                (fun _ s => Forall (fun v => - 50 <= v <= 50) (fst s) /\
                            length (fst s) = length (Snow.positions pts) /\
                            draws (snd s) = draws g)
                n 0 (Snow.fallOne delta) (Snow.positions pts, g)) as Hinv.
  destruct Hinv as (Hf & Hl & Hd).
  - cbn [fst snd]. auto.
  - intros k s _ (Hf & Hl & Hd).
    destruct (fallOne_in_cube delta (0 + k) s Hdelta) as (Hf' & Hl' & Hd');
      [intros m; rewrite Hd; apply Hu | exact Hf |].
    repeat split; congruence.
  - destruct (forLoop n 0 (Snow.fallOne delta) (Snow.positions pts, g))
      as [positions' g'].
    cbn [fst snd] in *. eexists. split; [reflexivity|].
    cbn [Snow.positions Snow.rotationY]. auto.
Qed.

(** The particles start inside the cube. *)
Lemma snow_fill_in_cube (n : nat) (g : Rng) :
  unitDraws g ->
  Forall (fun v => - 50 <= v <= 50) (fst (Snow.fill n g)) /\
  length (fst (Snow.fill n g)) = (n * 3)%nat.
Proof.
  intros Hu. unfold Snow.fill.
  pose proof (forLoop_invariant
                (fun _ s => Forall (fun v => - 50 <= v <= 50) (fst s) /\
                            length (fst s) = (n * 3)%nat /\
                            draws (snd s) = draws g)
                n 0 Snow.fillOne (repeat 0 (n * 3), g)) as Hinv.
  destruct Hinv as (Hf & Hl & _); [| |split; assumption].
  - cbn [fst snd]. split; [|split; [apply repeat_length | reflexivity]].
    apply Forall_forall. intros v Hv. apply repeat_spec in Hv. subst v. lra.
  - intros k [temp g1] _ (Hf & Hl & Hd). cbn [fst snd] in *.
    unfold Snow.fillOne, Math_random. cbn [fst snd draws cursor].
    rewrite !store_length.
    split; [|split; assumption].
    pose proof (Hu (cursor g1)). pose proof (Hu (S (cursor g1))).
    pose proof (Hu (S (S (cursor g1)))).
    rewrite Hd.
    repeat apply Forall_store; try assumption; lra.
Qed.

(** X12.  With draws in [[0, 1)] the 2000 snow particles are generated inside
    the cube of side 100 around the origin, and through any sequence of
    frames with deltas that are not negative every coordinate of every
    particle stays in [[-50, 50]]; the number of coordinates stays 6000. *)
Theorem snow_stays_in_cube
    (g0 g : Rng) (deltas : list R) (rotation0 : R) :
  unitDraws g0 -> unitDraws g -> Forall (fun d => 0 <= d) deltas ->
  exists pts,
    fst (Snow.frames Snow.count deltas
           (Some (Snow.mkPoints (Snow.particles g0) rotation0)) g) = Some pts /\
    Forall (fun v => - 50 <= v <= 50) (Snow.positions pts) /\
    length (Snow.positions pts) = (Snow.count * 3)%nat.
Proof.
  intros Hu0 Hu Hdeltas.
  destruct (snow_fill_in_cube Snow.count g0 Hu0) as [Hf0 Hl0].
  unfold Snow.particles.
  generalize dependent (fst (Snow.fill Snow.count g0)). intros positions Hf Hl.
  revert positions rotation0 g Hu Hf Hl.
  induction Hdeltas as [|d rest Hd Hrest IH]; intros positions rotation0 g Hu Hf Hl.
  - eexists. split; [reflexivity|]. split; assumption.
  - cbn [Snow.frames].
    destruct (snow_frame_in_cube Snow.count d
                (Snow.mkPoints positions rotation0) g Hd Hu Hf)
      as (pts' & Hrun & Hf' & Hl' & _ & Hd').
    destruct (Snow.frame Snow.count d
                (Some (Snow.mkPoints positions rotation0)) g) as [mesh' g'].
    cbn [fst snd] in Hrun, Hd'. subst mesh'. destruct pts' as [positions' rotation'].
    cbn [Snow.positions] in *.
    apply IH; [intros m; rewrite Hd'; apply Hu | exact Hf' | congruence].
Qed.

Lemma snow_stays_in_cube_witness :
  exists pts,
    fst (Snow.frames Snow.count [/ 60; / 30]
           (Some (Snow.mkPoints (Snow.particles (mkRng stepDraws 0)) 0))
           (mkRng stepDraws 9)) = Some pts /\
    length (Snow.positions pts) = (Snow.count * 3)%nat.
Proof.
  destruct (snow_stays_in_cube (mkRng stepDraws 0) (mkRng stepDraws 9)
              [/ 60; / 30] 0 (stepDraws_unit 0) (stepDraws_unit 9))
    as (pts & Hrun & _ & Hlen).
  - repeat constructor; lra.
  - exists pts. split; assumption.
Defined.

(** ** The star *)

(** X13.  Through any sequence of frames whose deltas lie between 0 and a
    third of a second, whatever the scene modes and the hover flags, a star
    whose scale is uniform and between 0 and 1.2 keeps a uniform scale
    between 0 and 1.2; a frame in CHAOS mode multiplies the scale by
    [1 - delta * 3] whether the star is hovered or not. *)
Theorem star_scale_bounded
    (ticks : list TopStar.Tick) (grp : TopStar.Group) (s0 : R) :
  Forall (fun t => 0 <= TopStar.tickDelta t * 3 <= 1) ticks ->
  TopStar.groupScale grp = ThreeMath.setScalar s0 -> 0 <= s0 <= 1.2 ->
  (exists grp' s',
     TopStar.frames ticks (Some grp) = Some grp' /\
     TopStar.groupScale grp' = ThreeMath.setScalar s' /\ 0 <= s' <= 1.2) /\
  (forall hovered delta,
     exists grp',
       TopStar.useFrame CHAOS hovered delta (Some grp) = Some grp' /\
       TopStar.groupScale grp' = ThreeMath.setScalar ((1 - delta * 3) * s0)).
Proof.
  intros Hall Hs Hr. split.
  - revert grp s0 Hs Hr.
    induction Hall as [|t rest Ht Hrest IH]; intros grp s0 Hs Hr.
    + exists grp, s0. simpl. auto.
    + cbn [TopStar.frames TopStar.useFrame].
      set (final := (if SceneMode_eqb (TopStar.tickState t) FORMED then 1 else 0)
                    * (if TopStar.tickHovered t
                          && SceneMode_eqb (TopStar.tickState t) FORMED
                       then 1.2 else 1)).
      assert (Hfinal : 0 <= final <= 1.2).
      { unfold final.
        destruct (SceneMode_eqb (TopStar.tickState t) FORMED),
                 (TopStar.tickHovered t); simpl; lra. }
      apply (IH _ (s0 + (final - s0) * (TopStar.tickDelta t * 3))).
      * cbn [TopStar.groupScale]. rewrite Hs. reflexivity.
      * nra.
  - intros hovered delta. eexists. split; [reflexivity|].
    cbn [TopStar.groupScale]. rewrite Hs.
    unfold ThreeMath.lerp, ThreeMath.setScalar; cbn [vx vy vz SceneMode_eqb].
    rewrite andb_false_r. f_equal; ring.
Qed.

Lemma star_scale_bounded_witness :
  exists grp' s',
    TopStar.frames
      [TopStar.mkTick FORMED true (/ 60); TopStar.mkTick CHAOS true (/ 60)]
      (Some (TopStar.mkGroup 0 (mkVector3 1 1 1))) = Some grp' /\
    TopStar.groupScale grp' = ThreeMath.setScalar s' /\ 0 <= s' <= 1.2.
Proof.
  refine (proj1 (star_scale_bounded
                   [TopStar.mkTick FORMED true (/ 60);
                    TopStar.mkTick CHAOS true (/ 60)]
                   (TopStar.mkGroup 0 (mkVector3 1 1 1)) 1 _ eq_refl _)).
  - repeat constructor; simpl; lra.
  - lra.
Defined.

(** ** More on gesture samples *)

(** X14.  After a sample without a hand the signal is zero and no hand
    position is retained, so the next sample with a hand emits no motion:
    the signal stays zero, and the hand position is retained for the sample
    after it. *)
Theorem first_hand_sample_emits_no_motion
    (s : GestureController.State)
    (lost found : GestureController.Results)
    (top : GestureController.Category) (others : list GestureController.Category)
    (more : list (list GestureController.Category))
    (hand : GestureController.Landmark) (marks : list GestureController.Landmark)
    (hands : list (list GestureController.Landmark)) :
  GestureController.gestures lost = [] ->
  GestureController.gestures found = (top :: others) :: more ->
  GestureController.landmarks found = (hand :: marks) :: hands ->
  GestureController.cameraSpeed (GestureController.predictWebcam lost s)
  = Experience.mkSpeed 0 0 /\
  GestureController.lastHandPos (GestureController.predictWebcam lost s) = None /\
  GestureController.sceneState (GestureController.predictWebcam lost s)
  = GestureController.sceneState s /\
  GestureController.cameraSpeed
    (GestureController.predictWebcam found
       (GestureController.predictWebcam lost s))
  = Experience.mkSpeed 0 0 /\
  GestureController.lastHandPos
    (GestureController.predictWebcam found
       (GestureController.predictWebcam lost s))
  = Some (GestureController.lx hand, GestureController.ly hand).
Proof.
  intros Hlost Hg Hl.
  assert (H1 : GestureController.predictWebcam lost s
               = GestureController.mkState (GestureController.sceneState s)
                   (Experience.mkSpeed 0 0) "AI READY: NO HAND" None).
  { unfold GestureController.predictWebcam. rewrite Hlost. reflexivity. }
  rewrite H1. cbn [GestureController.cameraSpeed GestureController.lastHandPos
                   GestureController.sceneState].
  repeat split.
  - unfold GestureController.predictWebcam. rewrite Hg, Hl.
    unfold GestureController.track. rewrite classify_lastHandPos.
    cbn [GestureController.lastHandPos GestureController.setLastHandPos
         GestureController.cameraSpeed].
    unfold GestureController.classify.
    destruct (Rgtb _ 0.4); [|reflexivity].
    destruct (String.eqb _ "Open_Palm"), (String.eqb _ "Closed_Fist"); reflexivity.
  - apply (predictWebcam_lastHandPos found _ top others more hand marks hands Hg Hl).
Qed.

Lemma first_hand_sample_emits_no_motion_witness :
  GestureController.cameraSpeed
    (GestureController.predictWebcam
       (GestureController.mkResults
          [[GestureController.mkCategory "Open_Palm" 0.9]]
          [[GestureController.mkLandmark 0.2 0.7]])
       (GestureController.predictWebcam
          (GestureController.mkResults [] [])
          (GestureController.mkState FORMED (Experience.mkSpeed 0.3 0.1)
             "AI READY" (Some (0.9, 0.9)))))
  = Experience.mkSpeed 0 0.
Proof.
  exact (proj1 (proj2 (proj2 (proj2
           (first_hand_sample_emits_no_motion
              (GestureController.mkState FORMED (Experience.mkSpeed 0.3 0.1)
                 "AI READY" (Some (0.9, 0.9)))
              (GestureController.mkResults [] [])
              (GestureController.mkResults
                 [[GestureController.mkCategory "Open_Palm" 0.9]]
                 [[GestureController.mkLandmark 0.2 0.7]])
              _ _ _ _ _ _ eq_refl eq_refl eq_refl))))).
Defined.

(** X15.  For two consecutive samples that each show a hand, a horizontal
    movement with [|dx| * SENSITIVITY] above the deadzone 0.002 is emitted in
    full: [x = dx * SENSITIVITY], with no part of it cut off. *)
Theorem beyond_deadzone_x_follows_hand
    (s : GestureController.State)
    (first second : GestureController.Results)
    (top1 top2 : GestureController.Category)
    (others1 others2 : list GestureController.Category)
    (more1 more2 : list (list GestureController.Category))
    (hand1 hand2 : GestureController.Landmark)
    (marks1 marks2 : list GestureController.Landmark)
    (hands1 hands2 : list (list GestureController.Landmark)) :
  GestureController.gestures first = (top1 :: others1) :: more1 ->
  GestureController.landmarks first = (hand1 :: marks1) :: hands1 ->
  GestureController.gestures second = (top2 :: others2) :: more2 ->
  GestureController.landmarks second = (hand2 :: marks2) :: hands2 ->
  Rabs (GestureController.lx hand2 - GestureController.lx hand1)
    * GestureController.SENSITIVITY > GestureController.deadzone ->
  Experience.sx
    (GestureController.cameraSpeed
       (GestureController.predictWebcam second
          (GestureController.predictWebcam first s)))
  = (GestureController.lx hand2 - GestureController.lx hand1)
    * GestureController.SENSITIVITY.
Proof.
  intros Hg1 Hl1 Hg2 Hl2 Hdx.
  pose proof (predictWebcam_lastHandPos first s _ _ _ _ _ _ Hg1 Hl1) as Hlast.
  set (s1 := GestureController.predictWebcam first s) in *.
  unfold GestureController.predictWebcam at 1. rewrite Hg2, Hl2.
  unfold GestureController.track.
  rewrite classify_lastHandPos, Hlast. simpl.
  assert (Hlive : Rgtb (Rabs ((GestureController.lx hand2
                               - GestureController.lx hand1)
                              * GestureController.SENSITIVITY))
                       GestureController.deadzone = true).
  { apply Rgtb_true.
    unfold GestureController.SENSITIVITY, GestureController.deadzone in *.
    rewrite Rabs_mult, (Rabs_pos_eq 5.0) by lra. lra. }
  rewrite Hlive. reflexivity.
Qed.

Lemma beyond_deadzone_x_follows_hand_witness :
  Experience.sx
    (GestureController.cameraSpeed
       (GestureController.predictWebcam
          (GestureController.mkResults
             [[GestureController.mkCategory "None" 0.9]]
             [[GestureController.mkLandmark 0.51 0.5]])
          (GestureController.predictWebcam
             (GestureController.mkResults
                [[GestureController.mkCategory "None" 0.9]]
                [[GestureController.mkLandmark 0.5 0.5]])
             (GestureController.mkState FORMED (Experience.mkSpeed 0 0)
                "AI READY" None))))
  = (0.51 - 0.5) * GestureController.SENSITIVITY.
Proof.
  refine (beyond_deadzone_x_follows_hand
            (GestureController.mkState FORMED (Experience.mkSpeed 0 0)
               "AI READY" None)
            (GestureController.mkResults
               [[GestureController.mkCategory "None" 0.9]]
               [[GestureController.mkLandmark 0.5 0.5]])
            (GestureController.mkResults
               [[GestureController.mkCategory "None" 0.9]]
               [[GestureController.mkLandmark 0.51 0.5]])
            _ _ _ _ _ _ _ _ _ _ _ _ eq_refl eq_refl eq_refl eq_refl _).
  cbn [GestureController.lx].
  unfold GestureController.SENSITIVITY, GestureController.deadzone.
  rewrite Rabs_pos_eq by lra. lra.
Defined.

(** X16.  A classification other than "Open_Palm" and "Closed_Fist" never
    changes the scene mode, whatever its score; with a score above 0.4 it is
    still reported in the status line as "DETECTED: " followed by its name,
    and with a score of at most 0.4 the status line is left alone. *)
Theorem other_gestures_reported_not_applied
    (results : GestureController.Results) (s : GestureController.State)
    (top : GestureController.Category) (others : list GestureController.Category)
    (hands : list (list GestureController.Category)) :
  GestureController.gestures results = (top :: others) :: hands ->
  GestureController.categoryName top <> "Open_Palm"%string ->
  GestureController.categoryName top <> "Closed_Fist"%string ->
  GestureController.sceneState (GestureController.predictWebcam results s)
  = GestureController.sceneState s /\
  (GestureController.score top > 0.4 ->
   GestureController.aiStatus (GestureController.predictWebcam results s)
   = ("DETECTED: " ++ GestureController.categoryName top)%string) /\
  (GestureController.score top <= 0.4 ->
   GestureController.aiStatus (GestureController.predictWebcam results s)
   = GestureController.aiStatus s).
Proof.
  intros Hg Hpalm Hfist.
  apply String.eqb_neq in Hpalm. apply String.eqb_neq in Hfist.
  assert (Hstatus : forall l st,
            GestureController.aiStatus (GestureController.track l st)
            = GestureController.aiStatus st).
  { intros l st. unfold GestureController.track.
    destruct l as [|[|hand marks] more]; simpl; auto.
    destruct (GestureController.lastHandPos st) as [[? ?]|]; reflexivity. }
  unfold GestureController.predictWebcam. rewrite Hg.
  rewrite track_sceneState, Hstatus.
  unfold GestureController.classify. rewrite Hpalm, Hfist.
  repeat split.
  - destruct (Rgtb _ 0.4); reflexivity.
  - intros Hs. apply Rgtb_true in Hs. rewrite Hs. reflexivity.
  - intros Hs. apply Rgtb_false in Hs. rewrite Hs. reflexivity.
Qed.

Lemma other_gestures_reported_not_applied_witness :
  GestureController.aiStatus
    (GestureController.predictWebcam
       (GestureController.mkResults
          [[GestureController.mkCategory "Victory" 0.8]] [])
       (GestureController.mkState CHAOS (Experience.mkSpeed 0 0)
          "AI READY" None))
  = "DETECTED: Victory"%string.
Proof.
  refine (proj1 (proj2 (other_gestures_reported_not_applied
            (GestureController.mkResults
               [[GestureController.mkCategory "Victory" 0.8]] [])
            (GestureController.mkState CHAOS (Experience.mkSpeed 0 0)
               "AI READY" None)
            (GestureController.mkCategory "Victory" 0.8) [] []
            eq_refl _ _)) _).
  - discriminate.
  - discriminate.
  - simpl. lra.
Defined.

(** X17.  A sample without a hand zeroes the signal; with that signal a
    camera frame moves neither the azimuth nor the polar angle itself (only
    the library's [update] runs), and the automatic rotation is on exactly
    when the scene is FORMED. *)
Theorem lost_hand_hands_camera_back
    (update : Experience.Controls -> Experience.Controls)
    (lost : GestureController.Results) (s : GestureController.State)
    (c : Experience.Controls) :
  GestureController.gestures lost = [] ->
  Experience.useFrame update
    (GestureController.cameraSpeed (GestureController.predictWebcam lost s))
    (Some c) = Some (update c) /\
  AppShell.autoRotate
    (GestureController.cameraSpeed (GestureController.predictWebcam lost s))
    (GestureController.sceneState (GestureController.predictWebcam lost s))
  = SceneMode_eqb (GestureController.sceneState s) FORMED.
Proof.
  intros Hlost. unfold GestureController.predictWebcam. rewrite Hlost.
  cbn [GestureController.cameraSpeed GestureController.sceneState
       GestureController.onStatus GestureController.onMove
       GestureController.setLastHandPos].
  split.
  - unfold Experience.useFrame, Experience.setAzimuthalAngle,
      Experience.setPolarAngle.
    cbn [Experience.sx Experience.sy Experience.azimuthal Experience.polar].
    rewrite !Rplus_0_r.
    destruct (Rgtb _ 0.1 && Rltb _ (PI - 0.1)); destruct c; reflexivity.
  - unfold AppShell.autoRotate, Reqb. cbn [Experience.sx Experience.sy].
    destruct (Req_dec_T 0 0) as [_|E]; [reflexivity | contradiction].
Qed.

Lemma lost_hand_hands_camera_back_witness :
  Experience.useFrame Experience.orbitUpdate
    (GestureController.cameraSpeed
       (GestureController.predictWebcam (GestureController.mkResults [] [])
          (GestureController.mkState FORMED (Experience.mkSpeed 0.2 0.1)
             "AI READY" (Some (0.5, 0.5)))))
    (Some (Experience.mkControls 1 1))
  = Some (Experience.orbitUpdate (Experience.mkControls 1 1)).
Proof.
  exact (proj1 (lost_hand_hands_camera_back Experience.orbitUpdate
                  (GestureController.mkResults [] [])
                  (GestureController.mkState FORMED (Experience.mkSpeed 0.2 0.1)
                     "AI READY" (Some (0.5, 0.5)))
                  (Experience.mkControls 1 1) eq_refl)).
Defined.

(** ** More on shake detection *)

(** X18.  [handleMotion] retains every full sample and ignores events
    without one: after a full sample (x1, y1, z1), followed by any number
    of events that lack the acceleration or one of its axes, the next full
    sample (x2, y2, z2) is a shake exactly when
    [|x2 - x1| + |y2 - y1| + |z2 - z1| > 25], whatever was retained before. *)
Theorem shake_compares_consecutive_samples
    (s : GrandTreeApp.State) (t1 : R) (x1 y1 z1 x2 y2 z2 : R)
    (ignored : list (R * GrandTreeApp.DeviceMotionEvent)) :
  Forall (fun te =>
            match GrandTreeApp.accelerationIncludingGravity (snd te) with
            | None => True
            | Some a => GrandTreeApp.ax a = None \/ GrandTreeApp.ay a = None
                        \/ GrandTreeApp.az a = None
            end) ignored ->
  let full := fun x y z =>
    GrandTreeApp.mkEvent
      (Some (GrandTreeApp.mkAcceleration (Some x) (Some y) (Some z))) in
  let s1 := GrandTreeApp.handleMotion t1 (full x1 y1 z1) s in
  let s2 := fold_left (fun st te => GrandTreeApp.handleMotion (fst te) (snd te) st)
              ignored s1 in
  s2 = s1 /\
  GrandTreeApp.lastX s1 = Some x1 /\ GrandTreeApp.lastY s1 = Some y1 /\
  GrandTreeApp.lastZ s1 = Some z1 /\
  (GrandTreeApp.shakeDetected (full x2 y2 z2) s2 <->
   Rabs (x2 - x1) + Rabs (y2 - y1) + Rabs (z2 - z1) > 25).
Proof.
  intros Hign. cbv zeta.
  set (s1 := GrandTreeApp.handleMotion t1 _ s).
  assert (Hlast : GrandTreeApp.lastX s1 = Some x1 /\
                  GrandTreeApp.lastY s1 = Some y1 /\
                  GrandTreeApp.lastZ s1 = Some z1).
  { unfold s1, GrandTreeApp.handleMotion.
    cbn [GrandTreeApp.accelerationIncludingGravity GrandTreeApp.ax
         GrandTreeApp.ay GrandTreeApp.az].
    repeat split. }
  assert (Hfold : fold_left
                    (fun st te => GrandTreeApp.handleMotion (fst te) (snd te) st)
                    ignored s1 = s1).
  { generalize s1. induction Hign as [|[t e] rest He Hrest IH]; intros st;
      [reflexivity|].
    cbn [fold_left fst snd]. cbn [snd] in He.
    assert (Hskip : GrandTreeApp.handleMotion t e st = st).
    { unfold GrandTreeApp.handleMotion.
      destruct (GrandTreeApp.accelerationIncludingGravity e) as [a|];
        [|reflexivity].
      destruct He as [-> | [Hy | Hz]]; [reflexivity| |].
      - rewrite Hy. destruct (GrandTreeApp.ax a); reflexivity.
      - rewrite Hz. destruct (GrandTreeApp.ax a), (GrandTreeApp.ay a); reflexivity. }
    rewrite Hskip. apply IH. }
  rewrite Hfold. destruct Hlast as (Hx & Hy & Hz).
  split; [reflexivity|]. split; [exact Hx|]. split; [exact Hy|].
  split; [exact Hz|]. split.
  - intros (a & x & y & z & x0 & y0 & z0 & He & Ex & Ey & Ez & E0x & E0y & E0z & Hsum).
    cbn [GrandTreeApp.accelerationIncludingGravity] in He. injection He as <-.
    cbn [GrandTreeApp.ax GrandTreeApp.ay GrandTreeApp.az] in Ex, Ey, Ez.
    injection Ex as <-. injection Ey as <-. injection Ez as <-.
    rewrite Hx in E0x. rewrite Hy in E0y. rewrite Hz in E0z.
    injection E0x as <-. injection E0y as <-. injection E0z as <-.
    exact Hsum.
  - intros Hsum.
    exists (GrandTreeApp.mkAcceleration (Some x2) (Some y2) (Some z2)),
      x2, y2, z2, x1, y1, z1.
    repeat split; assumption.
Qed.

Lemma shake_compares_consecutive_samples_witness :
  GrandTreeApp.shakeDetected
    (GrandTreeApp.mkEvent
       (Some (GrandTreeApp.mkAcceleration (Some 30) (Some 0) (Some 0))))
    (fold_left
       (fun st te => GrandTreeApp.handleMotion (fst te) (snd te) st)
       [(20, GrandTreeApp.mkEvent None)]
       (GrandTreeApp.handleMotion 10
          (GrandTreeApp.mkEvent
             (Some (GrandTreeApp.mkAcceleration (Some 0) (Some 0) (Some 0))))
          GrandTreeApp.initial)).
Proof.
  refine (proj2 (proj2 (proj2 (proj2 (proj2
            (shake_compares_consecutive_samples GrandTreeApp.initial 10
               0 0 0 30 0 0 [(20, GrandTreeApp.mkEvent None)] _))))) _).
  - repeat constructor.
  - replace (30 - 0) with 30 by lra. replace (0 - 0) with 0 by lra.
    rewrite Rabs_R0, Rabs_pos_eq by lra. lra.
Defined.

(** ** Photos, memos and themes *)

(** X19.  An upload appends: the photos already there keep their indices,
    and an upload of no file changes nothing.  So a memo written on the card
    of photo [i] is still shown, with the same photo, when the card of photo
    [i] is opened after any upload; the label reads Saved exactly when the
    text is not empty, and the memos of the other photos are untouched. *)
Theorem memo_stays_with_its_photo
    (s : AppShell.State) (i : nat) (url text : string) (urls : list string) :
  AppShell.selectedPhotoIndex s = Some i ->
  nth_error (AppShell.photos s) i = Some url ->
  AppShell.handleUpload [] s = s /\
  AppShell.card
    (AppShell.onPhotoClick i
       (AppShell.handleUpload urls (AppShell.handleMemoChange text s)))
  = Some (Some url, text, negb (String.eqb text EmptyString)) /\
  length (AppShell.photos
            (AppShell.handleUpload urls (AppShell.handleMemoChange text s)))
  = (length (AppShell.photos s) + length urls)%nat /\
  forall j, j <> i ->
    AppShell.memoAt j
      (AppShell.memos
         (AppShell.handleUpload urls (AppShell.handleMemoChange text s)))
    = AppShell.memoAt j (AppShell.memos s).
Proof.
  intros Hsel Hphoto.
  assert (Hi : (i < length (AppShell.photos s))%nat)
    by (apply nth_error_Some; congruence).
  split; [reflexivity|].
  unfold AppShell.handleMemoChange. rewrite Hsel.
  assert (Hup : AppShell.handleUpload urls
                  (AppShell.mkState (AppShell.photos s) (Some i)
                     ((i, text) :: AppShell.memos s))
                = AppShell.mkState (AppShell.photos s ++ urls) (Some i)
                    ((i, text) :: AppShell.memos s)).
  { destruct urls; [simpl; now rewrite app_nil_r | reflexivity]. }
  rewrite Hup.
  unfold AppShell.card, AppShell.onPhotoClick.
  cbn [AppShell.selectedPhotoIndex AppShell.photos AppShell.memos AppShell.memoAt].
  rewrite Nat.eqb_refl, nth_error_app1, Hphoto by exact Hi.
  split; [reflexivity|]. split; [apply length_app|].
  intros j Hj. destruct (Nat.eqb_spec i j); [congruence | reflexivity].
Qed.

Lemma memo_stays_with_its_photo_witness :
  AppShell.card
    (AppShell.onPhotoClick 0
       (AppShell.handleUpload ["blob:b"%string]
          (AppShell.handleMemoChange "Kandy, 2019"
             (AppShell.mkState ["blob:a"%string] (Some 0%nat) []))))
  = Some (Some "blob:a"%string, "Kandy, 2019"%string, true).
Proof.
  exact (proj1 (proj2 (memo_stays_with_its_photo
                         (AppShell.mkState ["blob:a"%string] (Some 0%nat) [])
                         0 "blob:a" "Kandy, 2019" ["blob:b"%string]
                         eq_refl eq_refl))).
Defined.

(** X20.  The scene configuration takes five colours from the selected
    theme and always the border colour "#FDFBF7": moving a slider while the
    border colour is the one being edited changes the custom colours but not
    the configuration, while for any other colour the configuration shows
    the new value.  Counts and tree size do not depend on the theme. *)
Theorem border_colour_not_themeable
    (selectedTheme : option AppShell.ThemePreset) (custom : ColorTheme)
    (type : SettingsPanel.Slider) (value : R) (st : SettingsPanel.State)
    (key : SettingsPanel.ColorKey) :
  SettingsPanel.activeColorKey st = Some key ->
  polaroidBorder (colors (AppShell.config selectedTheme custom))
  = "#FDFBF7"%string /\
  counts (AppShell.config selectedTheme custom) = mkCounts 500 50 200 /\
  tree (AppShell.config selectedTheme custom) = mkTree 28 12 /\
  (key = SettingsPanel.KPolaroidBorder ->
   AppShell.config None
     (SettingsPanel.customColors
        (SettingsPanel.handleSliderChange type value st))
   = AppShell.config None (SettingsPanel.customColors st)) /\
  (key <> SettingsPanel.KPolaroidBorder ->
   SettingsPanel.getColor key
     (colors (AppShell.config None
                (SettingsPanel.customColors
                   (SettingsPanel.handleSliderChange type value st))))
   = SettingsPanel.hslToHex
       (SettingsPanel.hue
          (SettingsPanel.hslValues
             (SettingsPanel.handleSliderChange type value st)))
       (SettingsPanel.sat
          (SettingsPanel.hslValues
             (SettingsPanel.handleSliderChange type value st)))
       (SettingsPanel.lum
          (SettingsPanel.hslValues
             (SettingsPanel.handleSliderChange type value st)))).
Proof.
  intros Hkey.
  split; [reflexivity|]. split; [reflexivity|]. split; [reflexivity|].
  unfold SettingsPanel.handleSliderChange. rewrite Hkey.
  cbn [SettingsPanel.customColors SettingsPanel.hslValues].
  split.
  - intros ->. reflexivity.
  - intros Hne. destruct key; try contradiction; reflexivity.
Qed.

Lemma border_colour_not_themeable_witness :
  AppShell.config None
    (SettingsPanel.customColors
       (SettingsPanel.handleSliderChange SettingsPanel.SliderH 120
          (SettingsPanel.mkState (Some SettingsPanel.KPolaroidBorder)
             (SettingsPanel.mkHSL 0 100 50) traditional)))
  = AppShell.config None traditional.
Proof.
  exact (proj1 (proj2 (proj2 (proj2
           (border_colour_not_themeable None traditional
              SettingsPanel.SliderH 120
              (SettingsPanel.mkState (Some SettingsPanel.KPolaroidBorder)
                 (SettingsPanel.mkHSL 0 100 50) traditional)
              SettingsPanel.KPolaroidBorder eq_refl)))) eq_refl).
Defined.

(** ** The colour sliders *)

(** [Math.round] respects integer bounds. *)
Lemma Math_round_bounds (a b : Z) (x : R) :
  IZR a <= x <= IZR b ->
  (a <= SettingsPanel.Math_round x <= b)%Z.
Proof.
  intros [Ha Hb]. unfold SettingsPanel.Math_round.
  destruct (base_Int_part (x + 0.5)) as [Hlo Hhi].
  split.
  - assert (H : (a - 1 < Int_part (x + 0.5))%Z); [|lia].
    apply lt_IZR. rewrite minus_IZR. lra.
  - assert (H : (Int_part (x + 0.5) < b + 1)%Z); [|lia].
    apply lt_IZR. rewrite plus_IZR. lra.
Qed.

Lemma Math_round_IZR (n : Z) : SettingsPanel.Math_round (IZR n) = n.
Proof.
  unfold SettingsPanel.Math_round. symmetry. apply Int_part_spec. lra.
Qed.

Lemma toFixed1_bounds (x : R) :
  0 <= x <= 100 -> 0 <= SettingsPanel.toFixed1 x <= 100.
Proof.
  intros [Hlo Hhi]. unfold SettingsPanel.toFixed1.
  assert (E : Rltb x 0 = false) by (apply Rltb_false; exact Hlo).
  rewrite E.
  destruct (Math_round_bounds 0 1000 (x * 10)) as [Z1 Z2]; [lra|].
  unfold SettingsPanel.Math_round in Z1, Z2.
  apply IZR_le in Z1. apply IZR_le in Z2. lra.
Qed.

Lemma toFixed1_0 : SettingsPanel.toFixed1 0 = 0.
Proof.
  unfold SettingsPanel.toFixed1.
  assert (E : Rltb 0 0 = false) by (apply Rltb_false; lra).
  rewrite E. replace (0 * 10 + 0.5) with (IZR 0 + 0.5) by lra.
  change (Int_part (IZR 0 + 0.5)) with (SettingsPanel.Math_round (IZR 0)).
  rewrite Math_round_IZR. lra.
Qed.

(** The remainder of a number that is not negative lies below the
    divisor. *)
Lemma jsRem_nonneg (a b : R) :
  0 <= a -> 0 < b -> 0 <= SettingsPanel.jsRem a b < b.
Proof.
  intros Ha Hb. unfold SettingsPanel.jsRem.
  assert (Hq : 0 <= a / b).
  { unfold Rdiv. apply Rmult_le_pos; [exact Ha|]. left. apply Rinv_0_lt_compat. exact Hb. }
  assert (E : Rltb (a / b) 0 = false) by (apply Rltb_false; exact Hq).
  rewrite E.
  destruct (base_Int_part (a / b)) as [Hlo Hhi].
  assert (Ea : a = b * (a / b)) by (field; lra).
  rewrite Ea at 1 3. nra.
Qed.

(** A number smaller in size than the divisor is its own remainder. *)
Lemma jsRem_small (a b : R) :
  0 < b -> Rabs a < b -> SettingsPanel.jsRem a b = a.
Proof.
  intros Hb Ha. unfold SettingsPanel.jsRem.
  assert (Habs : - b < a < b) by (apply Rabs_def2 in Ha; lra).
  assert (Hq : - 1 < a / b < 1).
  { split.
    - apply (Rmult_lt_reg_r b); [exact Hb|]. field_simplify; lra.
    - apply (Rmult_lt_reg_r b); [exact Hb|]. field_simplify; lra. }
  destruct (Rltb (a / b) 0) eqn:E.
  - assert (Int_part (- (a / b)) = 0%Z) as ->
      by (symmetry; apply Int_part_spec; apply Rltb_true in E; lra).
    simpl. lra.
  - assert (Int_part (a / b) = 0%Z) as ->
      by (symmetry; apply Int_part_spec; apply Rltb_false in E; lra).
    lra.
Qed.

(** The two-digit form of every channel value, checked value by value. *)
Lemma toHex_check :
  forallb
    (fun k =>
       let n := Z.of_nat k in
       String.eqb (SettingsPanel.toHex n)
         (String (SettingsPanel.digitChar (n / 16))
            (String (SettingsPanel.digitChar (n mod 16)) EmptyString))
       && match SettingsPanel.parseInt0x (SettingsPanel.toHex n) with
          | Some m => (m =? n)%Z
          | None => false
          end)
    (seq 0 256) = true.
Proof. vm_compute. reflexivity. Qed.

Lemma toHex_two_digits (n : Z) :
  (0 <= n <= 255)%Z ->
  SettingsPanel.toHex n
  = String (SettingsPanel.digitChar (n / 16))
      (String (SettingsPanel.digitChar (n mod 16)) EmptyString) /\
  SettingsPanel.parseInt0x (SettingsPanel.toHex n) = Some n.
Proof.
  intros Hn.
  pose proof (proj1 (forallb_forall _ _) toHex_check (Z.to_nat n)) as H.
  cbv beta zeta in H. rewrite Z2Nat.id in H by lia.
  assert (Hin : In (Z.to_nat n) (seq 0 256)) by (apply in_seq; lia).
  specialize (H Hin). apply andb_true_iff in H. destruct H as [H1 H2].
  apply String.eqb_eq in H1. split; [exact H1|].
  destruct (SettingsPanel.parseInt0x (SettingsPanel.toHex n)) as [m|];
    [|discriminate].
  apply Z.eqb_eq in H2. congruence.
Qed.

(** X21.  Writing a channel value between 0 and 255 with [toHex] gives two
    characters, and reading them back as [parseInt] does gives the value
    again. *)
Theorem hex_channel_round_trip (n : Z) :
  (0 <= n <= 255)%Z ->
  String.length (SettingsPanel.toHex n) = 2%nat /\
  SettingsPanel.parseInt0x (SettingsPanel.toHex n) = Some n.
Proof.
  intros Hn. destruct (toHex_two_digits n Hn) as [Hform Hparse].
  split; [rewrite Hform; reflexivity | exact Hparse].
Qed.

Lemma hex_channel_round_trip_witness :
  SettingsPanel.parseInt0x (SettingsPanel.toHex 215) = Some 215%Z.
Proof.
  refine (proj2 (hex_channel_round_trip 215 _)). lia.
Defined.

(** The channels of a string written from three channel values. *)
Lemma channels_of_hex (r g b : Z) :
  (0 <= r <= 255)%Z -> (0 <= g <= 255)%Z -> (0 <= b <= 255)%Z ->
  String.length ("#" ++ SettingsPanel.toHex r ++ SettingsPanel.toHex g
                 ++ SettingsPanel.toHex b) = 7%nat /\
  SettingsPanel.channels
    ("#" ++ SettingsPanel.toHex r ++ SettingsPanel.toHex g
     ++ SettingsPanel.toHex b)
  = (Some r, Some g, Some b).
Proof.
  intros Hr Hg Hb.
  destruct (toHex_two_digits r Hr) as [Fr Pr].
  destruct (toHex_two_digits g Hg) as [Fg Pg].
  destruct (toHex_two_digits b Hb) as [Fb Pb].
  rewrite Fr in Pr. rewrite Fg in Pg. rewrite Fb in Pb.
  rewrite Fr, Fg, Fb. split; [reflexivity|].
  unfold SettingsPanel.channels. cbn [String.length String.append Nat.eqb].
  unfold SettingsPanel.charAt. cbn [String.get String.append].
  rewrite Pr, Pg, Pb. reflexivity.
Qed.

(** The chroma, the second component and the offset of [hslToHex]. *)
Lemma hsl_components (h s l : R) :
  0 <= s <= 1 -> 0 <= l <= 1 ->
  let c := (1 - Rabs (2 * l - 1)) * s in
  let x := c * (1 - Rabs (SettingsPanel.jsRem (h / 60) 2 - 1)) in
  let m := l - c / 2 in
  0 <= c /\ 0 <= m /\ c + m <= 1 /\ (0 <= h -> 0 <= x <= c).
Proof.
  intros Hs Hl. cbv zeta.
  assert (Ha : 0 <= 1 - Rabs (2 * l - 1) <= 1 /\
               1 - Rabs (2 * l - 1) <= 2 * l /\
               1 - Rabs (2 * l - 1) <= 2 - 2 * l).
  { unfold Rabs. destruct (Rcase_abs (2 * l - 1)); lra. }
  destruct Ha as (A1 & A2 & A3).
  set (a := 1 - Rabs (2 * l - 1)) in *.
  assert (Hc : 0 <= a * s <= a) by nra.
  split; [lra|]. split; [lra|]. split; [lra|].
  intros Hh.
  assert (Hq : 0 <= h / 60).
  { unfold Rdiv. apply Rmult_le_pos; [exact Hh|]. lra. }
  destruct (jsRem_nonneg (h / 60) 2 Hq ltac:(lra)) as [J1 J2].
  assert (Hb : 0 <= 1 - Rabs (SettingsPanel.jsRem (h / 60) 2 - 1) <= 1).
  { unfold Rabs. destruct (Rcase_abs _); lra. }
  nra.
Qed.

(** The channels [hslToHex] writes and [hexToHSL] reads back. *)
Lemma hslToHex_channels (h s l : R) :
  0 <= s <= 100 -> 0 <= l <= 100 ->
  exists r g b,
    SettingsPanel.rgbOf h s l = (r, g, b) /\
    (0 <= r <= 255)%Z /\ (0 <= g <= 255)%Z /\ (0 <= b <= 255)%Z /\
    String.length (SettingsPanel.hslToHex h s l) = 7%nat /\
    SettingsPanel.channels (SettingsPanel.hslToHex h s l)
    = (Some r, Some g, Some b).
Proof.
  intros Hs Hl.
  assert (Hrange : forall v,
            0 <= v <= 1 ->
            (0 <= SettingsPanel.Math_round (v * 255) <= 255)%Z).
  { intros v Hv. apply Math_round_bounds. lra. }
  destruct (hsl_components h (s / 100) (l / 100)) as (Hc & Hm & Hcm & Hx);
    [lra | lra |].
  assert (Hrgb : exists r g b,
            SettingsPanel.rgbOf h s l = (r, g, b) /\
            (0 <= r <= 255)%Z /\ (0 <= g <= 255)%Z /\ (0 <= b <= 255)%Z).
  { unfold SettingsPanel.rgbOf. cbv zeta.
    set (c := (1 - Rabs (2 * (l / 100) - 1)) * (s / 100)) in *.
    set (x := c * (1 - Rabs (SettingsPanel.jsRem (h / 60) 2 - 1))) in *.
    set (m := l / 100 - c / 2) in *.
    unfold SettingsPanel.Rleb.
    destruct (Rle_dec 0 h) as [H0|H0]; cbn [andb].
    - specialize (Hx H0).
      repeat match goal with
             | |- context [Rle_dec ?a h] => destruct (Rle_dec a h); cbn [andb]
             | |- context [Rltb h ?a] => destruct (Rltb h a)
             end;
        do 3 eexists; (split; [reflexivity|]);
        repeat split; apply Hrange; lra.
    - repeat match goal with
             | |- context [Rle_dec ?a h] => destruct (Rle_dec a h); cbn [andb]
             | |- context [Rltb h ?a] => destruct (Rltb h a)
             end;
        try lra;
        do 3 eexists; (split; [reflexivity|]);
        repeat split; apply Hrange; lra. }
  destruct Hrgb as (r & g & b & Hrgb & Hr & Hg & Hb).
  exists r, g, b. split; [exact Hrgb|].
  split; [exact Hr|]. split; [exact Hg|]. split; [exact Hb|].
  destruct (channels_of_hex r g b Hr Hg Hb) as [Hlen Hch].
  unfold SettingsPanel.hslToHex. rewrite Hrgb. split; assumption.
Qed.

(** X22.  For a saturation and a lightness between 0 and 100 and any hue,
    the three channels of [hslToHex] lie between 0 and 255, the result has
    seven characters, and [hexToHSL] reads the same three channels back from
    it. *)
Theorem hslToHex_well_formed (h s l : R) :
  0 <= s <= 100 -> 0 <= l <= 100 ->
  exists r g b,
    SettingsPanel.rgbOf h s l = (r, g, b) /\
    (0 <= r <= 255)%Z /\ (0 <= g <= 255)%Z /\ (0 <= b <= 255)%Z /\
    String.length (SettingsPanel.hslToHex h s l) = 7%nat /\
    SettingsPanel.channels (SettingsPanel.hslToHex h s l)
    = (Some r, Some g, Some b) /\
    SettingsPanel.hexToHSL (SettingsPanel.hslToHex h s l)
    = Some (SettingsPanel.toHSL (IZR r) (IZR g) (IZR b)).
Proof.
  intros Hs Hl.
  destruct (hslToHex_channels h s l Hs Hl)
    as (r & g & b & Hrgb & Hr & Hg & Hb & Hlen & Hch).
  exists r, g, b. repeat split; try assumption; try lia.
  unfold SettingsPanel.hexToHSL. rewrite Hch. reflexivity.
Qed.

Lemma hslToHex_well_formed_witness :
  String.length (SettingsPanel.hslToHex 210 64.5 37) = 7%nat.
Proof.
  destruct (hslToHex_well_formed 210 64.5 37) as (r & g & b & _ & _ & _ & _ & Hlen & _).
  - lra.
  - lra.
  - exact Hlen.
Defined.

Lemma div_between (a b n d : R) :
  0 < d -> a * d <= n <= b * d -> a <= n / d <= b.
Proof.
  intros Hd [H1 H2].
  assert (E : n / d * d = n) by (field; lra).
  split; apply (Rmult_le_reg_r d); try exact Hd; rewrite E; assumption.
Qed.

(** What [hexToHSL] computes from three channels between 0 and 255: a hue
    from 0 to 359, a saturation and a lightness from 0 to 100, and hue and
    saturation 0 for a grey. *)
Lemma toHSL_ranges (r g b : R) :
  0 <= r <= 255 -> 0 <= g <= 255 -> 0 <= b <= 255 ->
  0 <= SettingsPanel.hue (SettingsPanel.toHSL r g b) < 360 /\
  0 <= SettingsPanel.sat (SettingsPanel.toHSL r g b) <= 100 /\
  0 <= SettingsPanel.lum (SettingsPanel.toHSL r g b) <= 100 /\
  (r = g -> g = b ->
   SettingsPanel.hue (SettingsPanel.toHSL r g b) = 0 /\
   SettingsPanel.sat (SettingsPanel.toHSL r g b) = 0).
Proof.
  intros Hr Hg Hb. unfold SettingsPanel.toHSL.
  cbn [SettingsPanel.hue SettingsPanel.sat SettingsPanel.lum].
  set (r1 := r / 255). set (g1 := g / 255). set (b1 := b / 255).
  assert (R1 : 0 <= r1 <= 1) by (unfold r1; lra).
  assert (G1 : 0 <= g1 <= 1) by (unfold g1; lra).
  assert (B1 : 0 <= b1 <= 1) by (unfold b1; lra).
  set (cmin := Rmin r1 (Rmin g1 b1)). set (cmax := Rmax r1 (Rmax g1 b1)).
  assert (Hmin : 0 <= cmin /\ cmin <= r1 /\ cmin <= g1 /\ cmin <= b1).
  { unfold cmin. repeat split.
    - repeat apply Rmin_glb; lra.
    - apply Rmin_l.
    - eapply Rle_trans; [apply Rmin_r | apply Rmin_l].
    - eapply Rle_trans; [apply Rmin_r | apply Rmin_r]. }
  assert (Hmax : cmax <= 1 /\ r1 <= cmax /\ g1 <= cmax /\ b1 <= cmax).
  { unfold cmax. repeat split.
    - repeat apply Rmax_lub; lra.
    - apply Rmax_l.
    - eapply Rle_trans; [apply Rmax_l | apply Rmax_r].
    - eapply Rle_trans; [apply Rmax_r | apply Rmax_r]. }
  destruct Hmin as (M0 & M1 & M2 & M3). destruct Hmax as (X0 & X1 & X2 & X3).
  set (delta := cmax - cmin).
  assert (Hround : forall h0, - 1 <= h0 <= 5 ->
            0 <= (if Rltb (IZR (SettingsPanel.Math_round (h0 * 60))) 0
                  then IZR (SettingsPanel.Math_round (h0 * 60)) + 360
                  else IZR (SettingsPanel.Math_round (h0 * 60))) < 360).
  { intros h0 Hh0.
    destruct (Math_round_bounds (-60) 300 (h0 * 60)) as [Z1 Z2]; [lra|].
    destruct (Rltb _ 0) eqn:E.
    - apply Rltb_true in E. apply lt_IZR in E.
      assert (Z3 : (SettingsPanel.Math_round (h0 * 60) <= -1)%Z) by lia.
      apply IZR_le in Z1. apply IZR_le in Z3. lra.
    - apply Rltb_false in E. apply IZR_le in Z2. lra. }
  assert (Hzero : (if Rltb (IZR (SettingsPanel.Math_round (0 * 60))) 0
                   then IZR (SettingsPanel.Math_round (0 * 60)) + 360
                   else IZR (SettingsPanel.Math_round (0 * 60))) = 0).
  { replace (0 * 60) with (IZR 0) by lra.
    rewrite Math_round_IZR.
    assert (E : Rltb 0 0 = false) by (apply Rltb_false; lra).
    rewrite E. reflexivity. }
  set (h0 := if Reqb delta 0 then 0
             else if Reqb cmax r1 then SettingsPanel.jsRem ((g1 - b1) / delta) 6
             else if Reqb cmax g1 then (b1 - r1) / delta + 2
             else (r1 - g1) / delta + 4).
  set (s0 := if Reqb delta 0 then 0
             else delta / (1 - Rabs (2 * ((cmax + cmin) / 2) - 1))).
  assert (Hgrey : r = g -> g = b -> delta = 0).
  { intros E1 E2. unfold delta, cmax, cmin, r1, g1, b1. rewrite E1, E2.
    unfold Rmin, Rmax. repeat destruct (Rle_dec _ _); lra. }
  assert (Hh0 : - 1 <= h0 <= 5 /\ (delta = 0 -> h0 = 0)).
  { unfold h0, Reqb. destruct (Req_dec_T delta 0) as [Ed|Ed].
    - split; [lra | reflexivity].
    - assert (Hd : 0 < delta) by (unfold delta in *; lra).
      split; [|intros; contradiction].
      destruct (Req_dec_T cmax r1) as [E1|E1];
        [|destruct (Req_dec_T cmax g1) as [E2|E2]].
      + assert (Hq : - 1 <= (g1 - b1) / delta <= 1)
          by (apply div_between; [exact Hd | unfold delta; lra]).
        rewrite jsRem_small; [lra | lra |].
        apply Rabs_def1; lra.
      + assert (Hq : - 1 <= (b1 - r1) / delta <= 1)
          by (apply div_between; [exact Hd | unfold delta; lra]).
        lra.
      + assert (Hq : - 1 <= (r1 - g1) / delta <= 1)
          by (apply div_between; [exact Hd | unfold delta; lra]).
        lra. }
  assert (Hs0 : 0 <= s0 <= 1 /\ (delta = 0 -> s0 = 0)).
  { unfold s0, Reqb. destruct (Req_dec_T delta 0) as [Ed|Ed].
    - split; [lra | reflexivity].
    - assert (Hd : 0 < delta) by (unfold delta in *; lra).
      split; [|intros; contradiction].
      assert (Hden : delta <= 1 - Rabs (2 * ((cmax + cmin) / 2) - 1)).
      { unfold delta, Rabs. destruct (Rcase_abs _); lra. }
      apply div_between; lra. }
  destruct Hh0 as [Hh0 Hh0z]. destruct Hs0 as [Hs0 Hs0z].
  split; [apply Hround; exact Hh0|].
  split; [apply toFixed1_bounds; lra|].
  split; [apply toFixed1_bounds; lra|].
  intros E1 E2. specialize (Hgrey E1 E2).
  rewrite (Hh0z Hgrey), (Hs0z Hgrey). split; [exact Hzero|].
  replace (0 * 100) with 0 by lra. apply toFixed1_0.
Qed.

Lemma get_in_range (i : nat) (s : string) :
  (i < String.length s)%nat -> exists c, String.get i s = Some c.
Proof.
  revert i. induction s as [|c s IH]; intros i Hi; simpl in Hi; [lia|].
  destruct i as [|i]; simpl; [eauto | apply IH; lia].
Qed.

Lemma hexDigit_range (c : ascii) (d : Z) :
  SettingsPanel.hexDigit c = Some d -> (0 <= d <= 15)%Z.
Proof.
  unfold SettingsPanel.hexDigit.
  repeat match goal with
         | |- context [if ?b then _ else _] => destruct b eqn:?
         end; intros Hsome; try discriminate; injection Hsome as <-;
    repeat match goal with
           | H : (_ && _)%bool = true |- _ => apply andb_true_iff in H; destruct H
           | H : (_ <=? _)%nat = true |- _ => apply Nat.leb_le in H
           end; lia.
Qed.

(** Two characters make a channel between 0 and 255 or no number at all. *)
Lemma parse_two_chars (a b : ascii) (n : Z) :
  SettingsPanel.parseInt0x (String a (String b EmptyString)) = Some n ->
  (0 <= n <= 255)%Z.
Proof.
  unfold SettingsPanel.parseInt0x. cbn [SettingsPanel.parseHex].
  destruct (SettingsPanel.hexDigit a) as [da|] eqn:Ea; [|discriminate].
  pose proof (hexDigit_range a da Ea) as Ra.
  destruct (SettingsPanel.hexDigit b) as [db|] eqn:Eb.
  - pose proof (hexDigit_range b db Eb) as Rb.
    intros Hn. injection Hn as <-. destruct da; lia.
  - intros Hn. injection Hn as <-. destruct da; lia.
Qed.

Lemma channels_range (hex : string) (r g b : Z) :
  SettingsPanel.channels hex = (Some r, Some g, Some b) ->
  (0 <= r <= 255)%Z /\ (0 <= g <= 255)%Z /\ (0 <= b <= 255)%Z.
Proof.
  unfold SettingsPanel.channels.
  destruct (String.length hex =? 4)%nat eqn:E4;
    [|destruct (String.length hex =? 7)%nat eqn:E7].
  - apply Nat.eqb_eq in E4. unfold SettingsPanel.charAt.
    destruct (get_in_range 1 hex ltac:(lia)) as [c1 ->].
    destruct (get_in_range 2 hex ltac:(lia)) as [c2 ->].
    destruct (get_in_range 3 hex ltac:(lia)) as [c3 ->].
    cbn [String.append]. intros H. injection H as H1 H2 H3.
    repeat split; eapply parse_two_chars; eassumption.
  - apply Nat.eqb_eq in E7. unfold SettingsPanel.charAt.
    destruct (get_in_range 1 hex ltac:(lia)) as [c1 ->].
    destruct (get_in_range 2 hex ltac:(lia)) as [c2 ->].
    destruct (get_in_range 3 hex ltac:(lia)) as [c3 ->].
    destruct (get_in_range 4 hex ltac:(lia)) as [c4 ->].
    destruct (get_in_range 5 hex ltac:(lia)) as [c5 ->].
    destruct (get_in_range 6 hex ltac:(lia)) as [c6 ->].
    cbn [String.append]. intros H. injection H as H1 H2 H3.
    repeat split; eapply parse_two_chars; eassumption.
  - intros H. injection H as <- <- <-. lia.
Qed.

(** X23.  Whenever [hexToHSL] returns numbers, they fit the sliders: the hue
    is at least 0 and below 360, the saturation and the lightness are
    between 0 and 100. *)
Theorem hexToHSL_fits_sliders (hex : string) (hsl : SettingsPanel.HSL) :
  SettingsPanel.hexToHSL hex = Some hsl ->
  0 <= SettingsPanel.hue hsl < 360 /\
  0 <= SettingsPanel.sat hsl <= 100 /\
  0 <= SettingsPanel.lum hsl <= 100.
Proof.
  unfold SettingsPanel.hexToHSL.
  destruct (SettingsPanel.channels hex) as [[[r|] [g|]] [b|]] eqn:Hch;
    try discriminate.
  intros H. injection H as <-.
  destruct (channels_range hex r g b Hch) as (Hr & Hg & Hb).
  destruct (toHSL_ranges (IZR r) (IZR g) (IZR b)) as (Hh & Hs & Hl & _).
  - split; apply IZR_le; lia.
  - split; apply IZR_le; lia.
  - split; apply IZR_le; lia.
  - repeat split; try apply Hh; try apply Hs; apply Hl.
Qed.

Lemma gold_channels :
  SettingsPanel.channels "#FFD700" = (Some 255, Some 215, Some 0)%Z.
Proof. vm_compute. reflexivity. Qed.

Lemma hexToHSL_fits_sliders_witness :
  exists hsl,
    SettingsPanel.hexToHSL "#FFD700" = Some hsl /\
    0 <= SettingsPanel.hue hsl < 360.
Proof.
  assert (H : SettingsPanel.hexToHSL "#FFD700"
              = Some (SettingsPanel.toHSL (IZR 255) (IZR 215) (IZR 0))).
  { unfold SettingsPanel.hexToHSL. rewrite gold_channels. reflexivity. }
  eexists. split; [exact H|].
  exact (proj1 (hexToHSL_fits_sliders _ _ H)).
Defined.

(** X24.  A hue outside [[0, 360)] (the hue slider reaches 360) matches no
    sector of [hslToHex]: the three channels are equal, so the colour
    written is a grey, whatever the saturation; read back by [hexToHSL] it
    has hue 0 and saturation 0. *)
Theorem hue_outside_sectors_gives_grey (h s l : R) :
  h < 0 \/ 360 <= h -> 0 <= s <= 100 -> 0 <= l <= 100 ->
  exists v hsl,
    SettingsPanel.rgbOf h s l = (v, v, v) /\
    SettingsPanel.hslToHex h s l
    = ("#" ++ SettingsPanel.toHex v ++ SettingsPanel.toHex v
       ++ SettingsPanel.toHex v)%string /\
    SettingsPanel.hexToHSL (SettingsPanel.hslToHex h s l) = Some hsl /\
    SettingsPanel.hue hsl = 0 /\ SettingsPanel.sat hsl = 0.
Proof.
  intros Hh Hs Hl.
  assert (Hrgb : exists v, SettingsPanel.rgbOf h s l = (v, v, v)).
  { unfold SettingsPanel.rgbOf. cbv zeta. unfold SettingsPanel.Rleb, Rltb.
    repeat match goal with
           | |- context [Rle_dec ?a h] => destruct (Rle_dec a h); cbn [andb]
           | |- context [Rlt_dec h ?a] => destruct (Rlt_dec h a); cbn [andb]
           end; try lra; eexists; reflexivity. }
  destruct Hrgb as [v Hv].
  destruct (hslToHex_channels h s l Hs Hl)
    as (r & g & b & Hrgb & Hr & Hg & Hb & _ & Hch).
  rewrite Hv in Hrgb. injection Hrgb as <- <- <-.
  exists v, (SettingsPanel.toHSL (IZR v) (IZR v) (IZR v)).
  split; [exact Hv|].
  split; [unfold SettingsPanel.hslToHex; rewrite Hv; reflexivity|].
  split; [unfold SettingsPanel.hexToHSL; rewrite Hch; reflexivity|].
  destruct (toHSL_ranges (IZR v) (IZR v) (IZR v)) as (_ & _ & _ & Hgrey);
    try (split; apply IZR_le; lia).
  apply Hgrey; reflexivity.
Qed.

Lemma hue_outside_sectors_gives_grey_witness :
  exists v hsl,
    SettingsPanel.rgbOf 360 100 50 = (v, v, v) /\
    SettingsPanel.hexToHSL (SettingsPanel.hslToHex 360 100 50) = Some hsl /\
    SettingsPanel.sat hsl = 0.
Proof.
  destruct (hue_outside_sectors_gives_grey 360 100 50)
    as (v & hsl & Hv & _ & Hback & _ & Hsat).
  - right. lra.
  - lra.
  - lra.
  - exists v, hsl. repeat split; assumption.
Defined.

Lemma toHSL_black :
  SettingsPanel.toHSL (IZR 0) (IZR 0) (IZR 0) = SettingsPanel.mkHSL 0 0 0.
Proof.
  destruct (toHSL_ranges (IZR 0) (IZR 0) (IZR 0)) as (_ & _ & _ & Hgrey);
    try lra.
  destruct (Hgrey eq_refl eq_refl) as [Hh Hs].
  assert (Hl : SettingsPanel.lum (SettingsPanel.toHSL (IZR 0) (IZR 0) (IZR 0)) = 0).
  { unfold SettingsPanel.toHSL. cbn [SettingsPanel.lum].
    replace (0 / 255) with 0 by lra.
    assert (Emin : Rmin 0 (Rmin 0 0) = 0)
      by (unfold Rmin; repeat destruct (Rle_dec _ _); reflexivity).
    assert (Emax : Rmax 0 (Rmax 0 0) = 0)
      by (unfold Rmax; repeat destruct (Rle_dec _ _); reflexivity).
    rewrite Emin, Emax.
    replace ((0 + 0) / 2 * 100) with 0 by lra. apply toFixed1_0. }
  destruct (SettingsPanel.toHSL (IZR 0) (IZR 0) (IZR 0)) as [hh ss ll].
  cbn in Hh, Hs, Hl. subst. reflexivity.
Qed.

(** X25.  The edges of [hexToHSL]: a string whose length is neither 4 nor 7
    is read as black (0, 0, 0); a four-character string is read as the
    seven-character one with each digit doubled; and a seven-character
    string whose first digit after the first character is not hexadecimal
    gives no numbers at all. *)
Theorem hexToHSL_edges :
  (forall hex,
     String.length hex <> 4%nat -> String.length hex <> 7%nat ->
     SettingsPanel.hexToHSL hex = Some (SettingsPanel.mkHSL 0 0 0)) /\
  (forall c0 a b c,
     SettingsPanel.hexToHSL
       (String c0 (String a (String b (String c EmptyString))))
     = SettingsPanel.hexToHSL
         (String c0 (String a (String a (String b (String b
            (String c (String c EmptyString)))))))) /\
  (forall hex c,
     String.length hex = 7%nat -> String.get 1 hex = Some c ->
     SettingsPanel.hexDigit c = None ->
     SettingsPanel.hexToHSL hex = None).
Proof.
  split; [|split].
  - intros hex H4 H7. unfold SettingsPanel.hexToHSL, SettingsPanel.channels.
    apply Nat.eqb_neq in H4. apply Nat.eqb_neq in H7. rewrite H4, H7.
    f_equal. apply toHSL_black.
  - intros c0 a b c.
    unfold SettingsPanel.hexToHSL, SettingsPanel.channels,
      SettingsPanel.charAt.
    cbn [String.length Nat.eqb String.get String.append]. reflexivity.
  - intros hex c Hlen Hget Hdigit.
    unfold SettingsPanel.hexToHSL, SettingsPanel.channels.
    rewrite Hlen. cbn [Nat.eqb].
    unfold SettingsPanel.charAt at 1. rewrite Hget.
    unfold SettingsPanel.parseInt0x at 1.
    cbn [String.append SettingsPanel.parseHex]. rewrite Hdigit. reflexivity.
Qed.

Lemma hexToHSL_edges_witness :
  SettingsPanel.hexToHSL "#GGD700" = None.
Proof.
  refine (proj2 (proj2 hexToHSL_edges) "#GGD700"%string "G"%char _ _ _);
    reflexivity.
Defined.
